(** * c15t GitHub Action: deployment gate, retry executor, Vercel client and
      sticky comment manager

    A shallow embedding of the TypeScript sources of the action
    ([steps/changes.ts], [utils/errors.ts], [github/pr-comment.ts],
    [steps/comments.ts], [deploy/vercel-client.ts], [steps/deployment.ts])
    and the properties of its specification that were checked against it.

    Conventions.
    - A JavaScript string is the list of its UTF-16 code units ([list N]);
      [str] turns an ASCII literal into such a list.
    - [undefined] / a missing property is [None].
    - A function that may throw returns a [Result]; code with side effects
      is a state-passing computation [M] over a [World] that holds the
      ordered trace of observable effects, [process.env] and the comments
      of the pull request.
    - Responses of the remote systems (REST calls of Octokit, HTTPS replies
      of Vercel) and JavaScript built-ins that are not part of the
      repository ([JSON.parse], [encodeURIComponent]) are supplied by
      records of functions, in the manner of test doubles. *)

From Stdlib Require Import ZArith NArith List Ascii String Lia Bool DecimalString.
From stdpp Require Import base option list gmap strings.

Local Open Scope Z_scope.

(* ===================================================================== *)
(** ** JavaScript strings                                                 *)
(* ===================================================================== *)

Module Js.

(** A string literal of the source (ASCII only). *)
Definition str (s : string) : list N :=
  List.map N_of_ascii (list_ascii_of_string s).

Definition len (s : list N) : Z := Z.of_nat (length s).

(** [s.startsWith(p)] *)
Fixpoint startsWith (s p : list N) {struct p} : bool :=
  match p, s with
  | [], _ => true
  | _ :: _, [] => false
  | a :: p', b :: s' => N.eqb a b && startsWith s' p'
  end.

Fixpoint indexOfFrom (s p : list N) (i : Z) : Z :=
  if startsWith s p then i
  else match s with
       | [] => -1
       | _ :: s' => indexOfFrom s' p (i + 1)
       end.

(** [s.indexOf(p)]: index of the first occurrence, [-1] when absent. *)
Definition indexOf (s p : list N) : Z := indexOfFrom s p 0.

(** [s.includes(p)] *)
Definition includes (s p : list N) : bool := negb (indexOf s p =? -1).

(** [s.substring(a, b)]: both indices are clamped to [0, length] and
    swapped when [a > b]. *)
Definition clamp (s : list N) (i : Z) : Z := Z.max 0 (Z.min i (len s)).

Definition substring (s : list N) (a b : Z) : list N :=
  let a' := clamp s a in
  let b' := clamp s b in
  let lo := Z.min a' b' in
  let hi := Z.max a' b' in
  take (Z.to_nat (hi - lo)) (drop (Z.to_nat lo) s).

(** [s.slice(a, b)] and [s.slice(a)]: negative indices count from the
    end; an empty string results when the range is empty. *)
Definition sliceIndex (s : list N) (i : Z) : Z :=
  if i <? 0 then Z.max 0 (len s + i) else Z.min i (len s).

Definition slice (s : list N) (a : Z) (b : option Z) : list N :=
  let a' := sliceIndex s a in
  let b' := match b with Some b => sliceIndex s b | None => len s end in
  take (Z.to_nat (b' - a')) (drop (Z.to_nat a') s).

(** WhiteSpace and LineTerminator code units of ECMAScript: what
    [trim] strips and what [\s] matches. *)
Definition isSpace (c : N) : bool :=
  ((9 <=? c) && (c <=? 13) || (c =? 32) || (c =? 160) || (c =? 5760)
   || (8192 <=? c) && (c <=? 8202) || (c =? 8232) || (c =? 8233)
   || (c =? 8239) || (c =? 8287) || (c =? 12288) || (c =? 65279))%N.

(** What [.] does not match: the LineTerminator code points. *)
Definition isLineTerminator (c : N) : bool :=
  ((c =? 10) || (c =? 13) || (c =? 8232) || (c =? 8233))%N.

(** [\w] without the [u] and [i] flags: [A-Za-z0-9_]. *)
Definition isWordChar (c : N) : bool :=
  ((65 <=? c) && (c <=? 90) || (97 <=? c) && (c <=? 122)
   || (48 <=? c) && (c <=? 57) || (c =? 95))%N.

Fixpoint dropWhile (f : N -> bool) (s : list N) : list N :=
  match s with
  | [] => []
  | c :: s' => if f c then dropWhile f s' else s
  end.

Definition trimStart (s : list N) : list N := dropWhile isSpace s.
Definition trimEnd (s : list N) : list N := rev (dropWhile isSpace (rev s)).

(** [s.trim()] *)
Definition trim (s : list N) : list N := trimEnd (trimStart s).

(** [s.split(sep)] for a one-character separator: never empty, [''.split(',')]
    is [['']]. *)
Fixpoint split (s : list N) (sep : N) : list (list N) :=
  match s with
  | [] => [[]]
  | c :: s' =>
      if N.eqb c sep then [] :: split s' sep
      else match split s' sep with
           | [] => [[c]]
           | w :: ws => (c :: w) :: ws
           end
  end.

(** [s.replace(pat, rep)] with a string pattern: only the first occurrence
    is replaced.  [rep] is taken literally; every call site of the source
    with a string pattern passes the empty replacement. *)
Definition replace (s pat rep : list N) : list N :=
  let i := indexOf s pat in
  if i =? -1 then s
  else take (Z.to_nat i) s ++ rep ++ drop (Z.to_nat i + length pat) s.

(** [s.replace(/pat/g, rep)] for a regular expression that is a non-empty
    literal: all occurrences, left to right, not overlapping.  [skip] counts
    the code units of a match that are still to be passed over. *)
Fixpoint replaceAllFrom (s pat rep : list N) (skip : nat) : list N :=
  match s with
  | [] => []
  | c :: s' =>
      match skip with
      | S k => replaceAllFrom s' pat rep k
      | O =>
          if startsWith s pat
          then rep ++ replaceAllFrom s' pat rep (length pat - 1)
          else c :: replaceAllFrom s' pat rep 0
      end
  end.

Definition replaceAll (s pat rep : list N) : list N :=
  replaceAllFrom s pat rep 0.

(** [s.toLowerCase()].  Exact on every code unit whose lower-case form
    contains an ASCII character (A-Z, U+212A KELVIN SIGN, U+0130); the
    other code units are kept: their lower-case forms are not ASCII either,
    which is all that the callers (a search for ASCII needles, and
    [slugify], which deletes every non-ASCII code unit) can observe. *)
Definition lowerUnit (c : N) : list N :=
  (if (65 <=? c) && (c <=? 90) then [c + 32]
   else if c =? 8490 then [107]
   else if c =? 304 then [105; 775]
   else [c])%N.

Definition toLowerCase (s : list N) : list N := flat_map lowerUnit s.

(** The code points of a string: a high surrogate followed by a low one is
    one code point, as the [u] flag of a regular expression reads it. *)
Definition isHighSurrogate (c : N) : bool := ((55296 <=? c) && (c <=? 56319))%N.
Definition isLowSurrogate (c : N) : bool := ((56320 <=? c) && (c <=? 57343))%N.

Fixpoint codePoints (s : list N) : list N :=
  match s with
  | [] => []
  | hi :: tl =>
      match tl with
      | lo :: rest =>
          if isHighSurrogate hi && isLowSurrogate lo
          then (65536 + (hi - 55296) * 1024 + (lo - 56320))%N :: codePoints rest
          else hi :: codePoints tl
      | [] => [hi]
      end
  end.

(** JavaScript truthiness of a string and of an optional string. *)
Definition truthy (s : list N) : bool :=
  match s with [] => false | _ => true end.

Definition truthyOpt (o : option (list N)) : bool :=
  match o with Some s => truthy s | None => false end.

(** [o || d] for an optional string. *)
Definition orElse (o : option (list N)) (d : list N) : list N :=
  match o with
  | Some s => if truthy s then s else d
  | None => d
  end.

(** [a.includes(x)] on an array of strings. *)
Definition arrayIncludes (a : list (list N)) (x : list N) : bool :=
  existsb (fun y => bool_decide (y = x)) a.

End Js.

(* ===================================================================== *)
(** ** Thrown values and results                                          *)
(* ===================================================================== *)

(** What a [throw] carries: an instance of [Error] (the source constructs
    no subclass) or any other value, of which only [String(e)] is read. *)
Inductive Thrown :=
| JsError (message : list N)
| JsOther (repr : list N).

(** [e instanceof Error ? e.message : String(e)] *)
Definition errorText (e : Thrown) : list N :=
  match e with
  | JsError m => m
  | JsOther r => r
  end.

Inductive Result (A : Type) :=
| Ok (a : A)
| Throw (e : Thrown).
Arguments Ok {A} a.
Arguments Throw {A} e.

Definition rbind {A B} (r : Result A) (k : A -> Result B) : Result B :=
  match r with
  | Ok a => k a
  | Throw e => Throw e
  end.

(** [try { r } catch { h }] for code without side effects. *)
Definition rcatch {A} (r : Result A) (h : Thrown -> Result A) : Result A :=
  match r with
  | Ok a => Ok a
  | Throw e => h e
  end.

(* ===================================================================== *)
(** ** The run context, the observable effects and the world              *)
(* ===================================================================== *)

(** [github.context], as far as the action reads it. *)
Record PullRequest := {
  pr_number : option Z;
  pr_base_ref : option (list N);
}.

Record Payload := {
  pull_request : option PullRequest;
  before : option (list N);
}.

Record Context := {
  eventName : list N;
  ref : option (list N);
  head_ref : option (list N);
  sha : list N;
  actor : option (list N);
  repo_owner : list N;
  repo_name : list N;
  payload : Payload;
}.

Inductive DeploymentState := in_progress | success | failure.

(** The body handed to [JSON.stringify] for a request to Vercel.  The value
    is kept structured: serialisation is outside the model. *)
Inductive RequestBody :=
| DeployBody (name project target : list N)
             (files : list (list N * list N))
             (meta : gmap (list N) (list N))
             (framework : list N)
| AliasBody (alias : list N).

(** An HTTPS request to [api.vercel.com] (always a [POST]). *)
Record HttpsRequest := {
  req_path : list N;
  req_authorization : list N;
  req_body : RequestBody;
}.

(** One stored issue comment, as the GraphQL query returns it. *)
Record IssueComment := {
  id : list N;
  author_login : option (list N);
  isMinimized : bool;
  body : list N;
}.

(** Everything the action does that can be observed from outside. *)
Inductive Event :=
| CoreInfo (msg : list N)
| CoreWarning (msg : list N)
| CoreError (msg : list N)
| CoreDebug (msg : list N)
| CoreSetFailed (msg : list N)
| CoreSetOutput (name : list N) (value : option (list N))
| Slept (ms : Z)
| OperationCalled
| ListFiles (pull_number : Z)
| CompareCommits (basehead : list N)
| GetCommit (commit_ref : list N)
| CreateDeployment (environment : list N) (transient production : bool)
                   (template_sha : option (list N))
| CreateDeploymentStatus (deployment_id : Z) (state : DeploymentState)
                         (description : list N)
                         (environment_url : option (list N))
| QueryComments (number : Z) (after : option nat)
| UpdateIssueComment (comment_id : list N) (new_body : list N)
| CreateIssueComment (issue_number : Z) (new_body : list N)
| SetupDocs (token : list N)
| Https (request : HttpsRequest)
| AppendFile (path : list N) (line : list N).

Record World := {
  trace : list Event;              (* oldest first *)
  env : gmap string (list N);      (* process.env *)
  comments : list IssueComment;    (* the comments of the pull request *)
}.

(** A computation with side effects that may throw. *)
Definition M (A : Type) : Type := World -> Result A * World.

Definition ret {A} (a : A) : M A := fun w => (Ok a, w).

Definition throw {A} (e : Thrown) : M A := fun w => (Throw e, w).

Definition bind {A B} (m : M A) (k : A -> M B) : M B :=
  fun w =>
    match m w with
    | (Ok a, w') => k a w'
    | (Throw e, w') => (Throw e, w')
    end.

(** [try { m } catch (e) { h e }] *)
Definition tryCatch {A} (m : M A) (h : Thrown -> M A) : M A :=
  fun w =>
    match m w with
    | (Ok a, w') => (Ok a, w')
    | (Throw e, w') => h e w'
    end.

(** A throwing function without side effects, run inside [M]. *)
Definition lift {A} (r : Result A) : M A := fun w => (r, w).

Notation "'let*' x ':=' m 'in' k" := (bind m (fun x => k))
  (at level 10, x pattern, m at level 100, k at level 200).
Notation "m ';;' k" := (bind m (fun _ => k))
  (at level 100, k at level 200, right associativity).

Definition record (e : Event) (w : World) : World :=
  {| trace := trace w ++ [e]; env := env w; comments := comments w |}.

Definition emit (e : Event) : M unit := fun w => (Ok tt, record e w).

Definition getEnv (name : string) : M (option (list N)) :=
  fun w => (Ok (env w !! name), w).

Definition setEnv (name : string) (v : list N) : M unit :=
  fun w => (Ok tt, {| trace := trace w; env := <[name := v]> (env w); comments := comments w |}).

Definition getComments : M (list IssueComment) :=
  fun w => (Ok (comments w), w).

Definition setComments (cs : list IssueComment) : M unit :=
  fun w => (Ok tt, {| trace := trace w; env := env w; comments := cs |}).

(** An external call: the request is recorded, then the reply of the
    remote side is returned or thrown. *)
Definition call {A} (e : Event) (reply : Result A) : M A :=
  emit e ;; lift reply.

(** Decimal rendering of an integer, as a template literal does it. *)
Definition numToString (z : Z) : list N :=
  Js.str (NilZero.string_of_int (Z.to_int z)).

(* ===================================================================== *)
(** ** steps/changes.ts                                                   *)
(* ===================================================================== *)

Module Changes.
Import Js.

(** The REST calls of Octokit that the gate uses; each field gives the
    reply to a request. *)
Record Octokit := {
  (** [paginate(pulls.listFiles, ...)]: the file names of all pages *)
  pulls_listFiles : Z -> Result (list (list N));
  (** [repos.compareCommitsWithBasehead]: [data.files], each with its
      optional [filename] *)
  repos_compareCommits : list N -> Result (option (list (option (list N))));
}.

Definition parseCsv (input : option (list N)) (fallback : list (list N))
  : list (list N) :=
  if negb (truthyOpt input) then fallback
  else List.filter truthy (List.map trim (split (orElse input []) 44)).

Definition defaultBranches : list (list N) := [str "main"; str "canary"].

Definition isPullRequestEvent (ctx : Context) : bool :=
  bool_decide (eventName ctx = str "pull_request")
  || bool_decide (eventName ctx = str "pull_request_target").

Definition shouldDeployByPolicy (ctx : Context)
    (pushBranchesCsv prBaseBranchesCsv : option (list N)) : bool :=
  let isPR := isPullRequestEvent ctx in
  let pushBranches := parseCsv pushBranchesCsv defaultBranches in
  let prBaseBranches := parseCsv prBaseBranchesCsv defaultBranches in
  if negb isPR then
    let ref :=
      orElse (option_map (fun r => replace r (str "refs/heads/") []) (ref ctx)) [] in
    arrayIncludes pushBranches ref
  else
    let baseRef :=
      orElse (match pull_request (payload ctx) with
              | Some pr => pr_base_ref pr
              | None => None
              end) [] in
    arrayIncludes prBaseBranches baseRef.

(** [escapeRegex]: a backslash before each of [. * + ? ^ $ { } ( ) | [ ] \]. *)
Definition isRegexSpecial (c : N) : bool :=
  existsb (N.eqb c) (str ".*+?^${}()|[]\").

Definition escapeRegex (s : list N) : list N :=
  flat_map (fun c => if isRegexSpecial c then [92%N; c] else [c]) s.

(** The regular expressions that [globToRegex] can build: literal code
    points, [.*], [[^/]*] and the two anchors, read with the [u] flag. *)
Inductive RegexItem :=
| RStart
| REnd
| RChar (c : N)
| RAnyStar
| RNotSlashStar.

(** [new RegExp(source, 'u')]: [None] is a [SyntaxError]. *)
Fixpoint parseRegex (src : list N) : option (list RegexItem) :=
  match src with
  | [] => Some []
  | c :: rest =>
      if N.eqb c 92 then
        match rest with
        | d :: rest' =>
            if isRegexSpecial d then cons (RChar d) <$> parseRegex rest' else None
        | [] => None
        end
      else if startsWith src (str ".*") then
        match rest with
        | _ :: rest' => cons RAnyStar <$> parseRegex rest'
        | [] => None
        end
      else if startsWith src (str "[^/]*") then
        match rest with
        | _ :: _ :: _ :: _ :: rest' => cons RNotSlashStar <$> parseRegex rest'
        | _ => None
        end
      else if N.eqb c 94 then cons RStart <$> parseRegex rest
      else if N.eqb c 36 then cons REnd <$> parseRegex rest
      else if isRegexSpecial c then None
      else cons (RChar c) <$> parseRegex rest
  end.

Definition starClass (it : RegexItem) (c : N) : bool :=
  match it with
  | RAnyStar => negb (isLineTerminator c)
  | _ => negb (N.eqb c 47)
  end.

(** Does the expression match at the head of [s]?  [atStart] tells whether
    the head of [s] is the start of the input. *)
Fixpoint matchHere (re : list RegexItem) (s : list N) (atStart : bool) : bool :=
  match re with
  | [] => true
  | RStart :: re' => atStart && matchHere re' s atStart
  | REnd :: re' =>
      match s with
      | [] => matchHere re' [] atStart
      | _ :: _ => false
      end
  | RChar c :: re' =>
      match s with
      | x :: s' => N.eqb x c && matchHere re' s' false
      | [] => false
      end
  | (RAnyStar as it) :: re' | (RNotSlashStar as it) :: re' =>
      (fix star (s : list N) (atStart : bool) : bool :=
         matchHere re' s atStart
         || match s with
            | x :: s' => starClass it x && star s' false
            | [] => false
            end) s atStart
  end.

(** [re.test(s)]: a match starting anywhere. *)
Fixpoint searchFrom (re : list RegexItem) (s : list N) (atStart : bool) : bool :=
  matchHere re s atStart
  || match s with
     | _ :: s' => searchFrom re s' false
     | [] => false
     end.

Definition test (re : list RegexItem) (s : list N) : bool :=
  searchFrom re (codePoints s) true.

Definition countStars (glob : list N) : Z :=
  len (List.filter (N.eqb 42) glob).

Definition globToRegex (glob : list N) : Result (list RegexItem) :=
  if len glob >? 1000 then Throw (JsError (str "Glob pattern too long"))
  else if countStars glob >? 20
  then Throw (JsError (str "Too many wildcards in glob pattern"))
  else
    let escaped :=
      replaceAll (replaceAll (escapeRegex glob) (str "\*\*") (str ".*"))
                 (str "\*") (str "[^/]*") in
    let re := str "^" ++ escaped ++ str "$" in
    match parseRegex (codePoints re) with
    | Some r => Ok r
    | None => Throw (JsError (str "Invalid regular expression"))
    end.

(** [minimatch]: every failure of [globToRegex] is turned into "no match". *)
Definition minimatch (path glob : list N) : Result bool :=
  rcatch (rbind (globToRegex glob) (fun re => Ok (test re path)))
         (fun _ => Ok false).

Definition matches (path glob : list N) : bool :=
  match minimatch path glob with
  | Ok b => b
  | Throw _ => false
  end.

Definition anyRelevant (paths globs : list (list N)) : bool :=
  existsb (fun p => existsb (fun g => matches p g) globs) paths.

Definition zeroSha : list N := str "0000000000000000000000000000000000000000".

Definition detectRelevantChanges (octokit : Octokit) (ctx : Context)
    (globs : list (list N)) : M bool :=
  tryCatch
    (if isPullRequestEvent ctx then
       let number :=
         match pull_request (payload ctx) with
         | Some pr => default 0 (pr_number pr)
         | None => 0
         end in
       if number =? 0 then ret true
       else
         let* paths := call (ListFiles number) (pulls_listFiles octokit number) in
         ret (anyRelevant paths globs)
     else
       let beforeSha := before (payload ctx) in
       let base :=
         if truthyOpt beforeSha && negb (bool_decide (beforeSha = Some zeroSha))
         then orElse beforeSha []
         else sha ctx ++ str "~1" in
       let head := sha ctx in
       let basehead := base ++ str "..." ++ head in
       let* files := call (CompareCommits basehead)
                          (repos_compareCommits octokit basehead) in
       let paths := List.map (fun f => orElse f []) (default [] files) in
       ret (anyRelevant paths globs))
    (fun e =>
       emit (CoreWarning
               (str "change detection failed, proceeding with deploy: "
                ++ errorText e)) ;;
       ret true).

(** The wildcard tokens of a glob, in the words of the specification: [**]
    is one token, a [*] that stands alone is one token. *)
Fixpoint wildcardTokens (glob : list N) : Z :=
  match glob with
  | [] => 0
  | c :: rest =>
      if N.eqb c 42 then
        match rest with
        | d :: rest' =>
            if N.eqb d 42 then 1 + wildcardTokens rest'
            else 1 + wildcardTokens rest
        | [] => 1
        end
      else wildcardTokens rest
  end.

End Changes.

(* ===================================================================== *)
(** ** utils/errors.ts                                                    *)
(* ===================================================================== *)

Module Errors.
Import Js.

Inductive ErrorType :=
| deployment | authentication | configuration | api_limit | unknown.

Record ActionableError := {
  type : ErrorType;
  message : list N;
  suggestion : list N;
  actionItems : list (list N);
  helpUrl : option (list N);
  retryable : bool;
}.

(** [ErrorHandler.handleVercel] *)
Definition handleVercel (error : Thrown) : ActionableError :=
  let message := errorText error in
  if includes (toLowerCase message) (str "project not found") then
    {| type := configuration;
       message := message;
       suggestion :=
         str "Check VERCEL_PROJECT_ID and VERCEL_ORG_ID secrets match your Vercel project.";
       actionItems :=
         [str "Verify VERCEL_PROJECT_ID exists in Vercel dashboard.";
          str "Confirm VERCEL_ORG_ID is the correct team/org.";
          str "Ensure VERCEL_TOKEN has access to the project."];
       helpUrl :=
         Some (str "https://vercel.com/docs/concepts/projects/overview#project-id");
       retryable := false |}
  else if includes (toLowerCase message) (str "rate limit") then
    {| type := api_limit;
       message := message;
       suggestion := str "Wait before retrying or reduce deployment frequency.";
       actionItems :=
         [str "Wait 10-15 minutes and retry.";
          str "Enable only_if_changed gating to avoid unnecessary deploys."];
       helpUrl := None;
       retryable := true |}
  else if includes (toLowerCase message) (str "build failed") then
    {| type := deployment;
       message := message;
       suggestion :=
         str "Inspect Vercel build logs and validate your build locally.";
       actionItems :=
         [str "Check Vercel build logs for errors.";
          str "Run local build: `pnpm -C .docs run build` or project-specific build.";
          str "Ensure required env vars are present in Vercel."];
       helpUrl := None;
       retryable := true |}
  else
    {| type := unknown;
       message := message;
       suggestion :=
         str "Review error details and verify deployment configuration.";
       actionItems :=
         [str "Check repository secrets"; str "Re-run with debug_mode: true"];
       helpUrl := None;
       retryable := true |}.

(** [RetryOptions]; [sleep] replaces the timer when given. *)
Record RetryOptions := {
  maxRetries : option Z;
  backoffBaseMs : option Z;
  maxDelayMs : option Z;
  sleep : option (Z -> M unit);
}.

Definition noOptions : RetryOptions :=
  {| maxRetries := None; backoffBaseMs := None; maxDelayMs := None; sleep := None |}.

(** [(ms) => new Promise((r) => setTimeout(r, ms))] *)
Definition timerSleep (ms : Z) : M unit := emit (Slept ms).

(** [for (const item of last.actionItems) core.error(`- ${item}`)] *)
Fixpoint errorItems (items : list (list N)) : M unit :=
  match items with
  | [] => ret tt
  | item :: items' => emit (CoreError (str "- " ++ item)) ;; errorItems items'
  end.

Section ExecuteWithRetry.
Context {ResultType : Type}.
Variable operation : M ResultType.
Variable mapError : Thrown -> ActionableError.

(** The body of the [for] loop; [remaining] is the number of values of
    [attempt] that are still to be tried, [attempt] itself included. *)
Fixpoint retryLoop (maxRetries base maxDelay : Z) (sleeper : Z -> M unit)
    (remaining : nat) (attempt : Z) (last : option ActionableError)
  : M ResultType :=
  match remaining with
  | O =>
      throw (JsError (match last with
                      | Some l => message l
                      | None => str "Unknown error"
                      end))
  | S remaining' =>
      tryCatch operation
        (fun e =>
           let last := mapError e in
           let isLast := attempt =? maxRetries in
           if negb (retryable last) || isLast then
             emit (CoreError (str "Failure after " ++ numToString attempt
                              ++ str "/" ++ numToString maxRetries
                              ++ str " attempts: " ++ message last)) ;;
             emit (CoreError (str "Suggestion: " ++ suggestion last)) ;;
             errorItems (actionItems last) ;;
             throw e
           else
             let delayMs := Z.min maxDelay (2 ^ attempt * base) in
             emit (CoreInfo (str "Retrying in " ++ numToString delayMs
                             ++ str "ms (attempt " ++ numToString attempt
                             ++ str "/" ++ numToString maxRetries ++ str ")")) ;;
             sleeper delayMs ;;
             retryLoop maxRetries base maxDelay sleeper remaining'
                       (attempt + 1) (Some last))
  end.

(** [options] is a number, a [RetryOptions] or omitted (then [3]). *)
Definition executeWithRetry (options : option (Z + RetryOptions))
  : M ResultType :=
  let opts :=
    match options with
    | None => {| maxRetries := Some 3; backoffBaseMs := None;
                 maxDelayMs := None; sleep := None |}
    | Some (inl n) => {| maxRetries := Some n; backoffBaseMs := None;
                         maxDelayMs := None; sleep := None |}
    | Some (inr o) => o
    end in
  let maxRetries := default 3 (maxRetries opts) in
  let base := default 1000 (backoffBaseMs opts) in
  let maxDelay := default 30000 (maxDelayMs opts) in
  let sleeper := default timerSleep (sleep opts) in
  retryLoop maxRetries base maxDelay sleeper (Z.to_nat maxRetries) 1 None.
End ExecuteWithRetry.

(** An operation in the manner of a mock: each call is recorded, and the
    outcome of the call is the one the script gives for its ordinal. *)
Definition isOperationCalled (e : Event) : bool :=
  match e with OperationCalled => true | _ => false end.

Definition attempts (w : World) : nat :=
  length (List.filter isOperationCalled (trace w)).

Definition scripted {ResultType} (script : nat -> Result ResultType)
  : M ResultType :=
  fun w => (emit OperationCalled ;; lift (script (attempts w))) w.

End Errors.

(* ===================================================================== *)
(** ** github/pr-comment.ts                                               *)
(* ===================================================================== *)

Module PrComment.
Import Js.

(** The comment endpoints of GitHub: who the token belongs to, and the
    identifiers the remote side gives to a comment it creates (the GraphQL
    node id and the numeric REST id). *)
Record GitHub := {
  viewer_login : option (list N);
  mint : list IssueComment -> list N * Z;
}.

Definition defaultKey : list N := str "c15t-docs-preview".

Definition headerKey (header : list N) : list N :=
  let t := trim (if truthy header then header else defaultKey) in
  if truthy t then t else defaultKey.

Definition autoStart (header : list N) : list N :=
  str "<!-- c15t:" ++ headerKey header ++ str ":START -->".

Definition autoEnd (header : list N) : list N :=
  str "<!-- c15t:" ++ headerKey header ++ str ":END -->".

Definition newline : list N := [10%N].

(** [[autoStart(header), body, autoEnd(header)].join('\n')] *)
Definition bodyWithHeader (body header : list N) : list N :=
  autoStart header ++ newline ++ body ++ newline ++ autoEnd header.

Definition bodyWithoutHeader (body header : list N) : list N :=
  let start := autoStart header in
  let end_ := autoEnd header in
  let i := indexOf body start in
  let j := indexOf body end_ in
  if negb (i =? -1) && negb (j =? -1)
  then trim (substring body (i + len start) j)
  else [].

(** [RE_BOT_SUFFIX = /\[bot\]$/i] *)
Definition stripBotSuffix (login : list N) : list N :=
  let n := length login in
  if bool_decide (toLowerCase (drop (n - 5) login) = str "[bot]")
     && bool_decide (length (drop (n - 5) login) = 5%nat)
  then take (n - 5) login
  else login.

Definition normalizeLogin (login : option (list N)) : list N :=
  toLowerCase (trim (stripBotSuffix (default [] login))).

(** The pages that [comments(first: 100 after: $after)] returns in turn:
    at most one hundred comments each, at least one page. *)
Fixpoint pagesFrom (cs : list IssueComment) (page : list IssueComment)
    (room : nat) : list (list IssueComment) :=
  match cs with
  | [] => [rev page]
  | c :: cs' =>
      match room with
      | O => rev page :: pagesFrom cs' [c] 99
      | S room' => pagesFrom cs' (c :: page) room'
      end
  end.

Definition pages (cs : list IssueComment) : list (list IssueComment) :=
  pagesFrom cs [] 100.

Definition isTarget (expectedLogin start : list N) (node : IssueComment) : bool :=
  bool_decide (normalizeLogin (author_login node) = expectedLogin)
  && negb (isMinimized node)
  && includes (body node) start.

(** The [while (hasNextPage)] loop, one iteration for each page. *)
Fixpoint scanPages (gh : GitHub) (number : Z) (header : list N)
    (authorLogin : option (list N)) (ps : list (list IssueComment))
    (after : option nat) : M (option IssueComment) :=
  match ps with
  | [] => ret None
  | nodes :: ps' =>
      emit (QueryComments number after) ;;
      let expectedLogin :=
        normalizeLogin (match authorLogin with
                        | Some a => Some a
                        | None => viewer_login gh
                        end) in
      match List.find (isTarget expectedLogin (autoStart header)) nodes with
      | Some target => ret (Some target)
      | None =>
          scanPages gh number header authorLogin ps'
                    (Some (default 0%nat after + length nodes)%nat)
      end
  end.

Definition findPreviousComment (gh : GitHub) (number : Z) (header : list N)
    (authorLogin : option (list N)) : M (option IssueComment) :=
  let* cs := getComments in
  scanPages gh number header authorLogin (pages cs) None.

(** The remote side of [updateIssueComment]. *)
Definition storeUpdate (cid new_body : list N) (cs : list IssueComment)
  : list IssueComment :=
  List.map (fun c =>
              if bool_decide (id c = cid)
              then {| id := id c; author_login := author_login c;
                      isMinimized := isMinimized c; body := new_body |}
              else c) cs.

Definition updateComment (gh : GitHub) (cid body header : list N)
    (previousBody : option (list N)) : M unit :=
  if negb (truthy body) && negb (truthyOpt previousBody) then
    emit (CoreWarning (str "Comment body cannot be blank"))
  else
    let rawPreviousBody :=
      if truthyOpt previousBody
      then bodyWithoutHeader (orElse previousBody []) header
      else [] in
    let new_body :=
      if truthyOpt previousBody
      then bodyWithHeader (rawPreviousBody ++ newline ++ body) header
      else bodyWithHeader body header in
    emit (UpdateIssueComment cid new_body) ;;
    let* cs := getComments in
    setComments (storeUpdate cid new_body cs).

(** Returns the REST id of the new comment ([created?.data.id]). *)
Definition createComment (gh : GitHub) (issue_number : Z) (body header : list N)
    (previousBody : option (list N)) : M (option Z) :=
  if negb (truthy body) && negb (truthyOpt previousBody) then
    emit (CoreWarning (str "Comment body cannot be blank")) ;;
    ret None
  else
    let rawPreviousBody :=
      if truthyOpt previousBody
      then bodyWithoutHeader (orElse previousBody []) header
      else [] in
    let composed :=
      if truthyOpt previousBody
      then bodyWithHeader (rawPreviousBody ++ newline ++ body) header
      else bodyWithHeader body header in
    emit (CreateIssueComment issue_number composed) ;;
    let* cs := getComments in
    let '(node_id, rest_id) := mint gh cs in
    setComments (cs ++ [{| id := node_id; author_login := viewer_login gh;
                           isMinimized := false; body := composed |}]) ;;
    ret (Some rest_id).

(** [RE_DETAILS_OPEN = /(<details.*?)\s*\bopen\b(.*>)/g].

    [lastGt run acc] is the part of [run] up to its last [>], if any:
    what the greedy [(.*>)] captures in a run without line terminators. *)
Fixpoint lastGt (run acc : list N) : option (list N) :=
  match run with
  | [] => None
  | c :: run' =>
      match lastGt run' (acc ++ [c]) with
      | Some g => Some g
      | None => if N.eqb c 62 then Some (acc ++ [c]) else None
      end
  end.

Fixpoint takeWhile (f : N -> bool) (s : list N) : list N :=
  match s with
  | [] => []
  | c :: s' => if f c then c :: takeWhile f s' else []
  end.

(** After [<details] and the lazily matched [taken] (whose last code unit,
    or the [s] of [details], is [prev]): try [\s*\bopen\b(.*>)] here, else
    let [.*?] take one more code unit.  The result is the replacement
    [$1$2] and the length of the match after [<details]. *)
Fixpoint detailsTail (rest taken : list N) (prev : N) : option (list N * nat) :=
  let ws := takeWhile isSpace rest in
  let r1 := dropWhile isSpace rest in
  let before := match ws with [] => prev | _ => 32%N end in
  let r2 := drop 4 r1 in
  let here :=
    if negb (isWordChar before) && startsWith r1 (str "open")
       && negb (match r2 with c :: _ => isWordChar c | [] => false end)
    then match lastGt (takeWhile (fun c => negb (isLineTerminator c)) r2) [] with
         | Some g2 =>
             Some (taken ++ g2, (length taken + length ws + 4 + length g2)%nat)
         | None => None
         end
    else None in
  match here with
  | Some r => Some r
  | None =>
      match rest with
      | c :: rest' =>
          if isLineTerminator c then None
          else detailsTail rest' (taken ++ [c]) c
      | [] => None
      end
  end.

Definition detailsTag : list N := str "<details".

(** [s.replace(RE_DETAILS_OPEN, '$1$2')] *)
Fixpoint closeDetailsFrom (s : list N) (skip : nat) : list N :=
  match s with
  | [] => []
  | c :: s' =>
      match skip with
      | S k => closeDetailsFrom s' k
      | O =>
          if startsWith s detailsTag then
            match detailsTail (drop 8 s) [] 115 with
            | Some (kept, n) => detailsTag ++ kept ++ closeDetailsFrom s' (7 + n)
            | None => c :: closeDetailsFrom s' 0
            end
          else c :: closeDetailsFrom s' 0
      end
  end.

Definition closeDetails (s : list N) : list N := closeDetailsFrom s 0.

Definition getBodyOf (previous_body : option (list N)) (append hideDetails : bool)
  : option (list N) :=
  if negb append then None
  else if negb hideDetails || negb (truthyOpt previous_body) then previous_body
  else option_map closeDetails previous_body.

Definition commentsEqual (body : list N) (previous : option (list N))
    (header : list N) : bool :=
  let start := autoStart header in
  let end_ := autoEnd header in
  let normalize (s : list N) : list N :=
    let i := indexOf s start in
    let j := indexOf s end_ in
    if negb (i =? -1) && negb (j =? -1)
    then trim (substring s (i + len start) j)
    else s in
  bool_decide (normalize body = normalize (orElse previous [])).

End PrComment.

(* ===================================================================== *)
(** ** config/inputs.ts                                                   *)
(* ===================================================================== *)

(** The inputs of the action, read once when the module is loaded. *)
Record Inputs := {
  pullRequestNumber : option Z;
  header : list N;
  append : bool;
  hideDetails : bool;
  skipUnchanged : bool;
  ignoreEmpty : bool;
  authorLogin : list N;
  vercelToken : list N;
  vercelProjectId : list N;
  vercelOrgId : list N;
  vercelWorkingDirectory : list N;
  vercelFramework : list N;
  vercelTarget : list N;
  canaryAlias : list N;
  aliasOnBranch : list N;
  aliasDomains : list (list N);
  vercelArgs : list N;
  vercelScope : list N;
  setupDocs : bool;
  consentGitToken : list N;
  onlyIfChanged : bool;
  changeGlobs : list (list N);
  checkTemplateChanges : bool;
  deployOnPushBranches : list N;
  deployOnPrBaseBranches : list N;
}.

(* ===================================================================== *)
(** ** steps/comments.ts                                                  *)
(* ===================================================================== *)

Module Comments.
Import Js PrComment.

Record EnsureOptions := {
  appendOverride : option bool;
  hideDetailsOverride : option bool;
}.

Definition requireEffectiveBodyOrThrow (effectiveBody : list N) : M unit :=
  if negb (truthy effectiveBody) then
    throw (JsError
             (str "Either message/path input is required or Vercel inputs must be set"))
  else ret tt.

Definition createInitialCommentWhenMissing (inputs : Inputs) (gh : GitHub)
    (previous : option IssueComment) (effectiveBody : list N) (prNumber : Z)
  : M bool :=
  match previous with
  | Some _ => ret false
  | None =>
      let* created :=
        createComment gh prNumber effectiveBody (header inputs) None in
      emit (CoreSetOutput (str "created_comment_id")
                          (option_map numToString created)) ;;
      ret true
  end.

Definition handleSkipUnchanged (inputs : Inputs) (effectiveBody : list N)
    (previousBodyRaw : option (list N)) : bool :=
  skipUnchanged inputs
  && commentsEqual effectiveBody (Some (orElse previousBodyRaw []))
                   (header inputs).

Definition updateExistingComment (inputs : Inputs) (gh : GitHub)
    (previousId effectiveBody : list N) (previousBody : option (list N))
  : M unit :=
  updateComment gh previousId effectiveBody (header inputs) previousBody.

Definition AUTO_COMMENT_START : list N :=
  str "<!-- This is an auto-generated comment: c15t docs preview -->".
Definition AUTO_COMMENT_END : list N :=
  str "<!-- end of auto-generated comment: c15t docs preview -->".

Definition ensureComment (inputs : Inputs) (gh : GitHub)
    (effectiveBody : list N) (options : option EnsureOptions) : M unit :=
  if negb (truthy effectiveBody) && ignoreEmpty inputs then
    emit (CoreInfo (str "no body given: skip step by ignoreEmpty"))
  else
    requireEffectiveBodyOrThrow effectiveBody ;;
    let prNumber := default 0 (pullRequestNumber inputs) in
    let* previous :=
      findPreviousComment gh prNumber (header inputs)
        (if truthy (authorLogin inputs) then Some (authorLogin inputs) else None) in
    emit (CoreSetOutput (str "previous_comment_id") (option_map id previous)) ;;
    let* created :=
      createInitialCommentWhenMissing inputs gh previous effectiveBody prNumber in
    if created then ret tt
    else
      let previous_body := option_map body previous in
      if handleSkipUnchanged inputs effectiveBody
           (Some (orElse previous_body []))
      then ret tt
      else
        let shouldAppend :=
          match options with
          | Some {| appendOverride := Some b |} => b
          | _ => append inputs
          end in
        let shouldHideDetails :=
          match options with
          | Some {| hideDetailsOverride := Some b |} => b
          | _ => hideDetails inputs
          end in
        let previousHasAutoBlock :=
          match previous_body with
          | Some b => includes b AUTO_COMMENT_START && includes b AUTO_COMMENT_END
          | None => false
          end in
        let shouldAppend :=
          if shouldAppend && negb previousHasAutoBlock then false
          else shouldAppend in
        let previousBody :=
          getBodyOf (Some (orElse previous_body [])) shouldAppend
                    shouldHideDetails in
        match previous with
        | Some p =>
            if negb (truthy (id p)) then ret tt
            else updateExistingComment inputs gh (id p) effectiveBody previousBody
        | None => ret tt
        end.

End Comments.

(* ===================================================================== *)
(** ** deploy/vercel-client.ts                                            *)
(* ===================================================================== *)

Module VercelClient.
Import Js.

Inductive HttpsReply :=
| NetworkError (e : Thrown)
| Response (statusCode : option Z) (txt : list N).

(** The fields of the parsed reply that are read: [json.url], [json.id]. *)
Record DeployJson := {
  json_url : option (list N);
  json_id : option (list N);
}.

(** Node.js and the network, as far as the client uses them.  The reply to
    an HTTPS request may depend on the request and on how many requests
    were sent before it. *)
Record Platform := {
  (** [path.resolve], [walkFiles] and [readFileSync]: the files of the
      working directory with their base64 contents *)
  collectFiles : list N -> Result (list (list N * list N));
  encodeURIComponent : list N -> Result (list N);
  https_reply : nat -> HttpsRequest -> HttpsReply;
  JSON_parse : list N -> Result DeployJson;
  appendFileSync : list N -> list N -> Result unit;
  (** [setupDocsWithScript] of [steps/setup-docs.ts] *)
  setupDocsWithScript : list N -> Result unit;
}.

Record VercelDeployOptions := {
  token : list N;
  projectId : list N;
  orgId : list N;
  workingDirectory : list N;
  framework : option (list N);
  target : option (list N);
  aliasDomain : option (list N);
  aliasBranch : option (list N);
  aliasDomains : option (list (list N));
  vercelArgs : option (list N);
  vercelScope : option (list N);
}.

Record VercelDeployResult := {
  url : list N;
  id : option (list N);
}.

Definition getBranch (env : gmap string (list N)) : list N :=
  let refEnv := orElse (env !! "GITHUB_REF"%string) [] in
  let headRef := orElse (env !! "GITHUB_HEAD_REF"%string) [] in
  if truthy headRef then headRef
  else if startsWith refEnv (str "refs/heads/")
  then replace refEnv (str "refs/heads/") []
  else if startsWith refEnv (str "refs/tags/")
  then replace refEnv (str "refs/tags/") []
  else str "unknown".

Definition resolveTarget (env : gmap string (list N)) : list N :=
  if bool_decide (env !! "GITHUB_REF"%string = Some (str "refs/heads/main"))
  then str "production"
  else str "staging".

(** [s.replace(/[class]+/g, rep)]: every maximal run of code units of the
    class becomes [rep]. *)
Fixpoint replaceRuns (f : N -> bool) (rep : list N) (s : list N) (inRun : bool)
  : list N :=
  match s with
  | [] => []
  | c :: s' =>
      if f c then
        if inRun then replaceRuns f rep s' true
        else rep ++ replaceRuns f rep s' true
      else c :: replaceRuns f rep s' false
  end.

Definition isDash (c : N) : bool := N.eqb c 45.

Definition slugify (input : list N) : list N :=
  let s1 := toLowerCase (trim input) in
  (* RE_UNDERSCORE_OR_SPACE = /[_\s]+/g *)
  let s2 := replaceRuns (fun c => N.eqb c 95 || isSpace c) (str "-") s1 false in
  (* RE_NON_WORD_EXCEPT_DASH = /[^\w-]+/g *)
  let s3 := replaceRuns (fun c => negb (isWordChar c || isDash c)) [] s2 false in
  (* RE_MULTI_DASH = /--+/g: a run of dashes of any length becomes one dash *)
  let s4 := replaceRuns isDash (str "-") s3 false in
  (* RE_LEADING_DASH = /^-+/, RE_TRAILING_DASH = /-+$/ *)
  rev (dropWhile isDash (rev (dropWhile isDash s4))).

(** [TOKEN_SPLIT_RE]: a token is a run between two single quotes, else a
    run between two double quotes (the quotes belong to the token), else a
    run of code units that are not white space.  [untilQuote q s] is what
    precedes the first [q] in [s]. *)
Fixpoint untilQuote (q : N) (s : list N) : option (list N) :=
  match s with
  | [] => None
  | c :: s' =>
      if N.eqb c q then Some []
      else cons c <$> untilQuote q s'
  end.

Definition tokenAt (s : list N) : option (list N) :=
  match s with
  | [] => None
  | c :: s' =>
      let word :=
        if isSpace c then None
        else Some (PrComment.takeWhile (fun x => negb (isSpace x)) s) in
      if N.eqb c 39 || N.eqb c 34 then
        match untilQuote c s' with
        | Some inner => Some (c :: inner ++ [c])
        | None => word
        end
      else word
  end.

(** [raw.match(TOKEN_SPLIT_RE) ?? []] *)
Fixpoint tokensFrom (s : list N) (skip : nat) : list (list N) :=
  match s with
  | [] => []
  | _ :: s' =>
      match skip with
      | S k => tokensFrom s' k
      | O =>
          match tokenAt s with
          | Some t => t :: tokensFrom s' (length t - 1)
          | None => tokensFrom s' 0
          end
      end
  end.

(** The [replace] that drops one double quote at the start of [v] and one
    at the end of what is left. *)
Definition stripQuotes (v : list N) : list N :=
  let v1 := match v with
            | c :: v' => if N.eqb c 34 then v' else v
            | [] => v
            end in
  match rev v1 with
  | c :: r => if N.eqb c 34 then rev r else v1
  | [] => v1
  end.

(** [meta[k] = v] on a plain object: assigning a string to [__proto__]
    creates no property. *)
Definition objSet (k v : list N) (meta : gmap (list N) (list N))
  : gmap (list N) (list N) :=
  if bool_decide (k = str "__proto__") then meta else <[k := v]> meta.

(** The [for] loop over the tokens; [skipNext] is the extra [i++]. *)
Fixpoint metaLoop (tokens : list (list N)) (skipNext : bool)
    (meta : gmap (list N) (list N)) : gmap (list N) (list N) :=
  match tokens with
  | [] => meta
  | token :: rest =>
      if skipNext then metaLoop rest false meta
      else if bool_decide (token = str "-m") || bool_decide (token = str "--meta")
      then
        let kv := match rest with t :: _ => t | [] => [] end in
        let eq := indexOf kv (str "=") in
        let meta' :=
          if eq >? 0 then
            let k := slice kv 0 (Some eq) in
            let v := stripQuotes (slice kv (eq + 1) None) in
            objSet k v meta
          else meta in
        metaLoop rest true meta'
      else metaLoop rest false meta
  end.

Definition parseMetaArgs (raw : option (list N)) : gmap (list N) (list N) :=
  if negb (truthyOpt raw) then ∅
  else metaLoop (tokensFrom (orElse raw []) 0) false ∅.

(** The replacement patterns of [String.prototype.replace] for a regular
    expression without capture groups: [$$], [$&], [$`] and [$']. *)
Fixpoint expandReplacement (rep matched before after : list N) : list N :=
  match rep with
  | [] => []
  | c :: rep' =>
      match rep' with
      | d :: rep'' =>
          if N.eqb c 36 then
            if N.eqb d 36 then 36%N :: expandReplacement rep'' matched before after
            else if N.eqb d 38 then matched ++ expandReplacement rep'' matched before after
            else if N.eqb d 96 then before ++ expandReplacement rep'' matched before after
            else if N.eqb d 39 then after ++ expandReplacement rep'' matched before after
            else c :: expandReplacement rep' matched before after
          else c :: expandReplacement rep' matched before after
      | [] => [c]
      end
  end.

(** The length of a match of [/\{\{\s*NAME\s*\}\}/] at the head of [s]. *)
Definition templateAt (name s : list N) : option nat :=
  if startsWith s (str "{{") then
    let r1 := drop 2 s in
    let ws1 := PrComment.takeWhile isSpace r1 in
    let r2 := dropWhile isSpace r1 in
    if startsWith r2 name then
      let r3 := drop (length name) r2 in
      let ws2 := PrComment.takeWhile isSpace r3 in
      let r4 := dropWhile isSpace r3 in
      if startsWith r4 (str "}}")
      then Some (2 + length ws1 + length name + length ws2 + 2)%nat
      else None
    else None
  else None.

(** [d.replace(/\{\{\s*NAME\s*\}\}/g, rep)]; [before] is what precedes the
    head of [s] in the whole string. *)
Fixpoint replaceTemplateFrom (name rep : list N) (s before : list N) (skip : nat)
  : list N :=
  match s with
  | [] => []
  | c :: s' =>
      match skip with
      | S k => replaceTemplateFrom name rep s' (before ++ [c]) k
      | O =>
          match templateAt name s with
          | Some n =>
              expandReplacement rep (take n s) before (drop n s)
              ++ replaceTemplateFrom name rep s' (before ++ [c]) (n - 1)
          | None => c :: replaceTemplateFrom name rep s' (before ++ [c]) 0
          end
      end
  end.

Definition replaceTemplate (name rep d : list N) : list N :=
  replaceTemplateFrom name rep d [] 0.

Definition templateAliasDomains (env : gmap string (list N))
    (domains : option (list (list N))) : list (list N) :=
  match domains with
  | None | Some [] => []
  | Some domains =>
      let prNumber := orElse (env !! "GITHUB_PR_NUMBER"%string) [] in
      let isPr := truthy prNumber in
      let ref :=
        if truthyOpt (env !! "GITHUB_HEAD_REF"%string)
        then orElse (env !! "GITHUB_HEAD_REF"%string) []
        else orElse (env !! "GITHUB_REF"%string) [] in
      let branch := slugify (replace ref (str "refs/heads/") []) in
      List.filter (fun d => negb (includes d (str "{{")))
        (List.map (fun d => if isPr then replaceTemplate (str "PR_NUMBER") prNumber d else d)
           (List.map (fun d => replaceTemplate (str "BRANCH") branch d) domains))
  end.

Definition isHttps (e : Event) : bool :=
  match e with Https _ => true | _ => false end.

Definition requestsSent (w : World) : nat :=
  length (List.filter isHttps (trace w)).

(** [https.request]: the request is sent and the reply awaited. *)
Definition httpsRequest (pf : Platform) (request : HttpsRequest) : M HttpsReply :=
  fun w => (emit (Https request) ;; ret (https_reply pf (requestsSent w) request)) w.

Definition is2xx (statusCode : option Z) : bool :=
  match statusCode with
  | Some c => negb (c =? 0) && (200 <=? c) && (c <? 300)
  | None => false
  end.

Definition statusText (statusCode : option Z) : list N :=
  match statusCode with
  | Some c => numToString c
  | None => str "undefined"
  end.

(** The metadata of the deployment request. *)
Definition deployMeta (options : VercelDeployOptions)
    (env : gmap string (list N)) : gmap (list N) (list N) :=
  let branch := getBranch env in
  let repo := orElse (env !! "GITHUB_REPOSITORY"%string) [] in
  let owner := orElse (env !! "GITHUB_REPOSITORY_OWNER"%string) [] in
  let sha := orElse (env !! "GITHUB_SHA"%string) [] in
  let commitMessage := orElse (env !! "GITHUB_COMMIT_MESSAGE"%string) [] in
  let commitAuthorName := orElse (env !! "GITHUB_COMMIT_AUTHOR_NAME"%string) [] in
  let commitAuthorLogin :=
    if truthyOpt (env !! "GITHUB_COMMIT_AUTHOR_LOGIN"%string)
    then orElse (env !! "GITHUB_COMMIT_AUTHOR_LOGIN"%string) []
    else orElse (env !! "GITHUB_ACTOR"%string) [] in
  let prNumber := orElse (env !! "GITHUB_PR_NUMBER"%string) [] in
  let prHeadRef :=
    if truthyOpt (env !! "GITHUB_PR_HEAD_REF"%string)
    then orElse (env !! "GITHUB_PR_HEAD_REF"%string) []
    else orElse (env !! "GITHUB_HEAD_REF"%string) [] in
  let prBaseRef :=
    if truthyOpt (env !! "GITHUB_PR_BASE_REF"%string)
    then orElse (env !! "GITHUB_PR_BASE_REF"%string) []
    else orElse (env !! "GITHUB_BASE_REF"%string) [] in
  let includePrMeta := len (trim prNumber) >? 0 in
  let additionalMeta := parseMetaArgs (vercelArgs options) in
  let explicit : gmap (list N) (list N) :=
    <[str "source" := str "github"]>
    (<[str "githubCommitAuthorLogin" := commitAuthorLogin]>
    (<[str "githubCommitAuthorName" := commitAuthorName]>
    (<[str "githubCommitMessage" := commitMessage]>
    (<[str "githubOrg" := owner]>
    (<[str "githubRepo" := default [] (split repo 47 !! 1%nat)]>
    (<[str "githubCommitSha" := sha]>
    (<[str "githubCommitRef" := branch]> ∅))))))) in
  let scope : gmap (list N) (list N) :=
    if truthyOpt (vercelScope options)
    then {[str "githubScope" := orElse (vercelScope options) []]}
    else ∅ in
  let prMeta : gmap (list N) (list N) :=
    if includePrMeta then
      (if truthy prBaseRef then {[str "githubPrBaseRef" := prBaseRef]} else ∅)
      ∪ ((if truthy prHeadRef then {[str "githubPrHeadRef" := prHeadRef]} else ∅)
         ∪ {[str "githubPrNumber" := prNumber]})
    else ∅ in
  (* later spreads win: the union of maps prefers its left operand *)
  additionalMeta ∪ (prMeta ∪ (scope ∪ explicit)).

(** One pass of the alias loop body inside [try]: the request to assign
    [domain] to the deployment; it throws when the path cannot be built,
    the network fails or the status is not 2xx. *)
Definition assignAlias (pf : Platform) (options : VercelDeployOptions)
    (deploymentId domain : list N) : M unit :=
  let* idPart := lift (encodeURIComponent pf deploymentId) in
  let* teamPart := lift (encodeURIComponent pf (orgId options)) in
  let* reply :=
    httpsRequest pf
      {| req_path := str "/v2/deployments/" ++ idPart
                     ++ str "/aliases?teamId=" ++ teamPart;
         req_authorization := str "Bearer " ++ token options;
         req_body := AliasBody domain |} in
  match reply with
  | NetworkError e => throw e
  | Response statusCode txt =>
      if is2xx statusCode then ret tt
      else throw (JsError (str "Failed to alias domain " ++ domain ++ str ": "
                           ++ statusText statusCode ++ [10%N] ++ txt))
  end.

(** [for (const domain of allAliases)] with its two variables [url] and
    [canonicalSet]. *)
Fixpoint aliasLoop (pf : Platform) (options : VercelDeployOptions)
    (deploymentId : list N) (domains : list (list N))
    (url : list N) (canonicalSet : bool) : M (list N) :=
  match domains with
  | [] => ret url
  | domain :: domains' =>
      let* assigned :=
        tryCatch (assignAlias pf options deploymentId domain ;; ret true)
                 (fun _ => ret false) in
      if assigned && negb canonicalSet && includes domain (str ".")
      then aliasLoop pf options deploymentId domains'
                     (str "https://" ++ domain) true
      else aliasLoop pf options deploymentId domains' url canonicalSet
  end.

Definition allAliases (options : VercelDeployOptions)
    (env : gmap string (list N)) : list (list N) :=
  (if truthyOpt (aliasDomain options) then [orElse (aliasDomain options) []] else [])
  ++ templateAliasDomains env (aliasDomains options).

Definition deployRequest (pf : Platform) (options : VercelDeployOptions)
    (env : gmap string (list N)) (files : list (list N * list N))
    (teamPart : list N) : HttpsRequest :=
  let target :=
    match target options with
    | Some t => if truthy (trim t) then t else resolveTarget env
    | None => resolveTarget env
    end in
  {| req_path := str "/v13/deployments?teamId=" ++ teamPart;
     req_authorization := str "Bearer " ++ token options;
     req_body :=
       DeployBody (str "c15t") (projectId options) target files
                  (deployMeta options env)
                  (orElse (framework options) (str "nextjs")) |}.

Definition deployToVercel (pf : Platform) (options : VercelDeployOptions)
  : M VercelDeployResult :=
  let* env := (fun w => (Ok (env w), w)) in
  let* files :=
    lift (collectFiles pf (orElse (Some (workingDirectory options)) (str "."))) in
  let* teamPart := lift (encodeURIComponent pf (orgId options)) in
  let* reply := httpsRequest pf (deployRequest pf options env files teamPart) in
  let* resText :=
    match reply with
    | NetworkError e => throw e
    | Response statusCode txt =>
        if is2xx statusCode then ret txt
        else throw (JsError (str "Vercel API error: " ++ statusText statusCode
                             ++ [10%N] ++ txt))
    end in
  let* json := lift (JSON_parse pf resText) in
  let url :=
    if truthyOpt (json_url json)
    then str "https://" ++ orElse (json_url json) []
    else [] in
  if negb (truthy url) then
    throw (JsError (str "Vercel did not return a deployment URL."))
  else
    let aliases := allAliases options env in
    let* url :=
      if negb (length aliases =? 0)%nat
         && truthyOpt (aliasBranch options)
         && bool_decide (Some (getBranch env) = aliasBranch options)
         && truthyOpt (json_id json)
      then aliasLoop pf options (orElse (json_id json) []) aliases url false
      else ret url in
    (match env !! "GITHUB_OUTPUT"%string with
     | Some out =>
         if truthy out then
           call (AppendFile out (str "url=" ++ url ++ [10%N]))
                (appendFileSync pf out (str "url=" ++ url ++ [10%N])) ;;
           call (AppendFile out (str "deployment_url=" ++ url ++ [10%N]))
                (appendFileSync pf out (str "deployment_url=" ++ url ++ [10%N]))
         else ret tt
     | None => ret tt
     end) ;;
    ret {| url := url; id := json_id json |}.

End VercelClient.

(* ===================================================================== *)
(** ** steps/deployment.ts                                                *)
(* ===================================================================== *)

Module Deployment.
Import Js.

Record CommitData := {
  commit_message : option (list N);
  commit_author_name : option (list N);
}.

(** The REST calls of Octokit that the deployment step uses. *)
Record Octokit := {
  gate : Changes.Octokit;
  (** [repos.createDeployment]: [data?.id] when it is a number *)
  repos_createDeployment : list N -> Result (option Z);
  repos_createDeploymentStatus : Z -> DeploymentState -> Result unit;
  repos_getCommit : list N -> Result CommitData;
}.

Definition stateName (s : DeploymentState) : list N :=
  match s with
  | in_progress => str "in_progress"
  | success => str "success"
  | failure => str "failure"
  end.

Definition createGitHubDeployment (octokit : Octokit)
    (environmentName : list N) (template_sha : option (list N)) : M (option Z) :=
  tryCatch
    (call (CreateDeployment environmentName
             (negb (bool_decide (environmentName = str "production")))
             (bool_decide (environmentName = str "production"))
             template_sha)
          (repos_createDeployment octokit environmentName))
    (fun e =>
       emit (CoreWarning (str "Could not create GitHub Deployment: " ++ errorText e)) ;;
       ret None).

Definition setGitHubDeploymentStatus (octokit : Octokit) (deploymentId : Z)
    (state : DeploymentState) (description : list N)
    (environmentUrl : option (list N)) : M unit :=
  tryCatch
    (call (CreateDeploymentStatus deploymentId state description
             (if truthyOpt environmentUrl then environmentUrl else None))
          (repos_createDeploymentStatus octokit deploymentId state))
    (fun e =>
       emit (CoreWarning (str "Could not set deployment " ++ stateName state
                          ++ str ": " ++ errorText e))).

Definition resolveBranch (ctx : Context) : list N :=
  let ref := orElse (ref ctx) [] in
  let headRef := orElse (head_ref ctx) [] in
  if truthy headRef then headRef
  else if startsWith ref (str "refs/heads/")
  then replace ref (str "refs/heads/") []
  else ref.

Definition computeEnvironmentName (target : option (list N)) (branch : list N)
  : list N :=
  if bool_decide (target = Some (str "production")) then str "production"
  else if bool_decide (branch = str "main") then str "production"
  else str "preview/" ++ branch.

Definition setEnvIfFalsy (name : string) (v : list N) : M unit :=
  let* cur := getEnv name in
  if negb (truthyOpt cur) then setEnv name v else ret tt.

Definition ensureGitMetaEnv (octokit : Octokit) (ctx : Context) : M unit :=
  let* msg := getEnv "GITHUB_COMMIT_MESSAGE" in
  let* name := getEnv "GITHUB_COMMIT_AUTHOR_NAME" in
  let* login := getEnv "GITHUB_COMMIT_AUTHOR_LOGIN" in
  if truthyOpt msg && truthyOpt name && truthyOpt login then ret tt
  else
    tryCatch
      (let* commit := call (GetCommit (sha ctx)) (repos_getCommit octokit (sha ctx)) in
       setEnvIfFalsy "GITHUB_COMMIT_MESSAGE" (orElse (commit_message commit) []) ;;
       setEnvIfFalsy "GITHUB_COMMIT_AUTHOR_NAME" (orElse (commit_author_name commit) []) ;;
       setEnvIfFalsy "GITHUB_COMMIT_AUTHOR_LOGIN" (orElse (actor ctx) []) ;;
       let* pr := getEnv "GITHUB_PR_NUMBER" in
       if negb (truthyOpt pr) then
         match pull_request (payload ctx) with
         | Some {| pr_number := Some prNum |} =>
             setEnv "GITHUB_PR_NUMBER" (numToString prNum)
         | _ => ret tt
         end
       else ret tt)
      (fun e => emit (CoreDebug (str "ensureGitMetaEnv failed: " ++ errorText e))).

Definition defaultGlobs : list (list N) :=
  [str "docs/**"; str "packages/*/src/**"; str "packages/*/package.json"].

Definition orUndefined (s : list N) : option (list N) :=
  if truthy s then Some s else None.

Definition performVercelDeployment (inputs : Inputs)
    (pf : VercelClient.Platform) (octokit : Octokit) (ctx : Context)
  : M (option (list N)) :=
  if negb (truthy (vercelToken inputs)) || negb (truthy (vercelProjectId inputs))
     || negb (truthy (vercelOrgId inputs))
  then ret None
  else
    let* docsOk :=
      if setupDocs inputs then
        tryCatch
          (call (SetupDocs (consentGitToken inputs))
                (VercelClient.setupDocsWithScript pf (consentGitToken inputs)) ;;
           ret true)
          (fun e =>
             emit (CoreSetFailed (str "docs setup failed: " ++ errorText e)) ;;
             ret false)
      else ret true in
    if negb docsOk then ret None
    else
      let allowedByPolicy :=
        Changes.shouldDeployByPolicy ctx (Some (deployOnPushBranches inputs))
                                     (Some (deployOnPrBaseBranches inputs)) in
      if negb allowedByPolicy then
        emit (CoreInfo (str "Policy prevents deploy on this ref; skipping deployment")) ;;
        ret None
      else
        let* proceed :=
          if onlyIfChanged inputs then
            let globs :=
              if negb (length (changeGlobs inputs) =? 0)%nat
              then changeGlobs inputs else defaultGlobs in
            let* relevant := Changes.detectRelevantChanges (gate octokit) ctx globs in
            if negb relevant && negb (checkTemplateChanges inputs) then
              emit (CoreInfo
                      (str "No relevant file changes detected; skipping deployment")) ;;
              ret false
            else ret true
          else ret true in
        if negb proceed then ret None
        else
          let branch := resolveBranch ctx in
          let targetHint :=
            if truthy (vercelTarget inputs) && truthy (trim (vercelTarget inputs))
            then vercelTarget inputs
            else if bool_decide (branch = str "main") then str "production"
            else str "staging" in
          let environmentName := computeEnvironmentName (Some targetHint) branch in
          let* deploymentId := createGitHubDeployment octokit environmentName None in
          match deploymentId with
          | Some d =>
              setGitHubDeploymentStatus octokit d in_progress
                (str "Starting Vercel deploy") None
          | None => ret tt
          end ;;
          ensureGitMetaEnv octokit ctx ;;
          tryCatch
            (let* result :=
               Errors.executeWithRetry
                 (VercelClient.deployToVercel pf
                    {| VercelClient.token := vercelToken inputs;
                       VercelClient.projectId := vercelProjectId inputs;
                       VercelClient.orgId := vercelOrgId inputs;
                       VercelClient.workingDirectory := vercelWorkingDirectory inputs;
                       VercelClient.framework := Some (vercelFramework inputs);
                       VercelClient.target := Some targetHint;
                       VercelClient.aliasDomain := orUndefined (canaryAlias inputs);
                       VercelClient.aliasBranch := orUndefined (aliasOnBranch inputs);
                       VercelClient.aliasDomains := Some (aliasDomains inputs);
                       VercelClient.vercelArgs := Some (vercelArgs inputs);
                       VercelClient.vercelScope := Some (vercelScope inputs) |})
                 Errors.handleVercel (Some (inl 3)) in
             let url := VercelClient.url result in
             emit (CoreSetOutput (str "deployment_url") (Some url)) ;;
             match deploymentId with
             | Some d =>
                 setGitHubDeploymentStatus octokit d success
                   (str "Preview ready"
                    ++ (if truthy environmentName
                        then str ": " ++ environmentName else []))
                   (Some url)
             | None => ret tt
             end ;;
             ret (Some url))
            (fun e =>
               emit (CoreSetFailed (str "vercel deployment failed: " ++ errorText e)) ;;
               match deploymentId with
               | Some d =>
                   setGitHubDeploymentStatus octokit d failure
                     (str "Vercel deployment failed") None
               | None => ret tt
               end ;;
               ret None)
          .

End Deployment.

(* ===================================================================== *)
(** ** deploy/vercel-client.ts: the collection of the files               *)
(* ===================================================================== *)

(** [chooseLockfile], [fileShouldBeIgnored] and [walkFiles] over a
    directory tree.  The tree is what [readdirSync] with [withFileTypes]
    shows: the entries of a directory in order, each a regular file, a
    directory, or something else (a symbolic link, a socket), of which only
    [existsSync] is asked.  Paths are joined with [/]; reading a directory
    does not fail. *)

Module FileCollection.
Import Js.

Inductive Node :=
| File
| Dir (entries : list Entry)
| Other (resolves : bool)
with Entry :=
| MkEntry (name : list N) (node : Node).

Definition entryName (e : Entry) : list N :=
  match e with MkEntry name _ => name end.

Definition ignoreDirs : list (list N) :=
  [str "node_modules"; str ".git"; str ".next"; str ".vercel"; str "out";
   str "dist"; str "build"; str ".cache"; str ".turbo"].

Definition ignoreFiles : list (list N) :=
  [str "pnpm-lock.yaml"; str "yarn.lock"; str "package-lock.json"].

(** [existsSync(path.join(cwd, f))] for a file name [f] *)
Definition existsSync (root : list Entry) (f : list N) : bool :=
  match List.find (fun e => bool_decide (entryName e = f)) root with
  | Some (MkEntry _ (Other resolves)) => resolves
  | Some _ => true
  | None => false
  end.

Definition chooseLockfile (root : list Entry) : option (list N) :=
  let candidates := [str "pnpm-lock.yaml"; str "yarn.lock"; str "package-lock.json"] in
  List.find (existsSync root) candidates.

Definition fileShouldBeIgnored (fileName : list N)
    (chosenLockfile : option (list N)) (ignoreFiles : list (list N)) : bool :=
  if truthyOpt chosenLockfile && bool_decide (Some fileName = chosenLockfile)
  then false
  else arrayIncludes ignoreFiles fileName.

(** One pass of the loop of [walk] over the entries of a directory;
    [prefix] is the path of the directory relative to [cwd], empty for
    [cwd] itself and ending with [/] otherwise. *)
Fixpoint walkEntry (chosenLockfile : option (list N)) (prefix : list N)
    (e : Entry) {struct e} : list (list N) :=
  match e with
  | MkEntry name node =>
      if startsWith name (str ".git") then []
      else
        let relativePath := prefix ++ name in
        match node with
        | Dir entries =>
            if arrayIncludes ignoreDirs name then []
            else flat_map (walkEntry chosenLockfile (relativePath ++ str "/"))
                          entries
        | File =>
            if fileShouldBeIgnored name chosenLockfile ignoreFiles then []
            else [relativePath]
        | Other _ => []
        end
  end.

Definition walk (chosenLockfile : option (list N)) (prefix : list N)
    (entries : list Entry) : list (list N) :=
  flat_map (walkEntry chosenLockfile prefix) entries.

Definition walkFiles (root : list Entry) : list (list N) :=
  let chosenLockfile := chooseLockfile root in
  let filesList := walk chosenLockfile [] root in
  let filesList :=
    if negb (arrayIncludes filesList (str "package.json"))
       && existsSync root (str "package.json")
    then filesList ++ [str "package.json"]
    else filesList in
  match chosenLockfile with
  | Some chosen =>
      if truthy chosen && negb (arrayIncludes filesList chosen)
         && existsSync root chosen
      then filesList ++ [chosen]
      else filesList
  | None => filesList
  end.

End FileCollection.

(* ===================================================================== *)
(** ** steps/render-comment.ts: the hash of the seed                      *)
(* ===================================================================== *)

(** The loop of [pickWeightedAscii] that hashes the seed.  Numbers are
    integers here; the bitwise operators of JavaScript take [ToInt32] of
    their operands and give a signed 32-bit result, [>>> 0] gives
    [ToUint32]. *)

Module RenderComment.

Definition toInt32 (z : Z) : Z := (z + 2 ^ 31) mod 2 ^ 32 - 2 ^ 31.

Definition toUint32 (z : Z) : Z := z mod 2 ^ 32.

(** [a ^ b] *)
Definition xor32 (a b : Z) : Z := Z.lxor (toInt32 a) (toInt32 b).

(** [a << k] for [0 <= k < 32] *)
Definition shl32 (a k : Z) : Z := toInt32 (Z.shiftl (toInt32 a) k).

(** The body of the loop: [h ^= seed.charCodeAt(i)], then the sum of
    shifts and [>>> 0]. *)
Definition hashStep (h : Z) (unit : N) : Z :=
  let h := xor32 h (Z.of_N unit) in
  toUint32 (h + shl32 h 1 + shl32 h 4 + shl32 h 7 + shl32 h 8 + shl32 h 24).

Definition seedHash (seed : list N) : Z :=
  fold_left hashStep seed (toUint32 2166136261).

End RenderComment.

(* ===================================================================== *)
(** ** Notions used to state the properties                               *)
(* ===================================================================== *)

Module Notions.
Import Js Changes.

(** The [basehead] of the comparison on an event that is not a pull
    request. *)
Definition changeBasehead (ctx : Context) : list N :=
  (if truthyOpt (before (payload ctx))
      && negb (bool_decide (before (payload ctx) = Some zeroSha))
   then orElse (before (payload ctx)) []
   else sha ctx ++ str "~1") ++ str "..." ++ sha ctx.

(** The warning of the gate when the change set cannot be computed. *)
Definition failureWarning (e : Thrown) : Event :=
  CoreWarning (str "change detection failed, proceeding with deploy: "
               ++ errorText e).

(** The world after a sequence of effects. *)
Definition recordAll (es : list Event) (w : World) : World :=
  fold_left (fun w e => record e w) es w.

(** What the retry executor logs before it retries, and what it logs when
    it gives up. *)
Definition retryNotice (delayMs attempt maxRetries : Z) : Event :=
  CoreInfo (str "Retrying in " ++ numToString delayMs ++ str "ms (attempt "
            ++ numToString attempt ++ str "/" ++ numToString maxRetries ++ str ")").

Definition diagnostics (attempt maxRetries : Z) (err : Errors.ActionableError)
  : list Event :=
  [CoreError (str "Failure after " ++ numToString attempt ++ str "/"
              ++ numToString maxRetries ++ str " attempts: " ++ Errors.message err);
   CoreError (str "Suggestion: " ++ Errors.suggestion err)]
  ++ List.map (fun item => CoreError (str "- " ++ item)) (Errors.actionItems err).


(** Was the request that assigns [domain] to the deployment answered with
    a 2xx status, when it is the request number [k] of the run?  Without a
    deployment id, or when a path component cannot be encoded, no request is
    sent. *)
Definition aliasAssigned (pf : VercelClient.Platform)
    (options : VercelClient.VercelDeployOptions)
    (deploymentId : option (list N)) (k : nat) (domain : list N) : bool :=
  match deploymentId with
  | Some i =>
      truthy i &&
      match VercelClient.encodeURIComponent pf i,
            VercelClient.encodeURIComponent pf (VercelClient.orgId options) with
      | Ok idPart, Ok teamPart =>
          match VercelClient.https_reply pf k
                  {| req_path := str "/v2/deployments/" ++ idPart
                                 ++ str "/aliases?teamId=" ++ teamPart;
                     req_authorization :=
                       str "Bearer " ++ VercelClient.token options;
                     req_body := AliasBody domain |} with
          | VercelClient.Response statusCode _ => VercelClient.is2xx statusCode
          | VercelClient.NetworkError _ => false
          end
      | _, _ => false
      end
  | None => false
  end.

(** The first candidate, in order, that contains a dot and was assigned;
    the candidates are the requests number [k], [k + 1], ... of the run. *)
Fixpoint firstCanonical (pf : VercelClient.Platform)
    (options : VercelClient.VercelDeployOptions)
    (deploymentId : option (list N)) (k : nat) (domains : list (list N))
  : option (list N) :=
  match domains with
  | [] => None
  | d :: ds =>
      if includes d (str ".") && aliasAssigned pf options deploymentId k d
      then Some d
      else firstCanonical pf options deploymentId (S k) ds
  end.

(** The writes to the comments of the pull request, and the queries. *)
Definition isWrite (e : Event) : bool :=
  match e with
  | UpdateIssueComment _ _ | CreateIssueComment _ _ => true
  | _ => false
  end.

Definition writes (w : World) : list Event := List.filter isWrite (trace w).

Definition isQuery (e : Event) : bool :=
  match e with QueryComments _ _ => true | _ => false end.

Definition withComments (cs : list IssueComment) (w : World) : World :=
  {| trace := trace w; env := env w; comments := cs |}.

(** The comment that discovery finds among the comments of the pull
    request: the first one of the expected author that is not minimized and
    contains the start marker. *)
Definition expectedLogin (inputs : Inputs) (gh : PrComment.GitHub) : list N :=
  PrComment.normalizeLogin
    (if truthy (authorLogin inputs) then Some (authorLogin inputs)
     else PrComment.viewer_login gh).

Definition stickyComment (inputs : Inputs) (gh : PrComment.GitHub)
    (cs : list IssueComment) : option IssueComment :=
  List.find (PrComment.isTarget (expectedLogin inputs gh)
                                (PrComment.autoStart (header inputs))) cs.

(** What the caller of [ensureComment] asks for. *)
Definition appendRequested (inputs : Inputs)
    (options : option Comments.EnsureOptions) : bool :=
  match options with
  | Some {| Comments.appendOverride := Some b |} => b
  | _ => append inputs
  end.

Definition hideRequested (inputs : Inputs)
    (options : option Comments.EnsureOptions) : bool :=
  match options with
  | Some {| Comments.hideDetailsOverride := Some b |} => b
  | _ => hideDetails inputs
  end.

(** The trigger of [ensureComment]: both literals of the auto-generated
    block. *)
Definition hasAutoBlock (previous : list N) : bool :=
  includes previous Comments.AUTO_COMMENT_START
  && includes previous Comments.AUTO_COMMENT_END.

(** The trigger in the words of the specification: the marker pair of the
    run, which is the pair that the header gives. *)
Definition hasMarkerPair (header previous : list N) : bool :=
  includes previous (PrComment.autoStart header)
  && includes previous (PrComment.autoEnd header).

End Notions.

(* ===================================================================== *)
(** ** Sample runs                                                        *)
(* ===================================================================== *)

(** Concrete contexts, inputs and remote sides at which the properties
    below are evaluated. *)

Module Samples.
Import Js.

Definition pushContext (branch : list N) : Context :=
  {| eventName := str "push";
     ref := Some (str "refs/heads/" ++ branch);
     head_ref := None;
     sha := str "abc";
     actor := None;
     repo_owner := str "o";
     repo_name := str "r";
     payload := {| pull_request := None; before := None |} |}.

Definition prContext (base : list N) : Context :=
  {| eventName := str "pull_request";
     ref := Some (str "refs/pull/7/merge");
     head_ref := None;
     sha := str "abc";
     actor := None;
     repo_owner := str "o";
     repo_name := str "r";
     payload := {| pull_request :=
                     Some {| pr_number := Some 7; pr_base_ref := Some base |};
                   before := None |} |}.

(** A glob of 1001 code units, and one of twenty-one [*]. *)
Definition longGlob : list N := repeat 97%N 1001.
Definition starryGlob : list N := concat (repeat (str "*/") 21).

Definition emptyWorld : World := {| trace := []; env := ∅; comments := [] |}.

(** An Octokit whose file listings fail. *)
Definition failingGate (e : Thrown) : Changes.Octokit :=
  {| Changes.pulls_listFiles := fun _ => Throw e;
     Changes.repos_compareCommits := fun _ => Throw e |}.

(** An operation that fails twice with a transient error and then
    succeeds, and one that always fails with "Project not found". *)
Definition flakyScript (k : nat) : Result Z :=
  match k with
  | O => Throw (JsError (str "transient"))
  | S O => Throw (JsError (str "still transient"))
  | _ => Ok 42
  end.

Definition brokenScript (k : nat) : Result Z :=
  Throw (JsError (str "Project not found")).

(** Inputs without a Vercel token. *)
Definition noVercelInputs : Inputs :=
  {| pullRequestNumber := Some 7;
     header := [];
     append := false;
     hideDetails := false;
     skipUnchanged := true;
     ignoreEmpty := false;
     authorLogin := [];
     vercelToken := [];
     vercelProjectId := str "prj_1";
     vercelOrgId := str "team_1";
     vercelWorkingDirectory := str ".docs";
     vercelFramework := str "nextjs";
     vercelTarget := [];
     canaryAlias := [];
     aliasOnBranch := [];
     aliasDomains := [];
     vercelArgs := [];
     vercelScope := [];
     setupDocs := true;
     consentGitToken := [];
     onlyIfChanged := true;
     changeGlobs := [];
     checkTemplateChanges := false;
     deployOnPushBranches := [];
     deployOnPrBaseBranches := [] |}.

(** A Vercel that accepts the deployment and every alias but
    [x.example.com]. *)
Definition samplePlatform : VercelClient.Platform :=
  {| VercelClient.collectFiles := fun _ => Ok [(str "package.json", str "e30=")];
     VercelClient.encodeURIComponent := fun s => Ok s;
     VercelClient.https_reply :=
       fun k request =>
         match req_body request with
         | AliasBody d =>
             if bool_decide (d = str "x.example.com")
             then VercelClient.Response (Some 409) (str "taken")
             else VercelClient.Response (Some 200) (str "{}")
         | _ => VercelClient.Response (Some 200) (str "{...}")
         end;
     VercelClient.JSON_parse :=
       fun _ => Ok {| VercelClient.json_url := Some (str "c15t-abc.vercel.app");
                      VercelClient.json_id := Some (str "dpl_1") |};
     VercelClient.appendFileSync := fun _ _ => Ok tt;
     VercelClient.setupDocsWithScript := fun _ => Ok tt |}.

Definition sampleOctokit : Deployment.Octokit :=
  {| Deployment.gate := failingGate (JsError (str "boom"));
     Deployment.repos_createDeployment := fun _ => Ok (Some 1);
     Deployment.repos_createDeploymentStatus := fun _ _ => Ok tt;
     Deployment.repos_getCommit :=
       fun _ => Ok {| Deployment.commit_message := Some (str "msg");
                      Deployment.commit_author_name := Some (str "me") |} |}.

(** A deployment from the branch [canary] with three alias candidates and
    extra metadata that collides with [githubCommitSha]. *)
Definition canaryEnv : gmap string (list N) :=
  <["GITHUB_REF"%string := str "refs/heads/canary"]>
  (<["GITHUB_SHA"%string := str "abc123"]> ∅).

Definition canaryWorld : World :=
  {| trace := []; env := canaryEnv; comments := [] |}.

Definition canaryOptions : VercelClient.VercelDeployOptions :=
  {| VercelClient.token := str "tok";
     VercelClient.projectId := str "prj_1";
     VercelClient.orgId := str "team_1";
     VercelClient.workingDirectory := str ".docs";
     VercelClient.framework := None;
     VercelClient.target := None;
     VercelClient.aliasDomain := Some (str "localhost");
     VercelClient.aliasBranch := Some (str "canary");
     VercelClient.aliasDomains :=
       Some [str "x.example.com"; str "{{BRANCH}}.example.com"; str "z.example.com"];
     VercelClient.vercelArgs := Some (str "-m githubCommitSha=override --meta team=docs");
     VercelClient.vercelScope := None |}.

(** A pull request with one sticky comment of the bot. *)
Definition botGitHub : PrComment.GitHub :=
  {| PrComment.viewer_login := Some (str "github-actions[bot]");
     PrComment.mint := fun cs => (str "IC_new", 1000 + Z.of_nat (length cs)) |}.

Definition stickyInputs : Inputs :=
  {| pullRequestNumber := Some 7;
     header := [];
     append := false;
     hideDetails := false;
     skipUnchanged := true;
     ignoreEmpty := false;
     authorLogin := [];
     vercelToken := str "tok";
     vercelProjectId := str "prj_1";
     vercelOrgId := str "team_1";
     vercelWorkingDirectory := str ".docs";
     vercelFramework := str "nextjs";
     vercelTarget := [];
     canaryAlias := [];
     aliasOnBranch := [];
     aliasDomains := [];
     vercelArgs := [];
     vercelScope := [];
     setupDocs := false;
     consentGitToken := [];
     onlyIfChanged := false;
     changeGlobs := [];
     checkTemplateChanges := false;
     deployOnPushBranches := [];
     deployOnPrBaseBranches := [] |}.

Definition commentOf (text : list N) : IssueComment :=
  {| id := str "IC_1";
     author_login := Some (str "github-actions");
     isMinimized := false;
     body := text |}.

Definition worldWith (c : IssueComment) : World :=
  {| trace := []; env := ∅; comments := [c] |}.

(** The previous comment of the specification's example: the content [A]
    between the markers of the run. *)
Definition previousA : IssueComment :=
  commentOf (PrComment.bodyWithHeader (str "A") []).

(** A previous comment that contains the two literals of the
    auto-generated block, and the start marker only. *)
Definition previousAuto : IssueComment :=
  commentOf (PrComment.autoStart [] ++ [10%N]
             ++ Comments.AUTO_COMMENT_START ++ str "A"
             ++ Comments.AUTO_COMMENT_END).

(** A previous comment with the auto-generated block between the markers
    of the run. *)
Definition previousAutoWrapped : IssueComment :=
  commentOf (PrComment.bodyWithHeader
               (Comments.AUTO_COMMENT_START ++ str "A" ++ Comments.AUTO_COMMENT_END)
               []).

Definition appendOn : option Comments.EnsureOptions :=
  Some {| Comments.appendOverride := Some true;
          Comments.hideDetailsOverride := None |}.

Definition appendOff : option Comments.EnsureOptions :=
  Some {| Comments.appendOverride := Some false;
          Comments.hideDetailsOverride := None |}.

(** A rendered body that ends with a line break, as the one of
    [renderCommentMarkdown] does. *)
Definition renderedBody : list N := str "### Docs Preview" ++ [10%N].

End Samples.

(* ===================================================================== *)
(** ** Further notions and sample runs                                    *)
(* ===================================================================== *)

Module MoreNotions.
Import Js.

(** The pauses of a run, in order. *)
Definition pauseOf (e : Event) : list Z :=
  match e with Slept ms => [ms] | _ => [] end.

Definition pauses (w : World) : list Z := flat_map pauseOf (trace w).

(** The delay before the retry that follows attempt [attempt], with the
    default base and cap of [executeWithRetry]. *)
Definition defaultDelay (attempt : Z) : Z := Z.min 30000 (2 ^ attempt * 1000).

(** The code units of a slug: [a-z], [0-9] and the dash. *)
Definition isUpper (c : N) : bool := ((65 <=? c) && (c <=? 90))%N.

Definition isSlugChar (c : N) : bool :=
  ((97 <=? c) && (c <=? 122) || (48 <=? c) && (c <=? 57) || (c =? 45))%N.

(** No two adjacent dashes. *)
Fixpoint noDoubleDash (s : list N) : bool :=
  match s with
  | c :: (d :: _) as tl =>
      negb (VercelClient.isDash c && VercelClient.isDash d) && noDoubleDash tl
  | _ => true
  end.

(** The comments created on the pull request during a run. *)
Definition isCreate (e : Event) : bool :=
  match e with CreateIssueComment _ _ => true | _ => false end.

Definition creations (w : World) : list Event := List.filter isCreate (trace w).

(** A computation that adds to the trace no event of the kind [P]. *)
Definition silent (P : Event -> bool) {A} (m : M A) : Prop :=
  forall w, List.filter P (trace (snd (m w))) = List.filter P (trace w).

(** A computation that never throws. *)
Definition safe {A} (m : M A) : Prop :=
  forall w, exists a w', m w = (Ok a, w').

(** The statuses set on deployment records, and what reaches GitHub
    deployments or Vercel at all. *)
Definition isStatus (e : Event) : bool :=
  match e with CreateDeploymentStatus _ _ _ _ => true | _ => false end.

Definition statusOf (e : Event) : list (Z * DeploymentState) :=
  match e with CreateDeploymentStatus d state _ _ => [(d, state)] | _ => [] end.

(** The states set on deployment records during a run, in order. *)
Definition statusLog (w : World) : list (Z * DeploymentState) :=
  flat_map statusOf (trace w).

Definition isDeployEvent (e : Event) : bool :=
  match e with
  | Https _ | CreateDeployment _ _ _ _ | CreateDeploymentStatus _ _ _ _ => true
  | _ => false
  end.

Definition deployEvents (w : World) : list Event :=
  List.filter isDeployEvent (trace w).

(** The items that a glob stands for, read left to right: [**] is one
    item, a [*] that stands alone is one item, any other code unit stands
    for itself. *)
Fixpoint globItems (glob : list N) : list Changes.RegexItem :=
  match glob with
  | [] => []
  | c :: rest =>
      if N.eqb c 42 then
        match rest with
        | d :: rest' =>
            if N.eqb d 42 then Changes.RAnyStar :: globItems rest'
            else Changes.RNotSlashStar :: globItems rest
        | [] => [Changes.RNotSlashStar]
        end
      else Changes.RChar c :: globItems rest
  end.

(** What it means for a sequence of code points to match a sequence of
    glob items from its first to its last code point: a literal matches
    itself, [**] matches any run without line terminators, [*] matches any
    run without a slash. *)
Inductive GlobMatch : list Changes.RegexItem -> list N -> Prop :=
| GlobMatch_nil : GlobMatch [] []
| GlobMatch_char (c : N) (items : list Changes.RegexItem) (s : list N) :
    GlobMatch items s -> GlobMatch (Changes.RChar c :: items) (c :: s)
| GlobMatch_any (seg s : list N) (items : list Changes.RegexItem) :
    forallb (fun c => negb (isLineTerminator c)) seg = true ->
    GlobMatch items s -> GlobMatch (Changes.RAnyStar :: items) (seg ++ s)
| GlobMatch_segment (seg s : list N) (items : list Changes.RegexItem) :
    forallb (fun c => negb (N.eqb c 47)) seg = true ->
    GlobMatch items s -> GlobMatch (Changes.RNotSlashStar :: items) (seg ++ s).

(** The source of the regular expression after the first and after the
    second replacement of [globToRegex]. *)
Fixpoint afterDoubleStars (glob : list N) : list N :=
  match glob with
  | [] => []
  | c :: rest =>
      if N.eqb c 42 then
        match rest with
        | d :: rest' =>
            if N.eqb d 42 then str ".*" ++ afterDoubleStars rest'
            else str "\*" ++ afterDoubleStars rest
        | [] => str "\*"
        end
      else (if Changes.isRegexSpecial c then [92%N; c] else [c])
           ++ afterDoubleStars rest
  end.

Fixpoint afterStars (glob : list N) : list N :=
  match glob with
  | [] => []
  | c :: rest =>
      if N.eqb c 42 then
        match rest with
        | d :: rest' =>
            if N.eqb d 42 then str ".*" ++ afterStars rest'
            else str "[^/]*" ++ afterStars rest
        | [] => str "[^/]*"
        end
      else (if Changes.isRegexSpecial c then [92%N; c] else [c])
           ++ afterStars rest
  end.

(** No code unit is a high surrogate: the code points are the code
    units. *)
Definition noHighSurrogate (s : list N) : bool :=
  forallb (fun c => negb (isHighSurrogate c)) s.

Definition isGlobItem (it : Changes.RegexItem) : bool :=
  match it with
  | Changes.RChar _ | Changes.RAnyStar | Changes.RNotSlashStar => true
  | _ => false
  end.

Definition starFree (s : list N) : bool := forallb (fun c => negb (N.eqb c 42)) s.

(** The 32-bit FNV-1a hash of a sequence of code units: for each unit,
    exclusive or, then multiplication by the FNV prime modulo [2^32]. *)
Definition fnv1a (units : list N) : Z :=
  fold_left (fun h unit => (Z.lxor h (Z.of_N unit) * 16777619) mod 2 ^ 32)
            units 2166136261.

End MoreNotions.

Module MoreSamples.
Import Js.

(** An operation that always fails with the same transient error. *)
Definition failingScript (k : nat) : Result Z :=
  Throw (JsError (str "socket hang up")).

(** A Vercel that rejects the deployment. *)
Definition rejectingPlatform : VercelClient.Platform :=
  {| VercelClient.collectFiles := fun _ => Ok [(str "package.json", str "e30=")];
     VercelClient.encodeURIComponent := fun s => Ok s;
     VercelClient.https_reply :=
       fun _ _ => VercelClient.Response (Some 403) (str "forbidden");
     VercelClient.JSON_parse :=
       fun _ => Ok {| VercelClient.json_url := None;
                      VercelClient.json_id := None |};
     VercelClient.appendFileSync := fun _ _ => Ok tt;
     VercelClient.setupDocsWithScript := fun _ => Ok tt |}.

(** The options of the sample deployment, with an alias branch that is not
    the current one. *)
Definition mainOnlyOptions : VercelClient.VercelDeployOptions :=
  {| VercelClient.token := str "tok";
     VercelClient.projectId := str "prj_1";
     VercelClient.orgId := str "team_1";
     VercelClient.workingDirectory := str ".docs";
     VercelClient.framework := None;
     VercelClient.target := None;
     VercelClient.aliasDomain := Some (str "docs.example.com");
     VercelClient.aliasBranch := Some (str "main");
     VercelClient.aliasDomains := None;
     VercelClient.vercelArgs := None;
     VercelClient.vercelScope := None |}.

(** A working directory with two lockfiles, a symbolic link named
    [package.json], sources, and directories that are not deployed. *)
Definition sampleTree : list FileCollection.Entry :=
  [FileCollection.MkEntry (str ".gitignore") FileCollection.File;
   FileCollection.MkEntry (str "yarn.lock") FileCollection.File;
   FileCollection.MkEntry (str "package-lock.json") FileCollection.File;
   FileCollection.MkEntry (str "package.json") (FileCollection.Other true);
   FileCollection.MkEntry (str "node_modules")
     (FileCollection.Dir [FileCollection.MkEntry (str "x.js") FileCollection.File]);
   FileCollection.MkEntry (str "app")
     (FileCollection.Dir
        [FileCollection.MkEntry (str "page.mdx") FileCollection.File;
         FileCollection.MkEntry (str "pnpm-lock.yaml") FileCollection.File;
         FileCollection.MkEntry (str "dist")
           (FileCollection.Dir
              [FileCollection.MkEntry (str "out.js") FileCollection.File])])].

(** A pull request without comments. *)
Definition freshWorld : World := {| trace := []; env := ∅; comments := [] |}.

End MoreSamples.

(* ===================================================================== *)
(** ** The inputs as they are written                                     *)
(* ===================================================================== *)

(** What a user writes in the configuration of the action, given by its
    parts: the entries of an allowlist, the pairs of the extra-metadata
    arguments, the alias candidates.  The properties of the gate and of the
    client are stated against these parts. *)

Module Wording.
Import Js.

(** The text of a list input: the pieces with a comma between them. *)
Fixpoint commaSeparated (pieces : list (list N)) : list N :=
  match pieces with
  | [] => []
  | [piece] => piece
  | piece :: rest => piece ++ 44%N :: commaSeparated rest
  end.

(** A name is listed by the pieces of a list input when it is not empty
    and is one of the pieces with the white space around it removed. *)
Definition listed (pieces : list (list N)) (name : list N) : Prop :=
  name <> [] /\ exists piece, piece ∈ pieces /\ trim piece = name.

(** The ref with the prefix [refs/heads/] stripped: the branch of a branch
    ref, and any other ref as it is. *)
Definition withoutHeadsPrefix (r : list N) : list N :=
  if startsWith r (str "refs/heads/") then drop 11 r else r.










(** The alias candidates in their order: the alias domain when there is
    one, then the domains of the list. *)
Definition aliasCandidates (first : option (list N)) (domains : list (list N))
  : list (list N) :=
  match first with
  | Some a => if truthy a then a :: domains else domains
  | None => domains
  end.

(** A domain of the list without a template token. *)
Definition plainDomain (d : list N) : bool := negb (includes d (str "{{")).

(** The requests that assign the candidates to the deployment: one for
    each candidate, in order.  Without a deployment id, or when a path
    component cannot be encoded, there is none. *)
Definition aliasRequests (pf : VercelClient.Platform)
    (options : VercelClient.VercelDeployOptions)
    (deploymentId : option (list N)) (candidates : list (list N)) : list Event :=
  match deploymentId with
  | Some i =>
      if truthy i then
        match VercelClient.encodeURIComponent pf i,
              VercelClient.encodeURIComponent pf (VercelClient.orgId options) with
        | Ok idPart, Ok teamPart =>
            List.map
              (fun d =>
                 Https {| req_path := str "/v2/deployments/" ++ idPart
                                      ++ str "/aliases?teamId=" ++ teamPart;
                          req_authorization :=
                            str "Bearer " ++ VercelClient.token options;
                          req_body := AliasBody d |})
              candidates
        | _, _ => []
        end
      else []
  | None => []
  end.

(** The two lines written to the output file of the step, when there is
    one. *)
Definition outputLines (env : gmap string (list N)) (url : list N) : list Event :=
  match env !! "GITHUB_OUTPUT"%string with
  | Some out =>
      if truthy out
      then [AppendFile out (str "url=" ++ url ++ [10%N]);
            AppendFile out (str "deployment_url=" ++ url ++ [10%N])]
      else []
  | None => []
  end.

End Wording.

Module RunSamples.
Import Js.

(** The push of a tag whose name is [refs/heads/main]. *)
Definition tagContext : Context :=
  {| eventName := str "push";
     ref := Some (str "refs/tags/refs/heads/main");
     head_ref := None;
     sha := str "abc";
     actor := None;
     repo_owner := str "o";
     repo_name := str "r";
     payload := {| pull_request := None; before := None |} |}.

(** The canary run with an output file. *)
Definition outputWorld : World :=
  {| trace := [];
     env := <["GITHUB_OUTPUT"%string := str "/tmp/out"]> Samples.canaryEnv;
     comments := [] |}.



End RunSamples.

(* ===================================================================== *)
(** * Properties                                                          *)
(* ===================================================================== *)

(** ** Strings *)

Module JsFacts.
Import Js.

Lemma startsWith_app (p s : list N) : startsWith (p ++ s) p = true.
Proof.
  induction p as [|a p IH]; simpl; [done|].
  by rewrite N.eqb_refl, IH.
Qed.

Lemma indexOf_prefix (p s : list N) : indexOf (p ++ s) p = 0.
Proof.
  unfold indexOf. destruct (p ++ s) eqn:E; simpl.
  - destruct p; [done | discriminate].
  - rewrite <- E, startsWith_app. done.
Qed.

(** Stripping a leading occurrence of the pattern. *)
Lemma replace_prefix (p s : list N) : replace (p ++ s) p [] = s.
Proof.
  unfold replace. rewrite indexOf_prefix. simpl.
  by rewrite drop_app_length.
Qed.

Lemma arrayIncludes_spec (a : list (list N)) (x : list N) :
  arrayIncludes a x = true <-> x ∈ a.
Proof.
  unfold arrayIncludes. rewrite existsb_exists. split.
  - intros (y & Hin & Heq). apply bool_decide_eq_true in Heq. subst.
    by apply list_elem_of_In.
  - intros Hin. exists x. split; [by apply list_elem_of_In|].
    by apply bool_decide_eq_true.
Qed.

Lemma startsWith_prefix (s p : list N) :
  startsWith s p = true <-> p `prefix_of` s.
Proof.
  revert s. induction p as [|a p IH]; intros s; simpl.
  - split; [intros _; apply prefix_nil | done].
  - destruct s as [|b s]; simpl.
    + split; [done | intros H; by apply prefix_nil_not in H].
    + rewrite andb_true_iff, IH, N.eqb_eq. split.
      * intros [-> H]. by apply prefix_cons.
      * intros H. split; [by apply prefix_cons_inv_1 in H
                         | by apply prefix_cons_inv_2 in H].
  Qed.

Lemma indexOfFrom_lower (s p : list N) (i : Z) :
  indexOfFrom s p i = -1 \/ i <= indexOfFrom s p i.
Proof.
  revert i. induction s as [|c s IH]; intros i; simpl.
  - destruct (startsWith [] p); [right; lia | left; reflexivity].
  - destruct (startsWith (c :: s) p); [right; lia|].
    destruct (IH (i + 1)) as [H | H]; [by left | right; lia].
Qed.

(** An occurrence anywhere is found. *)
Lemma indexOfFrom_found (s p : list N) (k : nat) (i : Z) :
  0 <= i -> p `prefix_of` drop k s -> indexOfFrom s p i <> -1.
Proof.
  revert k i. induction s as [|c s IH]; intros k i Hi Hocc; simpl.
  - rewrite drop_nil in Hocc. apply startsWith_prefix in Hocc.
    rewrite Hocc. lia.
  - destruct (startsWith (c :: s) p) eqn:E; [lia|].
    destruct k as [|k].
    + simpl in Hocc. apply startsWith_prefix in Hocc. congruence.
    + simpl in Hocc. apply (IH k); [lia | exact Hocc].
Qed.

Lemma includes_false_no_occurrence (s p : list N) (k : nat) :
  includes s p = false -> ~ p `prefix_of` drop k s.
Proof.
  unfold includes, indexOf. intros H Hocc.
  apply negb_false_iff, Z.eqb_eq in H.
  by apply (indexOfFrom_found s p k 0) in H.
Qed.

(** The search passes over a part without occurrences. *)
Lemma indexOfFrom_skip (x rest p : list N) (i : Z) :
  (forall k, (k < length x)%nat -> ~ p `prefix_of` drop k (x ++ rest)) ->
  indexOfFrom (x ++ rest) p i = indexOfFrom rest p (i + len x).
Proof.
  revert i. induction x as [|c x IH]; intros i Hno.
  - simpl. unfold len. simpl. f_equal. lia.
  - cbn [app indexOfFrom].
    destruct (startsWith (c :: x ++ rest) p) eqn:E.
    + exfalso. apply (Hno 0%nat); [simpl; lia|]. by apply startsWith_prefix.
    + rewrite IH.
      * f_equal. unfold len. simpl length. lia.
      * intros k Hk. apply (Hno (S k)). simpl. lia.
Qed.

Lemma indexOf_after (x p : list N) :
  (forall k, (k < length x)%nat -> ~ p `prefix_of` drop k (x ++ p)) ->
  indexOf (x ++ p) p = len x.
Proof.
  intros Hno. unfold indexOf. rewrite indexOfFrom_skip by exact Hno.
  destruct p as [|a p]; [reflexivity|].
  cbn [indexOfFrom].
  replace (startsWith (a :: p) (a :: p)) with true; [lia|].
  symmetry. apply startsWith_prefix. reflexivity.
Qed.

Lemma dropWhile_length (f : N -> bool) (s : list N) :
  (length (dropWhile f s) <= length s)%nat.
Proof.
  induction s as [|c s IH]; simpl; [lia|].
  destruct (f c); simpl; lia.
Qed.

Lemma trimEnd_length (s : list N) : (length (trimEnd s) <= length s)%nat.
Proof.
  unfold trimEnd. rewrite length_rev.
  etrans; [apply dropWhile_length|]. by rewrite length_rev.
Qed.

End JsFacts.

(** ** The policy gate *)

Section PolicyGate.
Import Js Changes JsFacts Samples.

Lemma shouldDeploy_push (ctx : Context) (pushCsv prCsv : option (list N))
    (branch : list N) :
  isPullRequestEvent ctx = false ->
  ref ctx = Some (str "refs/heads/" ++ branch) ->
  shouldDeployByPolicy ctx pushCsv prCsv
  = arrayIncludes (parseCsv pushCsv defaultBranches) branch.
Proof.
  intros Hev Href. unfold shouldDeployByPolicy.
  rewrite Hev, Href. cbn [negb option_map].
  rewrite replace_prefix.
  destruct branch; reflexivity.
Qed.

Lemma shouldDeploy_pr (ctx : Context) (pushCsv prCsv : option (list N))
    (pr : PullRequest) (base : list N) :
  isPullRequestEvent ctx = true ->
  pull_request (payload ctx) = Some pr ->
  pr_base_ref pr = Some base ->
  shouldDeployByPolicy ctx pushCsv prCsv
  = arrayIncludes (parseCsv prCsv defaultBranches) base.
Proof.
  intros Hev Hpr Hbase. unfold shouldDeployByPolicy.
  rewrite Hev, Hpr, Hbase. cbn [negb].
  destruct base; reflexivity.
Qed.

(** C9.  With the allowlist input undefined or empty the gate uses
    [main, canary]: a push to [refs/heads/<branch>] is deployed exactly when
    [<branch>] is one of the two, and likewise for the base branch of a
    pull request. *)
Theorem shouldDeployByPolicy_default_allowlist
    (ctx : Context) (input other : option (list N)) :
  input = None \/ input = Some [] ->
  (isPullRequestEvent ctx = false ->
   forall branch, ref ctx = Some (str "refs/heads/" ++ branch) ->
     (shouldDeployByPolicy ctx input other = true
      <-> branch = str "main" \/ branch = str "canary"))
  /\
  (isPullRequestEvent ctx = true ->
   forall pr base,
     pull_request (payload ctx) = Some pr -> pr_base_ref pr = Some base ->
     (shouldDeployByPolicy ctx other input = true
      <-> base = str "main" \/ base = str "canary")).
Proof.
  intros Hin.
  assert (Hdef : parseCsv input defaultBranches = defaultBranches)
    by (destruct Hin; subst; reflexivity).
  assert (Hmem : forall x : list N,
             x ∈ defaultBranches <-> x = str "main" \/ x = str "canary").
  { intros x. unfold defaultBranches.
    rewrite elem_of_cons, list_elem_of_singleton. tauto. }
  split.
  - intros Hev branch Href.
    rewrite (shouldDeploy_push _ _ _ _ Hev Href), Hdef, arrayIncludes_spec.
    apply Hmem.
  - intros Hev pr base Hpr Hbase.
    rewrite (shouldDeploy_pr _ _ _ _ _ Hev Hpr Hbase), Hdef, arrayIncludes_spec.
    apply Hmem.
Qed.

(** A push to [main] with the empty allowlist input is deployed. *)
Lemma shouldDeployByPolicy_default_allowlist_witness :
  shouldDeployByPolicy (pushContext (str "main")) (Some []) (Some (str "x")) = true.
Proof.
  apply (proj1 (shouldDeployByPolicy_default_allowlist
                  (pushContext (str "main")) (Some []) (Some (str "x"))
                  (or_intror eq_refl))
           eq_refl (str "main") eq_refl).
  left. reflexivity.
Defined.

(** Refs that are not branch refs.  A tag ref has no [refs/heads/] and is
    compared as it is; [replace] removes the first occurrence of
    [refs/heads/] wherever it stands, so a tag named [refs/heads/main] is
    compared as [refs/tags/main]. *)
Example shouldDeployByPolicy_tag_refs :
  replace (str "refs/tags/v1.2.3") (str "refs/heads/") [] = str "refs/tags/v1.2.3"
  /\ replace (str "refs/tags/refs/heads/main") (str "refs/heads/") []
     = str "refs/tags/main".
Proof. split; vm_compute; reflexivity. Qed.

End PolicyGate.

(** ** The glob matcher *)

Section GlobMatcher.
Import Js Changes JsFacts Samples.

Lemma wildcardTokens_bound (n : nat) (glob : list N) :
  (length glob <= n)%nat -> wildcardTokens glob <= countStars glob.
Proof.
  unfold countStars, len. revert glob.
  induction n as [|n IH]; intros glob Hlen.
  - destruct glob; simpl in *; [lia | lia].
  - destruct glob as [|c rest]; [simpl; lia|].
    simpl in Hlen. cbn [wildcardTokens List.filter].
    rewrite (N.eqb_sym 42 c).
    destruct (N.eqb c 42) eqn:Hc.
    + destruct rest as [|d rest'].
      * simpl. lia.
      * cbn [List.filter]. rewrite (N.eqb_sym 42 d).
        destruct (N.eqb d 42) eqn:Hd.
        -- specialize (IH rest' ltac:(simpl in Hlen; lia)).
           simpl length. lia.
        -- specialize (IH (d :: rest') ltac:(simpl in *; lia)).
           cbn [List.filter] in IH. rewrite (N.eqb_sym 42 d), Hd in IH.
           simpl length. lia.
    + specialize (IH rest ltac:(lia)). lia.
Qed.

Lemma wildcardTokens_le_countStars (glob : list N) :
  wildcardTokens glob <= countStars glob.
Proof. exact (wildcardTokens_bound (length glob) glob (le_n _)). Qed.

(** C5, as the code has it.  A glob of more than 1000 code units, or with
    more than twenty wildcard tokens, makes [globToRegex] throw a plain
    [Error] with one of two fixed messages; [minimatch] catches it and
    answers "no match" for every path. *)
Theorem globToRegex_rejects_minimatch_false (glob : list N) :
  len glob > 1000 \/ wildcardTokens glob > 20 ->
  (globToRegex glob = Throw (JsError (str "Glob pattern too long"))
   \/ globToRegex glob = Throw (JsError (str "Too many wildcards in glob pattern")))
  /\ forall path, minimatch path glob = Ok false.
Proof.
  intros H.
  assert (Hrej :
    globToRegex glob = Throw (JsError (str "Glob pattern too long"))
    \/ globToRegex glob = Throw (JsError (str "Too many wildcards in glob pattern"))).
  { unfold globToRegex.
    destruct (len glob >? 1000) eqn:Hlen; [left; reflexivity|].
    right.
    assert (Hstars : (countStars glob >? 20) = true).
    { apply Z.gtb_lt. pose proof (wildcardTokens_le_countStars glob).
      rewrite Z.gtb_ltb in Hlen. apply Z.ltb_ge in Hlen. lia. }
    rewrite Hstars. reflexivity. }
  split; [exact Hrej|].
  intros path. unfold minimatch.
  destruct Hrej as [-> | ->]; reflexivity.
Qed.

Lemma globToRegex_rejects_minimatch_false_witness :
  (globToRegex starryGlob = Throw (JsError (str "Glob pattern too long"))
   \/ globToRegex starryGlob
      = Throw (JsError (str "Too many wildcards in glob pattern")))
  /\ forall path, minimatch path starryGlob = Ok false.
Proof.
  apply (globToRegex_rejects_minimatch_false starryGlob).
  right. vm_compute. reflexivity.
Defined.

(** C5, as the specification words it, fails: for a pattern of 1001 code
    units the matcher does not fail, it returns the match result [false]. *)
Lemma minimatch_long_pattern_returns_false :
  len longGlob > 1000
  /\ minimatch (str "a") longGlob = Ok false
  /\ ~ (exists e, minimatch (str "a") longGlob = Throw e).
Proof.
  split; [vm_compute; reflexivity|].
  assert (H : minimatch (str "a") longGlob = Ok false) by (vm_compute; reflexivity).
  split; [exact H|].
  intros [e He]. rewrite H in He. discriminate.
Qed.

(** The examples of the specification: [docs/**]. *)
Example minimatch_docs :
  minimatch (str "docs/a/b.md") (str "docs/**") = Ok true
  /\ minimatch (str "src/a.md") (str "docs/**") = Ok false.
Proof. split; vm_compute; reflexivity. Qed.

End GlobMatcher.

(** ** Change detection *)

Section ChangeDetection.
Import Js Changes Notions Samples.

(** C6.  When the listing of the changed files fails (the paginated
    [pulls.listFiles] on a pull-request event, [compareCommitsWithBasehead]
    otherwise), [detectRelevantChanges] returns [true]; beyond the request
    itself its only effect is one warning that carries the error text. *)
Theorem detectRelevantChanges_fails_open
    (octokit : Octokit) (ctx : Context) (globs : list (list N))
    (e : Thrown) (w : World) :
  (isPullRequestEvent ctx = true ->
   forall pr number,
     pull_request (payload ctx) = Some pr -> pr_number pr = Some number ->
     number <> 0 ->
     pulls_listFiles octokit number = Throw e ->
     detectRelevantChanges octokit ctx globs w
     = (Ok true, record (failureWarning e) (record (ListFiles number) w)))
  /\
  (isPullRequestEvent ctx = false ->
   repos_compareCommits octokit (changeBasehead ctx) = Throw e ->
   detectRelevantChanges octokit ctx globs w
   = (Ok true,
      record (failureWarning e) (record (CompareCommits (changeBasehead ctx)) w))).
Proof.
  split.
  - intros Hev pr number Hpr Hnum Hnz Hfail.
    unfold detectRelevantChanges, tryCatch. rewrite Hev, Hpr, Hnum.
    change (default 0 (Some number)) with number.
    destruct (number =? 0) eqn:Hz; [apply Z.eqb_eq in Hz; contradiction|].
    unfold call, bind, emit, lift. rewrite Hfail. reflexivity.
  - intros Hev Hfail.
    unfold detectRelevantChanges, tryCatch. rewrite Hev.
    fold (changeBasehead ctx).
    unfold call, bind, emit, lift. unfold changeBasehead in *. rewrite Hfail.
    reflexivity.
Qed.

Lemma detectRelevantChanges_fails_open_witness :
  detectRelevantChanges (failingGate (JsError (str "boom")))
    (prContext (str "main")) [str "docs/**"] emptyWorld
  = (Ok true,
     record (failureWarning (JsError (str "boom")))
            (record (ListFiles 7) emptyWorld))
  /\
  detectRelevantChanges (failingGate (JsError (str "boom")))
    (pushContext (str "main")) [str "docs/**"] emptyWorld
  = (Ok true,
     record (failureWarning (JsError (str "boom")))
            (record (CompareCommits (changeBasehead (pushContext (str "main"))))
                    emptyWorld)).
Proof.
  split.
  - apply (proj1 (detectRelevantChanges_fails_open
                    (failingGate (JsError (str "boom"))) (prContext (str "main"))
                    [str "docs/**"] (JsError (str "boom")) emptyWorld)
             eq_refl
             {| pr_number := Some 7; pr_base_ref := Some (str "main") |} 7);
      try reflexivity.
    lia.
  - apply (proj2 (detectRelevantChanges_fails_open
                    (failingGate (JsError (str "boom"))) (pushContext (str "main"))
                    [str "docs/**"] (JsError (str "boom")) emptyWorld));
      reflexivity.
Defined.

End ChangeDetection.

(** ** The retry executor *)

Section RetryExecutor.
Import Js Errors Notions Samples.

Lemma attempts_record (e : Event) (w : World) :
  attempts (record e w)
  = (attempts w + (if isOperationCalled e then 1 else 0))%nat.
Proof.
  unfold attempts, record. cbn [trace].
  rewrite List.filter_app, length_app. cbn [List.filter].
  destruct (isOperationCalled e); reflexivity.
Qed.

Lemma attempts_recordAll (es : list Event) (w : World) :
  attempts (recordAll es w)
  = (attempts w + length (List.filter isOperationCalled es))%nat.
Proof.
  revert w. induction es as [|e es IH]; intros w; cbn [recordAll fold_left].
  - simpl. lia.
  - fold (recordAll es (record e w)). rewrite IH, attempts_record.
    cbn [List.filter]. destruct (isOperationCalled e); simpl; lia.
Qed.

Lemma scripted_run {R} (script : nat -> Result R) (w : World) :
  scripted script w = (script (attempts w), record OperationCalled w).
Proof.
  unfold scripted, bind, emit, lift. reflexivity.
Qed.

Lemma errorItems_run (items : list (list N)) (w : World) :
  errorItems items w
  = (Ok tt, recordAll (List.map (fun item => CoreError (str "- " ++ item)) items) w).
Proof.
  revert w. induction items as [|item items IH]; intros w; [reflexivity|].
  cbn [errorItems List.map recordAll fold_left]. unfold bind, emit.
  apply IH.
Qed.

Lemma diagnostics_no_attempt (attempt maxRetries : Z) (err : ActionableError) :
  List.filter isOperationCalled (diagnostics attempt maxRetries err) = [].
Proof.
  unfold diagnostics. cbn [app List.filter isOperationCalled].
  induction (actionItems err) as [|i l IH]; [reflexivity|exact IH].
Qed.

Lemma recordAll_app (es fs : list Event) (w : World) :
  recordAll (es ++ fs) w = recordAll fs (recordAll es w).
Proof. unfold recordAll. apply fold_left_app. Qed.

Section Steps.
Context {R : Type} (script : nat -> Result R) (mapError : Thrown -> ActionableError).
Variables (maxRetries base maxDelay : Z) (n : nat) (attempt : Z).
Variables (last : option ActionableError) (w : World).

Let loop := retryLoop (scripted script) mapError maxRetries base maxDelay timerSleep.

(** One pass of the loop, when the call succeeds. *)
Lemma retryLoop_success (v : R) :
  script (attempts w) = Ok v ->
  loop (S n) attempt last w = (Ok v, record OperationCalled w).
Proof.
  intros H. unfold loop. cbn [retryLoop]. unfold tryCatch.
  rewrite (scripted_run script w), H. reflexivity.
Qed.

(** One pass of the loop, when the call fails and is retried. *)
Lemma retryLoop_retry (e : Thrown) :
  script (attempts w) = Throw e ->
  retryable (mapError e) = true ->
  (attempt =? maxRetries) = false ->
  let delayMs := Z.min maxDelay (2 ^ attempt * base) in
  loop (S n) attempt last w
  = loop n (attempt + 1) (Some (mapError e))
         (recordAll [OperationCalled; retryNotice delayMs attempt maxRetries;
                     Slept delayMs] w).
Proof.
  intros H Hr Hl delayMs. unfold loop. cbn [retryLoop]. unfold tryCatch.
  rewrite (scripted_run script w), H, Hr, Hl. reflexivity.
Qed.

(** One pass of the loop, when the call fails for good. *)
Lemma retryLoop_give_up (e : Thrown) :
  script (attempts w) = Throw e ->
  negb (retryable (mapError e)) || (attempt =? maxRetries) = true ->
  loop (S n) attempt last w
  = (Throw e,
     recordAll (OperationCalled :: diagnostics attempt maxRetries (mapError e)) w).
Proof.
  intros H Hstop. unfold loop. cbn [retryLoop]. unfold tryCatch.
  rewrite (scripted_run script w), H, Hstop.
  unfold bind, emit. rewrite errorItems_run. unfold throw.
  change (OperationCalled :: diagnostics attempt maxRetries (mapError e))
    with ([OperationCalled] ++ diagnostics attempt maxRetries (mapError e)).
  rewrite recordAll_app. unfold diagnostics. rewrite recordAll_app.
  reflexivity.
Qed.

End Steps.

(** C3.  With [maxRetries = 3] (given as the number, or by default): an
    operation that fails twice with errors classified as retryable and then
    succeeds is called three times, with pauses of 2000 ms and 4000 ms, and
    its value is returned; an operation whose first error is classified as
    not retryable is called once, the diagnostics are logged and that very
    error is thrown. *)
Theorem executeWithRetry_attempts {R : Type}
    (script : nat -> Result R) (mapError : Thrown -> ActionableError)
    (options : option (Z + RetryOptions)) (w : World) :
  options = None \/ options = Some (inl 3) ->
  (forall e1 e2 v,
     script (attempts w) = Throw e1 -> retryable (mapError e1) = true ->
     script (S (attempts w)) = Throw e2 -> retryable (mapError e2) = true ->
     script (S (S (attempts w))) = Ok v ->
     let w' := recordAll [OperationCalled; retryNotice 2000 1 3; Slept 2000;
                          OperationCalled; retryNotice 4000 2 3; Slept 4000;
                          OperationCalled] w in
     executeWithRetry (scripted script) mapError options w = (Ok v, w')
     /\ attempts w' = (attempts w + 3)%nat)
  /\
  (forall e,
     script (attempts w) = Throw e -> retryable (mapError e) = false ->
     let w' := recordAll (OperationCalled :: diagnostics 1 3 (mapError e)) w in
     executeWithRetry (scripted script) mapError options w = (Throw e, w')
     /\ attempts w' = (attempts w + 1)%nat).
Proof.
  intros Hopt.
  assert (Hrun : executeWithRetry (scripted script) mapError options
                 = retryLoop (scripted script) mapError 3 1000 30000 timerSleep
                             3 1 None)
    by (destruct Hopt; subst; reflexivity).
  split.
  - intros e1 e2 v H1 R1 H2 R2 H3 w'. split.
    + rewrite Hrun.
      rewrite (retryLoop_retry script mapError 3 1000 30000 2 1 None w e1 H1 R1 eq_refl).
      set (w1 := recordAll _ w).
      assert (A1 : attempts w1 = S (attempts w))
        by (unfold w1; rewrite attempts_recordAll; simpl; lia).
      rewrite <- A1 in H2.
      rewrite (retryLoop_retry script mapError 3 1000 30000 1 (1 + 1)
                 (Some (mapError e1)) w1 e2 H2 R2 eq_refl).
      set (w2 := recordAll _ w1).
      assert (A2 : attempts w2 = S (S (attempts w)))
        by (unfold w2; rewrite attempts_recordAll, A1; simpl; lia).
      rewrite <- A2 in H3.
      rewrite (retryLoop_success script mapError 3 1000 30000 0 (1 + 1 + 1)
                 (Some (mapError e2)) w2 v H3).
      reflexivity.
    + subst w'. rewrite attempts_recordAll. reflexivity.
  - intros e H1 R1 w'. split.
    + rewrite Hrun.
      apply (retryLoop_give_up script mapError 3 1000 30000 2 1 None w e H1).
      rewrite R1. reflexivity.
    + subst w'. rewrite attempts_recordAll. cbn [List.filter isOperationCalled].
      rewrite diagnostics_no_attempt. simpl. lia.
Qed.

Lemma executeWithRetry_attempts_witness :
  (let w' := recordAll [OperationCalled; retryNotice 2000 1 3; Slept 2000;
                        OperationCalled; retryNotice 4000 2 3; Slept 4000;
                        OperationCalled] emptyWorld in
   executeWithRetry (scripted flakyScript) handleVercel (Some (inl 3)) emptyWorld
   = (Ok 42, w')
   /\ attempts w' = 3%nat)
  /\
  (let w' := recordAll
               (OperationCalled
                :: diagnostics 1 3 (handleVercel (JsError (str "Project not found"))))
               emptyWorld in
   executeWithRetry (scripted brokenScript) handleVercel None emptyWorld
   = (Throw (JsError (str "Project not found")), w')
   /\ attempts w' = 1%nat).
Proof.
  split.
  - apply (proj1 (executeWithRetry_attempts flakyScript handleVercel
                    (Some (inl 3)) emptyWorld (or_intror eq_refl))
             (JsError (str "transient")) (JsError (str "still transient")) 42);
      reflexivity.
  - apply (proj2 (executeWithRetry_attempts brokenScript handleVercel
                    None emptyWorld (or_introl eq_refl))
             (JsError (str "Project not found")));
      reflexivity.
Defined.

End RetryExecutor.

(** ** The deployment step *)

Section DeploymentStep.
Import Js Deployment Notions Samples.

(** C10.  When the Vercel token, the project id or the org id is empty,
    [performVercelDeployment] returns [undefined] and does nothing else: the
    world is unchanged, so no deployment is attempted, no deployment record
    is created and no failure is reported. *)
Theorem performVercelDeployment_skips_without_credentials
    (inputs : Inputs) (pf : VercelClient.Platform) (octokit : Octokit)
    (ctx : Context) (w : World) :
  vercelToken inputs = [] \/ vercelProjectId inputs = []
  \/ vercelOrgId inputs = [] ->
  performVercelDeployment inputs pf octokit ctx w = (Ok None, w).
Proof.
  intros H. unfold performVercelDeployment.
  destruct H as [H | [H | H]]; rewrite H; cbn [truthy negb orb].
  - reflexivity.
  - rewrite orb_true_r. reflexivity.
  - rewrite orb_true_r. reflexivity.
Qed.

Lemma performVercelDeployment_skips_without_credentials_witness :
  performVercelDeployment noVercelInputs samplePlatform sampleOctokit
    (pushContext (str "main")) emptyWorld
  = (Ok None, emptyWorld).
Proof.
  apply (performVercelDeployment_skips_without_credentials
           noVercelInputs samplePlatform sampleOctokit
           (pushContext (str "main")) emptyWorld).
  left. reflexivity.
Defined.

End DeploymentStep.

(** ** The Vercel client *)

Section TraceGrowth.
Import Js VercelClient Notions.











End TraceGrowth.

Section VercelClientFacts.
Import Js VercelClient Notions Samples.

(** The collision of the sample run: the commit sha of the environment is
    [abc123], the extra arguments say [override], and [override] is sent. *)
Example deployMeta_collision :
  parseMetaArgs (vercelArgs canaryOptions) !! str "githubCommitSha"
  = Some (str "override")
  /\ deployMeta canaryOptions canaryEnv !! str "githubCommitSha"
     = Some (str "override")
  /\ deployMeta canaryOptions canaryEnv !! str "githubCommitRef"
     = Some (str "canary").
Proof. repeat split; vm_compute; reflexivity. Qed.

Lemma requestsSent_record_https (request : HttpsRequest) (w : World) :
  requestsSent (record (Https request) w) = S (requestsSent w).
Proof.
  unfold requestsSent, record. cbn [trace].
  rewrite List.filter_app, length_app. simpl. lia.
Qed.

Lemma firstCanonical_none_unassigned (pf : Platform) (options : VercelDeployOptions)
    (deploymentId : option (list N)) (domains : list (list N)) :
  (forall k d, aliasAssigned pf options deploymentId k d = false) ->
  forall k, firstCanonical pf options deploymentId k domains = None.
Proof.
  intros Hno. induction domains as [|d ds IH]; intros k; cbn [firstCanonical].
  - reflexivity.
  - rewrite Hno, andb_false_r. apply IH.
Qed.

(** The loop when a path component of the alias requests cannot be encoded:
    every pass fails before a request is sent. *)
Lemma aliasLoop_unencodable (pf : Platform) (options : VercelDeployOptions)
    (i : list N) (domains : list (list N)) (url : list N) (canonicalSet : bool)
    (w : World) :
  (forall idPart teamPart,
     ~ (encodeURIComponent pf i = Ok idPart
        /\ encodeURIComponent pf (orgId options) = Ok teamPart)) ->
  aliasLoop pf options i domains url canonicalSet w = (Ok url, w)
  /\ forall k d, aliasAssigned pf options (Some i) k d = false.
Proof.
  intros Hbad. split.
  - induction domains as [|d ds IH]; cbn [aliasLoop]; [reflexivity|].
    unfold bind at 1, tryCatch at 1, bind at 1, assignAlias at 1.
    unfold bind at 1, lift at 1.
    destruct (encodeURIComponent pf i) as [idPart|e1] eqn:E1.
    + unfold bind at 1, lift at 1.
      destruct (encodeURIComponent pf (orgId options)) as [teamPart|e2] eqn:E2.
      * exfalso. apply (Hbad idPart teamPart). split; reflexivity.
      * cbn [ret andb]. exact IH.
    + cbn [ret andb]. exact IH.
  - intros k d. unfold aliasAssigned.
    destruct (encodeURIComponent pf i) as [idPart|e1] eqn:E1;
      [|apply andb_false_r].
    destruct (encodeURIComponent pf (orgId options)) as [teamPart|e2] eqn:E2;
      [|apply andb_false_r].
    exfalso. apply (Hbad idPart teamPart). split; reflexivity.
Qed.

(** The sample run: [localhost] is assigned but has no dot, the assignment
    of [x.example.com] fails, and [canary.example.com] (the template with the
    branch filled in) becomes the canonical URL although [z.example.com] is
    assigned after it. *)
Example deployToVercel_sample_run :
  allAliases canaryOptions canaryEnv
  = [str "localhost"; str "x.example.com"; str "canary.example.com";
     str "z.example.com"]
  /\ fst (deployToVercel samplePlatform canaryOptions canaryWorld)
     = Ok {| url := str "https://canary.example.com"; id := Some (str "dpl_1") |}
  /\ requestsSent (snd (deployToVercel samplePlatform canaryOptions canaryWorld))
     = 5%nat.
Proof. repeat split; vm_compute; reflexivity. Qed.

(** The example of the specification: two candidates, both assigned. *)
Example firstCanonical_both_assigned :
  fst (aliasLoop samplePlatform canaryOptions (str "dpl_1")
         [str "y.example.com"; str "z.example.com"]
         (str "https://c15t-abc.vercel.app") false canaryWorld)
  = Ok (str "https://y.example.com").
Proof. vm_compute. reflexivity. Qed.

End VercelClientFacts.

(** ** The sticky comment: markers *)

Section Markers.
Import Js PrComment JsFacts.

Lemma prefix_lookup_drop (p s : list N) (k j : nat) (y : N) :
  p `prefix_of` drop k s -> p !! j = Some y -> s !! (k + j)%nat = Some y.
Proof.
  intros Hp Hj. rewrite <- lookup_drop. by eapply prefix_lookup_Some.
Qed.

Lemma prefix_within (p a b : list N) :
  p `prefix_of` a ++ b -> (length p <= length a)%nat -> p `prefix_of` a.
Proof.
  intros [r Hr] Hlen. exists (drop (length p) a).
  rewrite <- (take_drop (length p) a) at 1. f_equal.
  assert (H : take (length p) (a ++ b) = take (length p) (p ++ r)) by by rewrite Hr.
  rewrite take_app_le in H by exact Hlen.
  rewrite take_app_le, firstn_all in H by lia. exact H.
Qed.

Lemma autoEnd_lookup_first (header : list N) :
  autoEnd header !! 0%nat = Some 60%N.
Proof. reflexivity. Qed.

Lemma autoStart_length (header : list N) :
  length (autoStart header) = (length (autoEnd header) + 2)%nat.
Proof. unfold autoStart, autoEnd. rewrite !length_app. simpl. lia. Qed.

Lemma autoEnd_lookup_E (header : list N) :
  autoEnd header !! (11 + length (headerKey header))%nat = Some 69%N.
Proof.
  unfold autoEnd.
  rewrite lookup_app_r by (simpl; lia).
  rewrite lookup_app_r by (simpl; lia).
  replace (11 + length (headerKey header) - length (str "<!-- c15t:")
           - length (headerKey header))%nat with 1%nat by (simpl; lia).
  reflexivity.
Qed.

Lemma autoStart_lookup_S (header : list N) :
  autoStart header !! (11 + length (headerKey header))%nat = Some 83%N.
Proof.
  unfold autoStart.
  rewrite lookup_app_r by (simpl; lia).
  rewrite lookup_app_r by (simpl; lia).
  replace (11 + length (headerKey header) - length (str "<!-- c15t:")
           - length (headerKey header))%nat with 1%nat by (simpl; lia).
  reflexivity.
Qed.

Lemma autoEnd_no_newline (header : list N) :
  10%N ∉ headerKey header -> 10%N ∉ autoEnd header.
Proof.
  intros Hk. unfold autoEnd. rewrite !elem_of_app. intros [H | [H | H]].
  - revert H. apply (bool_decide_unpack _). vm_compute. exact I.
  - by apply Hk.
  - revert H. apply (bool_decide_unpack _). vm_compute. exact I.
Qed.

(** An occurrence of a string without line breaks does not cover a line
    break. *)
Lemma occurrence_avoids_newline (p s : list N) (k m : nat) :
  10%N ∉ p -> p `prefix_of` drop k s -> s !! m = Some 10%N ->
  (k <= m)%nat -> (m < k + length p)%nat -> False.
Proof.
  intros Hp Hocc Hm Hkm Hmk.
  destruct (lookup_lt_is_Some_2 p (m - k)%nat ltac:(lia)) as [y Hy].
  pose proof (prefix_lookup_drop p s k (m - k) y Hocc Hy) as H.
  replace (k + (m - k))%nat with m in H by lia.
  rewrite Hm in H. injection H as <-.
  apply Hp. by eapply list_elem_of_lookup_2.
Qed.

(** In a freshly wrapped body the first end marker is the closing one. *)
Lemma indexOf_autoEnd_wrapped (b header : list N) :
  10%N ∉ headerKey header ->
  includes b (autoEnd header) = false ->
  indexOf (bodyWithHeader b header) (autoEnd header)
  = len (autoStart header ++ newline ++ b ++ newline).
Proof.
  intros Hkey Hb. unfold bodyWithHeader.
  set (start := autoStart header). set (end_ := autoEnd header).
  replace (start ++ newline ++ b ++ newline ++ end_)
    with ((start ++ newline ++ b ++ newline) ++ end_)
    by (by rewrite <- !app_assoc).
  apply indexOf_after. intros k Hk Hocc.
  set (full := (start ++ newline ++ b ++ newline) ++ end_) in *.
  pose proof (autoEnd_no_newline header Hkey) as Hnl. fold end_ in Hnl.
  pose proof (autoStart_length header) as Hlen. fold start end_ in Hlen.
  assert (Hm1 : full !! length start = Some 10%N).
  { unfold full. rewrite <- !app_assoc.
    rewrite lookup_app_r by lia. rewrite Nat.sub_diag. reflexivity. }
  assert (Hm2 : full !! (length start + 1 + length b)%nat = Some 10%N).
  { unfold full. rewrite <- !app_assoc.
    rewrite lookup_app_r by lia.
    replace (length start + 1 + length b - length start)%nat
      with (S (length b)) by lia.
    change ((newline ++ b ++ newline ++ end_) !! S (length b))
      with ((b ++ newline ++ end_) !! length b).
    rewrite lookup_app_r by lia. rewrite Nat.sub_diag. reflexivity. }
  rewrite !length_app in Hk. cbn [newline length] in Hk.
  assert (Hend : (18 <= length end_)%nat)
    by (unfold end_, autoEnd; rewrite !length_app; simpl; lia).
  destruct (decide (k <= length start)%nat) as [Hle | Hgt].
  - destruct (decide (length start < k + length end_)%nat) as [Hcov | Hin].
    + exact (occurrence_avoids_newline end_ full k (length start)
               Hnl Hocc Hm1 Hle Hcov).
    + (* the occurrence lies inside the start marker: k is 0, 1 or 2 *)
      assert (Hstart : forall j y, (k + j < length start)%nat ->
                end_ !! j = Some y -> start !! (k + j)%nat = Some y).
      { intros j y Hj Hy.
        pose proof (prefix_lookup_drop end_ full k j y Hocc Hy) as H.
        unfold full in H. rewrite <- !app_assoc in H.
        by rewrite lookup_app_l in H by lia. }
      destruct k as [|[|[|k]]]; [| | |lia].
      * assert (H : start !! (0 + (11 + length (headerKey header)))%nat = Some 69%N).
        { apply Hstart; [|apply autoEnd_lookup_E].
          unfold end_, autoEnd in Hlen. rewrite !length_app in Hlen.
          simpl in Hlen. simpl. lia. }
        unfold start in H. rewrite Nat.add_0_l, autoStart_lookup_S in H.
        discriminate H.
      * pose proof (Hstart 0%nat 60%N ltac:(lia) (autoEnd_lookup_first header)) as H.
        discriminate H.
      * pose proof (Hstart 0%nat 60%N ltac:(lia) (autoEnd_lookup_first header)) as H.
        discriminate H.
  - destruct (decide (length start + 1 + length b < k + length end_)%nat)
      as [Hcov | Hin].
    + exact (occurrence_avoids_newline end_ full k (length start + 1 + length b)
               Hnl Hocc Hm2 ltac:(lia) Hcov).
    + (* the occurrence lies inside the body *)
      apply (includes_false_no_occurrence b end_ (k - length start - 1) Hb).
      assert (Hdrop : drop k full
                      = drop (k - length start - 1) b ++ newline ++ end_).
      { unfold full. rewrite <- !app_assoc.
        rewrite drop_app_ge by lia.
        change (newline ++ b ++ newline ++ end_)
          with ([10%N] ++ b ++ newline ++ end_).
        rewrite drop_app_ge by (change (length [10%N]) with 1%nat; lia).
        change (length [10%N]) with 1%nat.
        rewrite drop_app_le by lia.
        reflexivity. }
      rewrite Hdrop in Hocc.
      apply (prefix_within _ _ _ Hocc).
      rewrite length_drop. lia.
Qed.

End Markers.

(** ** The sticky comment: discovery and update *)

Section StickyComment.
Import Js PrComment Comments JsFacts Notions Samples.

Lemma orElse_Some (s : list N) : orElse (Some s) [] = s.
Proof. destruct s; reflexivity. Qed.

Lemma substring_middle (a m c : list N) :
  substring (a ++ m ++ c) (0 + len a) (len (a ++ m)) = m.
Proof.
  unfold substring, clamp, len. rewrite !length_app.
  set (la := length a). set (lm := length m). set (lc := length c).
  replace (Z.max 0 (Z.min (0 + Z.of_nat la) (Z.of_nat (la + (lm + lc)))))
    with (Z.of_nat la) by lia.
  replace (Z.max 0 (Z.min (Z.of_nat (la + lm)) (Z.of_nat (la + (lm + lc)))))
    with (Z.of_nat (la + lm)) by lia.
  replace (Z.min (Z.of_nat la) (Z.of_nat (la + lm))) with (Z.of_nat la) by lia.
  replace (Z.max (Z.of_nat la) (Z.of_nat (la + lm))) with (Z.of_nat (la + lm)) by lia.
  rewrite Nat2Z.id.
  replace (Z.to_nat (Z.of_nat (la + lm) - Z.of_nat la)) with lm by lia.
  unfold la, lm. by rewrite drop_app_length, take_app_length.
Qed.

Lemma includes_prefix (p s : list N) : includes (p ++ s) p = true.
Proof. unfold includes. rewrite indexOf_prefix. reflexivity. Qed.

Lemma find_app_first {A} (p : A -> bool) (l k : list A) :
  List.find p (l ++ k)
  = match List.find p l with
    | Some x => Some x
    | None => List.find p k
    end.
Proof.
  induction l as [|x l IH]; [reflexivity|]. simpl.
  destruct (p x); [reflexivity | exact IH].
Qed.

Lemma concat_pagesFrom (cs page : list IssueComment) (room : nat) :
  concat (pagesFrom cs page room) = rev page ++ cs.
Proof.
  revert page room. induction cs as [|c cs IH]; intros page room; simpl.
  - by rewrite !app_nil_r.
  - destruct room as [|room]; simpl.
    + rewrite IH. simpl. reflexivity.
    + rewrite IH. simpl. by rewrite <- app_assoc.
Qed.

Lemma concat_pages (cs : list IssueComment) : concat (pages cs) = cs.
Proof. unfold pages. by rewrite concat_pagesFrom. Qed.

Lemma recordAll_snoc (es : list Event) (e : Event) (w : World) :
  record e (recordAll es w) = recordAll (es ++ [e]) w.
Proof. unfold recordAll. by rewrite fold_left_app. Qed.

Lemma recordAll_cons (es : list Event) (e : Event) (w : World) :
  recordAll es (record e w) = recordAll (e :: es) w.
Proof. reflexivity. Qed.

Lemma trace_recordAll (es : list Event) (w : World) :
  trace (recordAll es w) = trace w ++ es.
Proof.
  revert w. induction es as [|e es IH]; intros w; simpl.
  - by rewrite app_nil_r.
  - unfold recordAll in *. simpl. rewrite IH. simpl.
    by rewrite <- app_assoc.
Qed.

Lemma comments_recordAll (es : list Event) (w : World) :
  comments (recordAll es w) = comments w.
Proof.
  revert w. induction es as [|e es IH]; intros w; [reflexivity|].
  unfold recordAll in *. simpl. by rewrite IH.
Qed.

Lemma env_recordAll (es : list Event) (w : World) :
  env (recordAll es w) = env w.
Proof.
  revert w. induction es as [|e es IH]; intros w; [reflexivity|].
  unfold recordAll in *. simpl. by rewrite IH.
Qed.

(** The scan of the pages finds the first target among all comments, and
    only queries. *)
Lemma scanPages_find (gh : GitHub) (number : Z) (header : list N)
    (authorLogin : option (list N)) (ps : list (list IssueComment)) :
  forall (after : option nat) (w : World),
  exists queries,
    forallb isQuery queries = true
    /\ scanPages gh number header authorLogin ps after w
       = (Ok (List.find
                (isTarget (normalizeLogin (match authorLogin with
                                           | Some a => Some a
                                           | None => viewer_login gh
                                           end))
                          (autoStart header))
                (concat ps)),
          recordAll queries w).
Proof.
  induction ps as [|nodes ps IH]; intros after w.
  - exists []. split; reflexivity.
  - cbn [scanPages concat]. rewrite find_app_first.
    unfold bind at 1, emit at 1.
    destruct (List.find _ nodes) as [target|].
    + exists [QueryComments number after]. split; reflexivity.
    + destruct (IH (Some (default 0%nat after + length nodes)%nat)
                   (record (QueryComments number after) w)) as (qs & Hqs & Hrun).
      exists (QueryComments number after :: qs). split.
      * simpl. exact Hqs.
      * rewrite Hrun. reflexivity.
Qed.

Lemma findPreviousComment_find (inputs : Inputs) (gh : GitHub) (number : Z)
    (w : World) :
  exists queries,
    forallb isQuery queries = true
    /\ findPreviousComment gh number (header inputs)
         (if truthy (authorLogin inputs) then Some (authorLogin inputs) else None) w
       = (Ok (stickyComment inputs gh (comments w)), recordAll queries w).
Proof.
  unfold findPreviousComment, bind at 1, getComments.
  destruct (scanPages_find gh number (header inputs)
              (if truthy (authorLogin inputs) then Some (authorLogin inputs) else None)
              (pages (comments w)) None w) as (qs & Hqs & Hrun).
  exists qs. split; [exact Hqs|].
  rewrite Hrun, concat_pages. unfold stickyComment, expectedLogin.
  destruct (truthy (authorLogin inputs)); reflexivity.
Qed.

Lemma closeDetails_truthy (s : list N) :
  truthy s = true -> truthy (closeDetails s) = true.
Proof.
  destruct s as [|c s]; [discriminate|]. intros _.
  unfold closeDetails. cbn [closeDetailsFrom].
  destruct (startsWith (c :: s) detailsTag); [|reflexivity].
  destruct (detailsTail _ _ _) as [[kept n]|]; reflexivity.
Qed.

Lemma hasAutoBlock_truthy (s : list N) : hasAutoBlock s = true -> truthy s = true.
Proof. destruct s; [discriminate | reflexivity]. Qed.

Lemma bodyWithHeader_inj (x y header : list N) :
  bodyWithHeader x header = bodyWithHeader y header -> x = y.
Proof.
  unfold bodyWithHeader. intros H.
  apply app_inv_head in H. apply app_inv_head in H.
  rewrite !app_assoc in H. apply app_inv_tail in H. by apply app_inv_tail in H.
Qed.

Lemma updateComment_run (gh : GitHub) (cid b header : list N)
    (previousBody : option (list N)) (w : World) :
  truthy b = true ->
  let new_body :=
    if truthyOpt previousBody
    then bodyWithHeader
           (bodyWithoutHeader (orElse previousBody []) header ++ newline ++ b) header
    else bodyWithHeader b header in
  updateComment gh cid b header previousBody w
  = (Ok tt, withComments (storeUpdate cid new_body (comments w))
                         (record (UpdateIssueComment cid new_body) w)).
Proof.
  intros Hb new_body. unfold updateComment. rewrite Hb. cbn [negb andb].
  subst new_body. destruct (truthyOpt previousBody); reflexivity.
Qed.

(** [ensureComment] when discovery finds a comment: the queries, the
    output, and then nothing (unchanged, or no id) or one update. *)
Lemma ensureComment_found (inputs : Inputs) (gh : GitHub) (b : list N)
    (options : option EnsureOptions) (w : World) (prev : IssueComment) :
  stickyComment inputs gh (comments w) = Some prev ->
  truthy b = true ->
  exists queries,
    forallb isQuery queries = true
    /\ ensureComment inputs gh b options w
       = let w1 := record (CoreSetOutput (str "previous_comment_id") (Some (id prev)))
                          (recordAll queries w) in
         if skipUnchanged inputs
            && commentsEqual b (Some (body prev)) (header inputs)
         then (Ok tt, w1)
         else if negb (truthy (id prev)) then (Ok tt, w1)
         else updateComment gh (id prev) b (header inputs)
                (getBodyOf (Some (body prev))
                   (appendRequested inputs options && hasAutoBlock (body prev))
                   (hideRequested inputs options)) w1.
Proof.
  intros Hfound Hb.
  destruct (findPreviousComment_find inputs gh (default 0 (pullRequestNumber inputs)) w)
    as (qs & Hqs & Hrun).
  exists qs. split; [exact Hqs|].
  unfold ensureComment. rewrite Hb. cbn [negb andb].
  unfold requireEffectiveBodyOrThrow. rewrite Hb. cbn [negb].
  unfold bind at 1, ret at 1. unfold bind at 1. rewrite Hrun, Hfound.
  unfold bind at 1, emit at 1. cbn [option_map].
  unfold bind at 1, createInitialCommentWhenMissing, ret at 1.
  unfold handleSkipUnchanged. rewrite !orElse_Some.
  cbv zeta.
  destruct (skipUnchanged inputs && commentsEqual b (Some (body prev)) (header inputs));
    [reflexivity|].
  fold (appendRequested inputs options). fold (hideRequested inputs options).
  fold (hasAutoBlock (body prev)).
  destruct (truthy (id prev)); cbn [negb]; [|reflexivity].
  unfold updateExistingComment.
  destruct (appendRequested inputs options), (hasAutoBlock (body prev));
    reflexivity.
Qed.

Lemma writes_record (e : Event) (w : World) :
  writes (record e w) = writes w ++ (if isWrite e then [e] else []).
Proof.
  unfold writes, record. cbn [trace]. rewrite List.filter_app. simpl.
  destruct (isWrite e); reflexivity.
Qed.

Lemma writes_queries (queries : list Event) (w : World) :
  forallb isQuery queries = true -> writes (recordAll queries w) = writes w.
Proof.
  revert w. induction queries as [|q qs IH]; intros w Hq; [reflexivity|].
  simpl in Hq. apply andb_true_iff in Hq as [Hq Hqs].
  change (recordAll (q :: qs) w) with (recordAll qs (record q w)).
  rewrite IH by exact Hqs. rewrite writes_record.
  destruct q; try discriminate. simpl. by rewrite app_nil_r.
Qed.

(** C1, as the code has it.  When discovery finds a comment (with an id)
    whose content is not skipped as unchanged and the caller asks to append,
    [ensureComment] makes exactly one update.  The new body is the appended
    one (the previous inner content, a line break and the new body, wrapped
    in the markers) if and only if the previous body contains both literals
    [AUTO_COMMENT_START] and [AUTO_COMMENT_END]; otherwise it is the new
    body alone, wrapped.  The two bodies always differ.  With the
    hide-details option the previous body first has its open [details] tags
    closed. *)
Theorem ensureComment_append_trigger
    (inputs : Inputs) (gh : GitHub) (b : list N)
    (options : option EnsureOptions) (w : World) (prev : IssueComment) :
  stickyComment inputs gh (comments w) = Some prev ->
  truthy b = true ->
  truthy (id prev) = true ->
  skipUnchanged inputs && commentsEqual b (Some (body prev)) (header inputs) = false ->
  appendRequested inputs options = true ->
  let old := if hideRequested inputs options
             then closeDetails (body prev) else body prev in
  let appended :=
    bodyWithHeader (bodyWithoutHeader old (header inputs) ++ newline ++ b)
                   (header inputs) in
  let replaced := bodyWithHeader b (header inputs) in
  let new_body := if hasAutoBlock (body prev) then appended else replaced in
  appended <> replaced
  /\ exists queries,
       forallb isQuery queries = true
       /\ ensureComment inputs gh b options w
          = (Ok tt,
             withComments (storeUpdate (id prev) new_body (comments w))
               (recordAll
                  (queries
                   ++ [CoreSetOutput (str "previous_comment_id") (Some (id prev));
                       UpdateIssueComment (id prev) new_body]) w)).
Proof.
  intros Hfound Hb Hid Hskip Happend old appended replaced new_body.
  split.
  - intros Heq. apply bodyWithHeader_inj in Heq.
    apply (f_equal (@length N)) in Heq. rewrite !length_app in Heq.
    simpl in Heq. lia.
  - destruct (ensureComment_found inputs gh b options w prev Hfound Hb)
      as (qs & Hqs & Hrun).
    exists qs. split; [exact Hqs|].
    rewrite Hrun. cbv zeta. rewrite Hskip, Hid, Happend. cbn [negb andb].
    rewrite updateComment_run by exact Hb. cbv zeta.
    rewrite recordAll_app. cbn [recordAll fold_left].
    fold (recordAll qs w).
    assert (Hnew :
      (if truthyOpt (getBodyOf (Some (body prev)) (hasAutoBlock (body prev))
                       (hideRequested inputs options))
       then bodyWithHeader
              (bodyWithoutHeader
                 (orElse (getBodyOf (Some (body prev)) (hasAutoBlock (body prev))
                            (hideRequested inputs options)) [])
                 (header inputs) ++ newline ++ b) (header inputs)
       else bodyWithHeader b (header inputs)) = new_body).
    { subst new_body appended replaced old. unfold getBodyOf.
      destruct (hasAutoBlock (body prev)) eqn:Hauto; cbn [negb]; [|reflexivity].
      pose proof (hasAutoBlock_truthy _ Hauto) as Htruthy.
      cbn [truthyOpt]. rewrite Htruthy. cbn [negb orb].
      destruct (hideRequested inputs options); cbn [negb orb option_map truthyOpt].
      - rewrite (closeDetails_truthy _ Htruthy), orElse_Some. reflexivity.
      - rewrite Htruthy, orElse_Some. reflexivity. }
    rewrite Hnew.
    unfold withComments, record. cbn [trace env comments].
    rewrite comments_recordAll. reflexivity.
Qed.

Lemma ensureComment_append_trigger_witness :
  let appended :=
    bodyWithHeader (bodyWithoutHeader (body previousAuto) [] ++ newline ++ str "B") [] in
  let replaced := bodyWithHeader (str "B") [] in
  appended <> replaced
  /\ exists queries,
       forallb isQuery queries = true
       /\ ensureComment stickyInputs botGitHub (str "B") appendOn (worldWith previousAuto)
          = (Ok tt,
             withComments (storeUpdate (str "IC_1") appended [previousAuto])
               (recordAll
                  (queries
                   ++ [CoreSetOutput (str "previous_comment_id") (Some (str "IC_1"));
                       UpdateIssueComment (str "IC_1") appended])
                  (worldWith previousAuto))).
Proof.
  apply (ensureComment_append_trigger stickyInputs botGitHub (str "B") appendOn
           (worldWith previousAuto) previousAuto);
    vm_compute; reflexivity.
Defined.

(** C1, as the specification words it, fails in both directions.  The
    previous comment [previousA] contains the marker pair of the run, append
    is requested, and the update replaces: the content [A] is lost.  The
    previous comment [previousAuto] lacks the end marker of the run, and the
    update appends (to an empty inner content). *)
Lemma ensureComment_marker_pair_is_not_the_trigger :
  (hasMarkerPair [] (body previousA) = true
   /\ writes (snd (ensureComment stickyInputs botGitHub (str "B") appendOn
                     (worldWith previousA)))
      = [UpdateIssueComment (str "IC_1") (bodyWithHeader (str "B") [])]
   /\ bodyWithHeader (str "B") []
      <> bodyWithHeader (str "A" ++ newline ++ str "B") [])
  /\
  (hasMarkerPair [] (body previousAuto) = false
   /\ writes (snd (ensureComment stickyInputs botGitHub (str "B") appendOn
                     (worldWith previousAuto)))
      = [UpdateIssueComment (str "IC_1")
           (bodyWithHeader ([] ++ newline ++ str "B") [])]
   /\ bodyWithHeader ([] ++ newline ++ str "B") [] <> bodyWithHeader (str "B") []).
Proof.
  repeat split; try (vm_compute; reflexivity);
    intros H; apply bodyWithHeader_inj in H; discriminate H.
Qed.

(** The append of [updateComment] itself, as its unit test has it. *)
Example updateComment_appends :
  writes (snd (updateComment botGitHub (str "IC_1") (str "B") []
                 (Some (body previousA)) (worldWith previousA)))
  = [UpdateIssueComment (str "IC_1")
       (bodyWithHeader (str "A" ++ newline ++ str "B") [])].
Proof. vm_compute. reflexivity. Qed.

Lemma find_storeUpdate (p : IssueComment -> bool) (prev : IssueComment)
    (new_body : list N) (cs : list IssueComment) :
  (forall c, p c = true ->
     p {| id := id c; author_login := author_login c;
          isMinimized := isMinimized c; body := new_body |} = true) ->
  List.find p cs = Some prev ->
  exists found,
    List.find p (storeUpdate (id prev) new_body cs) = Some found
    /\ body found = new_body /\ id found = id prev.
Proof.
  intros Hp. induction cs as [|c cs IH]; [discriminate|].
  cbn [List.find storeUpdate List.map]. fold (storeUpdate (id prev) new_body cs).
  destruct (p c) eqn:Hc.
  - intros [= ->]. rewrite bool_decide_eq_true_2 by reflexivity.
    cbn [List.find]. rewrite (Hp prev Hc). eexists. repeat split.
  - intros Hfind. destruct (bool_decide (id c = id prev)) eqn:Hid.
    + cbn [List.find].
      destruct (p {| id := id c; author_login := author_login c;
                     isMinimized := isMinimized c; body := new_body |}).
      * eexists. repeat split. cbn [id]. by apply bool_decide_eq_true in Hid.
      * by apply IH.
    + cbn [List.find]. rewrite Hc. by apply IH.
Qed.

End StickyComment.

(* ===================================================================== *)
(** * Further properties of the code                                      *)
(* ===================================================================== *)

(** ** Strings: [trim] and [split] *)

Module TrimFacts.
Import Js JsFacts.

Lemma dropWhile_idem (f : N -> bool) (s : list N) :
  dropWhile f (dropWhile f s) = dropWhile f s.
Proof.
  induction s as [|c s IH]; [reflexivity|]. simpl.
  destruct (f c) eqn:E; [exact IH|]. simpl. by rewrite E.
Qed.

Lemma dropWhile_all (f : N -> bool) (s : list N) :
  forallb f s = true -> dropWhile f s = [].
Proof.
  induction s as [|c s IH]; [reflexivity|]. simpl.
  intros H. apply andb_true_iff in H as [Hc Hs]. rewrite Hc. by apply IH.
Qed.

Lemma dropWhile_In (f : N -> bool) (s : list N) (x : N) :
  In x (dropWhile f s) -> In x s.
Proof.
  induction s as [|c s IH]; [done|]. simpl.
  destruct (f c); [right; by apply IH | done].
Qed.

Lemma dropWhile_head (f : N -> bool) (s : list N) (c : N) (t : list N) :
  dropWhile f s = c :: t -> f c = false.
Proof.
  induction s as [|d s IH]; [discriminate|]. simpl.
  destruct (f d) eqn:E; [exact IH|]. by intros [= <- _].
Qed.

Lemma dropWhile_fixed (f : N -> bool) (c : N) (t : list N) :
  f c = false -> dropWhile f (c :: t) = c :: t.
Proof. intros H. simpl. by rewrite H. Qed.

Lemma trimEnd_snoc_space (s : list N) (c : N) :
  isSpace c = true -> trimEnd (s ++ [c]) = trimEnd s.
Proof. intros H. unfold trimEnd. rewrite rev_app_distr. simpl. by rewrite H. Qed.

Lemma trimEnd_snoc_keep (s : list N) (c : N) :
  isSpace c = false -> trimEnd (s ++ [c]) = s ++ [c].
Proof.
  intros H. unfold trimEnd. rewrite rev_app_distr. simpl. rewrite H.
  simpl. by rewrite rev_involutive.
Qed.

Lemma trimEnd_idem (s : list N) : trimEnd (trimEnd s) = trimEnd s.
Proof. unfold trimEnd. by rewrite rev_involutive, dropWhile_idem. Qed.

(** Stripping at the end of a string that has nothing to strip at its
    start leaves nothing to strip at the start. *)
Lemma dropWhile_rev_dropWhile (f : N -> bool) (s : list N) :
  dropWhile f s = s ->
  dropWhile f (rev (dropWhile f (rev s))) = rev (dropWhile f (rev s)).
Proof.
  induction s as [|x s IH] using rev_ind; [reflexivity|]. intros H.
  rewrite rev_app_distr. cbn [rev app dropWhile].
  destruct (f x) eqn:E.
  - apply IH.
    destruct s as [|y s]; [reflexivity|].
    simpl in *.
    destruct (f y) eqn:Ey; [|reflexivity].
    exfalso. pose proof (dropWhile_length f (s ++ [x])) as Hlen.
    rewrite H in Hlen. simpl in Hlen. lia.
  - cbn [rev]. rewrite rev_involutive. exact H.
Qed.

Lemma trimStart_trimEnd (s : list N) :
  trimStart s = s -> trimStart (trimEnd s) = trimEnd s.
Proof. apply dropWhile_rev_dropWhile. Qed.

Lemma trim_idem (s : list N) : trim (trim s) = trim s.
Proof.
  unfold trim.
  rewrite (trimStart_trimEnd (trimStart s)) by apply dropWhile_idem.
  apply trimEnd_idem.
Qed.

Lemma trim_In (s : list N) (x : N) : In x (trim s) -> In x s.
Proof.
  unfold trim, trimEnd, trimStart. intros H.
  apply in_rev in H. apply dropWhile_In in H. apply in_rev in H.
  by apply dropWhile_In in H.
Qed.

Lemma trim_all_space (s : list N) : forallb isSpace s = true -> trim s = [].
Proof.
  intros H. unfold trim, trimStart. by rewrite dropWhile_all.
Qed.

Lemma dropWhile_snoc_space (s : list N) (c : N) :
  isSpace c = true ->
  dropWhile isSpace (s ++ [c])
  = match dropWhile isSpace s with
    | [] => []
    | t => t ++ [c]
    end.
Proof.
  intros H. induction s as [|d s IH]; simpl.
  - by rewrite H.
  - destruct (isSpace d); [exact IH | reflexivity].
Qed.

(** [trim] of a text between two line breaks. *)
Lemma trim_between_newlines (s : list N) : trim ([10%N] ++ s ++ [10%N]) = trim s.
Proof.
  unfold trim, trimStart.
  change (dropWhile isSpace ([10%N] ++ s ++ [10%N]))
    with (dropWhile isSpace (s ++ [10%N])).
  rewrite dropWhile_snoc_space by reflexivity.
  destruct (dropWhile isSpace s) as [|c t]; [reflexivity|].
  by rewrite trimEnd_snoc_space.
Qed.

Lemma orElse_Some_truthy (s d : list N) : truthy s = true -> orElse (Some s) d = s.
Proof. intros H. unfold orElse. by rewrite H. Qed.

Lemma split_no_sep (s : list N) (sep : N) :
  Forall (fun w => ~ In sep w) (split s sep).
Proof.
  induction s as [|c s IH]; simpl.
  - constructor; [intros []|constructor].
  - destruct (N.eqb c sep) eqn:E.
    + constructor; [intros []|exact IH].
    + destruct (split s sep) as [|w ws].
      * constructor; [|constructor]. intros [-> | []].
        by rewrite N.eqb_refl in E.
      * inversion IH as [|? ? Hw Hws]; subst. constructor; [|exact Hws].
        intros [-> | Hin]; [by rewrite N.eqb_refl in E | by apply Hw].
Qed.

Lemma split_pieces_of (P : N -> bool) (s : list N) (sep : N) :
  forallb (fun c => N.eqb c sep || P c) s = true ->
  Forall (fun w => forallb P w = true) (split s sep).
Proof.
  induction s as [|c s IH]; simpl.
  - intros _. constructor; [reflexivity|constructor].
  - intros H. apply andb_true_iff in H as [Hc Hs]. specialize (IH Hs).
    destruct (N.eqb c sep) eqn:E.
    + constructor; [reflexivity|exact IH].
    + simpl in Hc. destruct (split s sep) as [|w ws].
      * constructor; [|constructor]. simpl. by rewrite Hc.
      * inversion IH as [|? ? Hw Hws]; subst. constructor; [|exact Hws].
        simpl. by rewrite Hc, Hw.
Qed.

End TrimFacts.

(** ** The allowlists of the policy gate *)

Section Allowlists.
Import Js Changes JsFacts TrimFacts Samples.

(** X1.  A non-empty allowlist input is read into entries that are never
    empty, carry no surrounding white space and contain no comma. *)
Theorem parseCsv_entries_clean (input : list N) (fallback : list (list N))
    (x : list N) :
  truthy input = true ->
  x ∈ parseCsv (Some input) fallback ->
  x <> [] /\ trim x = x /\ 44%N ∉ x.
Proof.
  intros Hin Hx. unfold parseCsv in Hx. cbn [truthyOpt] in Hx.
  rewrite Hin in Hx. cbn [negb] in Hx.
  apply list_elem_of_In, filter_In in Hx as [Hx Ht].
  apply in_map_iff in Hx as (piece & <- & Hpiece).
  repeat split.
  - intros E. rewrite E in Ht. discriminate.
  - apply trim_idem.
  - rewrite list_elem_of_In. intros H. apply trim_In in H.
    pose proof (split_no_sep (orElse (Some input) []) 44) as Hsep.
    rewrite Forall_forall in Hsep. apply (Hsep piece); [|exact H].
    by apply list_elem_of_In.
Qed.

Lemma parseCsv_entries_clean_witness :
  str "canary" <> [] /\ trim (str "canary") = str "canary"
  /\ 44%N ∉ str "canary".
Proof.
  apply (parseCsv_entries_clean (str " main , canary,,") defaultBranches
           (str "canary")).
  - reflexivity.
  - apply list_elem_of_In. vm_compute. right. left. reflexivity.
Defined.

Lemma parseCsv_no_empty (input : option (list N)) :
  arrayIncludes (parseCsv input defaultBranches) [] = false.
Proof.
  apply not_true_is_false. intros H. apply arrayIncludes_spec in H.
  destruct input as [s|].
  - unfold parseCsv in H. cbn [truthyOpt] in H.
    destruct (truthy s) eqn:Hs; cbn [negb] in H.
    + apply list_elem_of_In, filter_In in H as [_ H]. discriminate H.
    + revert H. apply (bool_decide_unpack _). vm_compute. exact I.
  - revert H. apply (bool_decide_unpack _). vm_compute. exact I.
Qed.

(** X2.  Whatever the allowlists are, the gate is closed for a run that is
    not a pull request and has no ref, and for a pull request without a base
    ref. *)
Theorem shouldDeployByPolicy_needs_ref (ctx : Context)
    (pushCsv prCsv : option (list N)) :
  (if isPullRequestEvent ctx
   then truthyOpt (match pull_request (payload ctx) with
                   | Some pr => pr_base_ref pr
                   | None => None
                   end)
   else truthyOpt (ref ctx)) = false ->
  shouldDeployByPolicy ctx pushCsv prCsv = false.
Proof.
  unfold shouldDeployByPolicy. destruct (isPullRequestEvent ctx); cbn [negb].
  - intros H.
    destruct (pull_request (payload ctx)) as [pr|];
      [destruct (pr_base_ref pr) as [[|c b]|]; try discriminate H|];
      apply parseCsv_no_empty.
  - intros H. destruct (ref ctx) as [[|c r]|]; try discriminate H;
      apply parseCsv_no_empty.
Qed.

Lemma shouldDeployByPolicy_needs_ref_witness :
  shouldDeployByPolicy
    {| eventName := str "workflow_dispatch"; ref := None; head_ref := None;
       sha := str "abc"; actor := None; repo_owner := str "o";
       repo_name := str "r";
       payload := {| pull_request := None; before := None |} |}
    (Some (str "main")) None = false.
Proof.
  apply (shouldDeployByPolicy_needs_ref
           {| eventName := str "workflow_dispatch"; ref := None; head_ref := None;
              sha := str "abc"; actor := None; repo_owner := str "o";
              repo_name := str "r";
              payload := {| pull_request := None; before := None |} |}
           (Some (str "main")) None).
  reflexivity.
Defined.

Lemma parseCsv_separators_only (input : list N) (fallback : list (list N)) :
  truthy input = true ->
  forallb (fun c => N.eqb c 44 || isSpace c) input = true ->
  parseCsv (Some input) fallback = [].
Proof.
  intros Hin Hall. unfold parseCsv. cbn [truthyOpt]. rewrite Hin. cbn [negb].
  rewrite orElse_Some_truthy by exact Hin.
  pose proof (split_pieces_of isSpace input 44 Hall) as Hp.
  induction Hp as [|w ws Hw _ IH]; [reflexivity|].
  cbn [List.map List.filter]. rewrite (trim_all_space w Hw). exact IH.
Qed.

(** X3.  An allowlist input that is not empty but holds only commas and
    white space allows nothing: the fallback to [main] and [canary] is not
    used, and the gate is closed for every ref. *)
Theorem shouldDeployByPolicy_separators_only (ctx : Context)
    (pushCsv prCsv : list N) :
  (let csv := if isPullRequestEvent ctx then prCsv else pushCsv in
   truthy csv = true
   /\ forallb (fun c => N.eqb c 44 || isSpace c) csv = true) ->
  shouldDeployByPolicy ctx (Some pushCsv) (Some prCsv) = false.
Proof.
  cbv zeta. unfold shouldDeployByPolicy.
  destruct (isPullRequestEvent ctx); cbn [negb]; intros [Ht Hall];
    rewrite (parseCsv_separators_only _ _ Ht Hall); reflexivity.
Qed.

Lemma shouldDeployByPolicy_separators_only_witness :
  shouldDeployByPolicy (pushContext (str "main")) (Some (str ", ,")) (Some [])
  = false.
Proof.
  apply (shouldDeployByPolicy_separators_only (pushContext (str "main"))
           (str ", ,") []).
  split; reflexivity.
Defined.

End Allowlists.

(** ** The retry executor: bounds *)

Section RetryBounds.
Import Js Errors Notions Samples MoreNotions MoreSamples.

Lemma pauses_recordAll (es : list Event) (w : World) :
  pauses (recordAll es w) = pauses w ++ flat_map pauseOf es.
Proof. unfold pauses. by rewrite trace_recordAll, flat_map_app. Qed.

Lemma diagnostics_no_pause (attempt maxRetries : Z) (err : ActionableError) :
  flat_map pauseOf (diagnostics attempt maxRetries err) = [].
Proof.
  unfold diagnostics. cbn [app flat_map pauseOf].
  induction (actionItems err) as [|i l IH]; [reflexivity|exact IH].
Qed.

(** X4.  With a retry limit of zero or less the operation is never called:
    the executor throws [Error('Unknown error')] at once and leaves no
    trace. *)
Theorem executeWithRetry_no_attempt {R : Type} (operation : M R)
    (mapError : Thrown -> ActionableError) (options : option (Z + RetryOptions))
    (n : Z) (w : World) :
  n <= 0 ->
  options = Some (inl n)
  \/ (exists o, options = Some (inr o) /\ maxRetries o = Some n) ->
  executeWithRetry operation mapError options w
  = (Throw (JsError (str "Unknown error")), w).
Proof.
  intros Hn [-> | (o & -> & Ho)]; unfold executeWithRetry.
  - change (default 3 (maxRetries {| maxRetries := Some n; backoffBaseMs := None;
                                     maxDelayMs := None; sleep := None |})) with n.
    replace (Z.to_nat n) with 0%nat by lia. reflexivity.
  - rewrite Ho. change (default 3 (Some n)) with n.
    replace (Z.to_nat n) with 0%nat by lia. reflexivity.
Qed.

Lemma executeWithRetry_no_attempt_witness :
  executeWithRetry (scripted flakyScript) handleVercel (Some (inl 0)) emptyWorld
  = (Throw (JsError (str "Unknown error")), emptyWorld).
Proof.
  apply (executeWithRetry_no_attempt (scripted flakyScript) handleVercel
           (Some (inl 0)) 0 emptyWorld); [lia | left; reflexivity].
Defined.

Lemma retryLoop_exhausted {R : Type} (script : nat -> Result R)
    (mapError : Thrown -> ActionableError) (maxR : Z) :
  forall (r : nat) (a : Z) (last : option ActionableError) (w : World),
    (1 <= r)%nat ->
    a + Z.of_nat r - 1 = maxR ->
    (forall k, (k < r)%nat ->
       exists e, script (attempts w + k)%nat = Throw e
                 /\ retryable (mapError e) = true) ->
    exists e w',
      script (attempts w + r - 1)%nat = Throw e
      /\ retryLoop (scripted script) mapError maxR 1000 30000 timerSleep r a last w
         = (Throw e, w')
      /\ attempts w' = (attempts w + r)%nat
      /\ pauses w'
         = pauses w
           ++ List.map (fun k => defaultDelay (a + Z.of_nat k)) (seq 0 (r - 1)).
Proof.
  induction r as [|r IH]; intros a last w Hr Ha Hfail; [lia|].
  destruct (Hfail 0%nat ltac:(lia)) as (e0 & He0 & Hr0).
  rewrite Nat.add_0_r in He0.
  destruct r as [|r].
  - (* the last attempt *)
    exists e0, (recordAll (OperationCalled :: diagnostics a maxR (mapError e0)) w).
    repeat split.
    + replace (attempts w + 1 - 1)%nat with (attempts w) by lia. exact He0.
    + apply retryLoop_give_up; [exact He0|].
      replace a with maxR by lia. rewrite Z.eqb_refl. apply orb_true_r.
    + rewrite attempts_recordAll. cbn [List.filter isOperationCalled].
      rewrite diagnostics_no_attempt. simpl. lia.
    + rewrite pauses_recordAll. cbn [flat_map pauseOf app].
      rewrite diagnostics_no_pause. reflexivity.
  - (* an attempt that is retried *)
    assert (Hne : (a =? maxR) = false) by (apply Z.eqb_neq; lia).
    pose proof (retryLoop_retry script mapError maxR 1000 30000 (S r) a last w
                  e0 He0 Hr0 Hne) as Hstep.
    cbv zeta in Hstep. fold (defaultDelay a) in Hstep.
    set (w1 := recordAll [OperationCalled; retryNotice (defaultDelay a) a maxR;
                          Slept (defaultDelay a)] w) in *.
    assert (A1 : attempts w1 = S (attempts w))
      by (unfold w1; rewrite attempts_recordAll; simpl; lia).
    destruct (IH (a + 1) (Some (mapError e0)) w1 ltac:(lia) ltac:(lia))
      as (e & w' & He & Hrun & Hatt & Hp).
    { intros k Hk. destruct (Hfail (S k) ltac:(lia)) as (e & He & Hre).
      exists e. split; [|exact Hre]. rewrite A1.
      replace (S (attempts w) + k)%nat with (attempts w + S k)%nat by lia.
      exact He. }
    exists e, w'. repeat split.
    + rewrite A1 in He.
      replace (attempts w + S (S r) - 1)%nat with (S (attempts w) + S r - 1)%nat
        by lia.
      exact He.
    + rewrite Hstep. exact Hrun.
    + rewrite Hatt, A1. lia.
    + rewrite Hp. unfold w1. rewrite pauses_recordAll.
      cbn [flat_map pauseOf app]. rewrite <- app_assoc. f_equal.
      replace (S (S r) - 1)%nat with (S r) by lia.
      replace (S r - 1)%nat with r by lia.
      cbn [seq List.map app]. rewrite Z.add_0_r. f_equal.
      rewrite <- seq_shift, List.map_map.
      apply List.map_ext. intros k. f_equal. lia.
Qed.

(** X5.  When each of the [n] attempts fails with an error classified as
    retryable, the operation is called exactly [n] times, the error of the
    last attempt is thrown as it is, and the pauses between the attempts are
    [min(30000, 2^k * 1000)] ms for [k = 1 .. n-1]: there is no pause after
    the last attempt. *)
Theorem executeWithRetry_exhausted {R : Type} (script : nat -> Result R)
    (mapError : Thrown -> ActionableError) (n : nat) (w : World) :
  (1 <= n)%nat ->
  (forall k, (k < n)%nat ->
     exists e, script (attempts w + k)%nat = Throw e
               /\ retryable (mapError e) = true) ->
  exists e w',
    script (attempts w + n - 1)%nat = Throw e
    /\ executeWithRetry (scripted script) mapError (Some (inl (Z.of_nat n))) w
       = (Throw e, w')
    /\ attempts w' = (attempts w + n)%nat
    /\ pauses w' = pauses w ++ List.map (fun k => defaultDelay (Z.of_nat k)) (seq 1 (n - 1)).
Proof.
  intros Hn Hfail.
  destruct (retryLoop_exhausted script mapError (Z.of_nat n) n 1 None w Hn
              ltac:(lia) Hfail) as (e & w' & He & Hrun & Hatt & Hp).
  exists e, w'. repeat split; try assumption.
  - change (executeWithRetry (scripted script) mapError (Some (inl (Z.of_nat n))))
      with (retryLoop (scripted script) mapError (Z.of_nat n) 1000 30000 timerSleep
              (Z.to_nat (Z.of_nat n)) 1 None).
    rewrite Nat2Z.id. exact Hrun.
  - rewrite Hp. f_equal. rewrite <- seq_shift, List.map_map.
    apply List.map_ext. intros k. f_equal. lia.
Qed.

Lemma executeWithRetry_exhausted_witness :
  exists e w',
    failingScript (attempts emptyWorld + 6 - 1)%nat = Throw e
    /\ executeWithRetry (scripted failingScript) handleVercel (Some (inl 6)) emptyWorld
       = (Throw e, w')
    /\ attempts w' = (attempts emptyWorld + 6)%nat
    /\ pauses w' = pauses emptyWorld ++ [2000; 4000; 8000; 16000; 30000].
Proof.
  apply (executeWithRetry_exhausted failingScript handleVercel 6 emptyWorld).
  - lia.
  - intros k _. exists (JsError (str "socket hang up")). split; reflexivity.
Defined.

Lemma retryLoop_attempts_bounded {R : Type} (script : nat -> Result R)
    (mapError : Thrown -> ActionableError) (maxR base maxDelay : Z) :
  forall (r : nat) (a : Z) (last : option ActionableError) (w : World),
    (attempts
       (snd (retryLoop (scripted script) mapError maxR base maxDelay timerSleep
               r a last w))
     <= attempts w + r)%nat.
Proof.
  induction r as [|r IH]; intros a last w.
  - simpl. lia.
  - destruct (script (attempts w)) as [v|e] eqn:Hs.
    + rewrite (retryLoop_success script mapError maxR base maxDelay r a last w v Hs).
      cbn [snd]. rewrite attempts_record. simpl. lia.
    + destruct (negb (retryable (mapError e)) || (a =? maxR)) eqn:Hstop.
      * rewrite (retryLoop_give_up script mapError maxR base maxDelay r a last w e
                   Hs Hstop).
        cbn [snd]. rewrite attempts_recordAll. cbn [List.filter isOperationCalled].
        rewrite diagnostics_no_attempt. simpl. lia.
      * apply orb_false_iff in Hstop as [Hre Hne].
        apply negb_false_iff in Hre.
        rewrite (retryLoop_retry script mapError maxR base maxDelay r a last w e
                   Hs Hre Hne).
        cbv zeta. etransitivity; [apply IH|].
        rewrite attempts_recordAll. simpl. lia.
Qed.

(** X6.  Whatever the operation does and however its errors are
    classified, the executor calls it at most [maxRetries] times. *)
Theorem executeWithRetry_attempts_bounded {R : Type} (script : nat -> Result R)
    (mapError : Thrown -> ActionableError) (n : Z) (w : World) :
  (attempts (snd (executeWithRetry (scripted script) mapError (Some (inl n)) w))
   <= attempts w + Z.to_nat n)%nat.
Proof.
  change (executeWithRetry (scripted script) mapError (Some (inl n)))
    with (retryLoop (scripted script) mapError n 1000 30000 timerSleep
            (Z.to_nat n) 1 None).
  apply retryLoop_attempts_bounded.
Qed.

End RetryBounds.

(** ** The sticky comment: wrapping, discovery and writes *)

Section StickyWrites.
Import Js PrComment Comments JsFacts TrimFacts Notions Samples MoreNotions MoreSamples.

Lemma bodyWithoutHeader_wrapped (b header : list N) :
  10%N ∉ headerKey header ->
  includes b (autoEnd header) = false ->
  bodyWithoutHeader (bodyWithHeader b header) header = trim b.
Proof.
  intros Hkey Hb. unfold bodyWithoutHeader.
  rewrite (indexOf_autoEnd_wrapped b header Hkey Hb).
  unfold bodyWithHeader at 1. rewrite indexOf_prefix.
  assert (Hlen : (len (autoStart header ++ newline ++ b ++ newline) =? -1) = false)
    by (apply Z.eqb_neq; unfold len; lia).
  rewrite Hlen. cbn [Z.eqb negb andb].
  unfold bodyWithHeader.
  replace (autoStart header ++ newline ++ b ++ newline ++ autoEnd header)
    with (autoStart header ++ (newline ++ b ++ newline) ++ autoEnd header)
    by (by rewrite <- !app_assoc).
  rewrite ?indexOf_prefix, substring_middle. apply trim_between_newlines.
Qed.

(** X7.  Unwrapping a wrapped body gives the body back, trimmed: provided
    the body does not contain the end marker and the marker key has no line
    break, [bodyWithoutHeader (bodyWithHeader b header) header] is
    [b.trim()]. *)
Theorem bodyWithoutHeader_bodyWithHeader (b header : list N) :
  10%N ∉ headerKey header ->
  includes b (autoEnd header) = false ->
  bodyWithoutHeader (bodyWithHeader b header) header = trim b.
Proof. exact (bodyWithoutHeader_wrapped b header). Qed.

Lemma bodyWithoutHeader_bodyWithHeader_witness :
  bodyWithoutHeader (bodyWithHeader (str "  Preview ready " ++ [10%N]) (str "docs"))
                    (str "docs")
  = trim (str "  Preview ready " ++ [10%N]).
Proof.
  apply (bodyWithoutHeader_bodyWithHeader (str "  Preview ready " ++ [10%N])
           (str "docs")).
  - apply (bool_decide_unpack _). vm_compute. exact I.
  - vm_compute. reflexivity.
Defined.

Lemma bodyWithHeader_truthy (b header : list N) :
  truthy (bodyWithHeader b header) = true.
Proof. reflexivity. Qed.

(** X8.  Appending to a comment that this action wrote: given as previous
    body the wrapping of [a], both [updateComment] and [createComment] write
    the wrapping of [a.trim()], a line break and the new body, also when the
    new body is empty. *)
Theorem updateComment_appends_inner (gh : GitHub) (cid a b header : list N)
    (issue_number : Z) (w : World) :
  10%N ∉ headerKey header ->
  includes a (autoEnd header) = false ->
  let appended := bodyWithHeader (trim a ++ newline ++ b) header in
  writes (snd (updateComment gh cid b header (Some (bodyWithHeader a header)) w))
  = writes w ++ [UpdateIssueComment cid appended]
  /\ writes (snd (createComment gh issue_number b header
                    (Some (bodyWithHeader a header)) w))
     = writes w ++ [CreateIssueComment issue_number appended].
Proof.
  intros Hkey Ha appended. unfold updateComment, createComment.
  cbn [truthyOpt]. rewrite !bodyWithHeader_truthy, andb_false_r.
  rewrite (orElse_Some_truthy _ _ (bodyWithHeader_truthy a header)).
  rewrite (bodyWithoutHeader_wrapped a header Hkey Ha). fold appended.
  split.
  - unfold bind, emit, getComments, setComments. cbn [snd].
    unfold writes. cbn [trace record]. rewrite List.filter_app. reflexivity.
  - unfold bind, emit, getComments, setComments, ret.
    destruct (mint gh (comments (record (CreateIssueComment issue_number appended) w)))
      as [node_id rest_id].
    cbn [snd]. unfold writes. cbn [trace record]. rewrite List.filter_app.
    reflexivity.
Qed.

Lemma updateComment_appends_inner_witness :
  let appended := bodyWithHeader (trim (str "A ") ++ newline ++ str "B") [] in
  writes (snd (updateComment botGitHub (str "IC_1") (str "B") []
                 (Some (bodyWithHeader (str "A ") [])) freshWorld))
  = writes freshWorld ++ [UpdateIssueComment (str "IC_1") appended]
  /\ writes (snd (createComment botGitHub 7 (str "B") []
                    (Some (bodyWithHeader (str "A ") [])) freshWorld))
     = writes freshWorld ++ [CreateIssueComment 7 appended].
Proof.
  apply (updateComment_appends_inner botGitHub (str "IC_1") (str "A ") (str "B") []
           7 freshWorld).
  - apply (bool_decide_unpack _). vm_compute. exact I.
  - vm_compute. reflexivity.
Defined.

(** X9.  The suffix [[bot]], in any letter case, does not count for the
    comparison of logins: a login and the same login followed by the suffix
    are normalised to the same name. *)
Theorem normalizeLogin_bot_suffix (login suffix : list N) :
  length suffix = 5%nat ->
  toLowerCase suffix = str "[bot]" ->
  stripBotSuffix login = login ->
  normalizeLogin (Some (login ++ suffix)) = normalizeLogin (Some login).
Proof.
  intros Hlen Hlow Hplain. unfold normalizeLogin.
  change (default [] (Some (login ++ suffix))) with (login ++ suffix).
  change (default [] (Some login)) with login.
  rewrite Hplain. do 2 f_equal.
  unfold stripBotSuffix. rewrite length_app, Hlen.
  replace (length login + 5 - 5)%nat with (length login) by lia.
  rewrite drop_app_length, take_app_length, Hlow, Hlen.
  rewrite !bool_decide_eq_true_2 by reflexivity. reflexivity.
Qed.

Lemma normalizeLogin_bot_suffix_witness :
  normalizeLogin (Some (str "github-actions" ++ str "[Bot]"))
  = normalizeLogin (Some (str "github-actions")).
Proof.
  apply (normalizeLogin_bot_suffix (str "github-actions") (str "[Bot]"));
    reflexivity.
Defined.

(** X10.  Discovery only queries, and what it returns is a comment of the
    pull request that is not minimized, contains the start marker and was
    written by the expected author; it returns nothing only when no comment
    is of that kind. *)
Theorem findPreviousComment_sound (gh : GitHub) (number : Z) (header : list N)
    (authorLogin : option (list N)) (w : World) :
  let expected := normalizeLogin (match authorLogin with
                                  | Some a => Some a
                                  | None => viewer_login gh
                                  end) in
  exists queries r,
    forallb isQuery queries = true
    /\ findPreviousComment gh number header authorLogin w
       = (Ok r, recordAll queries w)
    /\ match r with
       | Some c =>
           c ∈ comments w /\ isMinimized c = false
           /\ includes (body c) (autoStart header) = true
           /\ normalizeLogin (author_login c) = expected
       | None =>
           forall c, c ∈ comments w -> isTarget expected (autoStart header) c = false
       end.
Proof.
  intros expected.
  destruct (scanPages_find gh number header authorLogin (pages (comments w)) None w)
    as (qs & Hqs & Hrun).
  rewrite concat_pages in Hrun. fold expected in Hrun.
  exists qs, (List.find (isTarget expected (autoStart header)) (comments w)).
  split; [exact Hqs|]. split.
  - unfold findPreviousComment, bind at 1, getComments. exact Hrun.
  - destruct (List.find _ (comments w)) as [c|] eqn:Hfind.
    + apply find_some in Hfind as [Hin Ht]. unfold isTarget in Ht.
      apply andb_true_iff in Ht as [Ht Hinc].
      apply andb_true_iff in Ht as [Hlogin Hmin].
      repeat split.
      * by apply list_elem_of_In.
      * by apply negb_true_iff.
      * exact Hinc.
      * by apply bool_decide_eq_true in Hlogin.
    + intros c Hc. apply list_elem_of_In in Hc.
      exact (find_none _ _ Hfind c Hc).
Qed.

(** X11.  With an empty body [ensureComment] never touches the pull
    request: when [ignore_empty] is set it logs one line and returns,
    otherwise it throws the error that asks for an input; in both cases
    nothing is queried and nothing is written. *)
Theorem ensureComment_empty_body (inputs : Inputs) (gh : GitHub)
    (options : option EnsureOptions) (w : World) :
  ensureComment inputs gh [] options w
  = if ignoreEmpty inputs
    then (Ok tt, record (CoreInfo (str "no body given: skip step by ignoreEmpty")) w)
    else (Throw (JsError
                   (str "Either message/path input is required or Vercel inputs must be set")),
          w).
Proof.
  unfold ensureComment. cbn [truthy negb andb].
  destruct (ignoreEmpty inputs); reflexivity.
Qed.

(** [ensureComment] when discovery finds nothing: the queries, the output,
    one created comment and its id as output. *)
Lemma ensureComment_missing (inputs : Inputs) (gh : GitHub) (b : list N)
    (options : option EnsureOptions) (w : World) :
  stickyComment inputs gh (comments w) = None ->
  truthy b = true ->
  exists queries,
    forallb isQuery queries = true
    /\ ensureComment inputs gh b options w
       = let number := default 0 (pullRequestNumber inputs) in
         let composed := bodyWithHeader b (header inputs) in
         let created := {| id := fst (mint gh (comments w));
                           author_login := viewer_login gh;
                           isMinimized := false;
                           body := composed |} in
         (Ok tt,
          record (CoreSetOutput (str "created_comment_id")
                    (Some (numToString (snd (mint gh (comments w))))))
            (withComments (comments w ++ [created])
               (recordAll
                  (queries
                   ++ [CoreSetOutput (str "previous_comment_id") None;
                       CreateIssueComment number composed]) w))).
Proof.
  intros Hfound Hb.
  destruct (findPreviousComment_find inputs gh (default 0 (pullRequestNumber inputs)) w)
    as (qs & Hqs & Hrun).
  exists qs. split; [exact Hqs|].
  unfold ensureComment. rewrite Hb. cbn [negb andb].
  unfold requireEffectiveBodyOrThrow. rewrite Hb. cbn [negb].
  unfold bind at 1, ret at 1. unfold bind at 1. rewrite Hrun, Hfound.
  unfold bind at 1, emit at 1. cbn [option_map].
  unfold bind at 1, createInitialCommentWhenMissing.
  unfold bind at 1, createComment. rewrite Hb. cbn [negb andb truthyOpt].
  unfold bind, emit, getComments, setComments, ret. cbv zeta.
  cbn [comments record]. rewrite comments_recordAll.
  destruct (mint gh (comments w)) as [node_id rest_id]. cbn [fst snd option_map].
  rewrite recordAll_app. reflexivity.
Qed.

Lemma writes_recordAll (es : list Event) (w : World) :
  writes (recordAll es w) = writes w ++ List.filter isWrite es.
Proof. unfold writes. by rewrite trace_recordAll, List.filter_app. Qed.

Lemma queries_no_write (queries : list Event) :
  forallb isQuery queries = true -> List.filter isWrite queries = [].
Proof.
  induction queries as [|q qs IH]; [reflexivity|]. simpl.
  intros H. apply andb_true_iff in H as [Hq Hqs].
  destruct q; try discriminate. simpl. by apply IH.
Qed.

Lemma creations_recordAll (es : list Event) (w : World) :
  creations (recordAll es w) = creations w ++ List.filter isCreate es.
Proof. unfold creations. by rewrite trace_recordAll, List.filter_app. Qed.

Lemma queries_no_creation (queries : list Event) :
  forallb isQuery queries = true -> List.filter isCreate queries = [].
Proof.
  induction queries as [|q qs IH]; [reflexivity|]. simpl.
  intros H. apply andb_true_iff in H as [Hq Hqs].
  destruct q; try discriminate. simpl. by apply IH.
Qed.

(** X12.  One call of [ensureComment] writes to the pull request at most
    once: it creates one comment, or updates one, or writes nothing. *)
Theorem ensureComment_at_most_one_write (inputs : Inputs) (gh : GitHub)
    (b : list N) (options : option EnsureOptions) (w : World) :
  exists ws,
    writes (snd (ensureComment inputs gh b options w)) = writes w ++ ws
    /\ (length ws <= 1)%nat.
Proof.
  destruct (truthy b) eqn:Hb.
  2:{ destruct b; [|discriminate]. rewrite ensureComment_empty_body.
      exists []. rewrite app_nil_r. split; [|simpl; lia].
      destruct (ignoreEmpty inputs); [|reflexivity].
      cbn [snd]. rewrite writes_record. cbn [isWrite]. by rewrite app_nil_r. }
  destruct (stickyComment inputs gh (comments w)) as [prev|] eqn:Hfound.
  - destruct (ensureComment_found inputs gh b options w prev Hfound Hb)
      as (qs & Hqs & Hrun).
    rewrite Hrun. cbv zeta.
    assert (Hw1 :
      writes (record (CoreSetOutput (str "previous_comment_id") (Some (id prev)))
                     (recordAll qs w)) = writes w).
    { rewrite writes_record. cbn [isWrite]. rewrite app_nil_r.
      by apply writes_queries. }
    destruct (skipUnchanged inputs && commentsEqual b (Some (body prev)) (header inputs)).
    { exists []. rewrite app_nil_r. split; [exact Hw1 | simpl; lia]. }
    destruct (truthy (id prev)); cbn [negb].
    2:{ exists []. rewrite app_nil_r. split; [exact Hw1 | simpl; lia]. }
    rewrite updateComment_run by exact Hb. cbv zeta. eexists [_].
    split; [|simpl; lia].
    cbn [snd].
    match goal with
    | |- writes (withComments ?cs ?x) = _ => change (writes (withComments cs x)) with (writes x)
    end.
    rewrite writes_record, Hw1. reflexivity.
  - destruct (ensureComment_missing inputs gh b options w Hfound Hb)
      as (qs & Hqs & Hrun).
    rewrite Hrun. cbv zeta. eexists [_]. split; [|simpl; lia].
    cbn [snd]. rewrite writes_record. cbn [isWrite]. rewrite app_nil_r.
    match goal with
    | |- writes (withComments ?cs ?x) = _ => change (writes (withComments cs x)) with (writes x)
    end.
    rewrite writes_recordAll, List.filter_app, (queries_no_write qs Hqs).
    reflexivity.
Qed.

Lemma creations_record (e : Event) (w : World) :
  creations (record e w) = creations w ++ (if isCreate e then [e] else []).
Proof.
  unfold creations, record. cbn [trace]. rewrite List.filter_app. simpl.
  destruct (isCreate e); reflexivity.
Qed.

Lemma creations_queries (queries : list Event) (w : World) :
  forallb isQuery queries = true -> creations (recordAll queries w) = creations w.
Proof.
  revert w. induction queries as [|q qs IH]; intros w Hq; [reflexivity|].
  simpl in Hq. apply andb_true_iff in Hq as [Hq Hqs].
  change (recordAll (q :: qs) w) with (recordAll qs (record q w)).
  rewrite IH by exact Hqs. rewrite creations_record.
  destruct q; try discriminate. simpl. by rewrite app_nil_r.
Qed.

(** X13.  No duplicates.  When discovery finds no sticky comment and
    the expected author is the authenticated user, [ensureComment] creates
    one comment with the wrapped body; discovery then finds that comment, and
    a further call of [ensureComment], with any body and options, creates no
    other comment. *)
Theorem ensureComment_creates_once (inputs : Inputs) (gh : GitHub)
    (b b' : list N) (options options' : option EnsureOptions) (w : World) :
  stickyComment inputs gh (comments w) = None ->
  truthy b = true ->
  expectedLogin inputs gh = normalizeLogin (viewer_login gh) ->
  exists w1 created,
    ensureComment inputs gh b options w = (Ok tt, w1)
    /\ creations w1
       = creations w
         ++ [CreateIssueComment (default 0 (pullRequestNumber inputs))
               (bodyWithHeader b (header inputs))]
    /\ stickyComment inputs gh (comments w1) = Some created
    /\ body created = bodyWithHeader b (header inputs)
    /\ creations (snd (ensureComment inputs gh b' options' w1)) = creations w1.
Proof.
  intros Hnone Hb Hlogin.
  destruct (ensureComment_missing inputs gh b options w Hnone Hb)
    as (qs & Hqs & Hrun).
  cbv zeta in Hrun.
  set (created := {| id := fst (mint gh (comments w));
                     author_login := viewer_login gh;
                     isMinimized := false;
                     body := bodyWithHeader b (header inputs) |}) in *.
  match type of Hrun with _ = (_, ?x) => set (w1 := x) in * end.
  assert (Hc1 : comments w1 = comments w ++ [created]) by reflexivity.
  assert (Hsticky : stickyComment inputs gh (comments w1) = Some created).
  { rewrite Hc1. unfold stickyComment in *. rewrite find_app_first, Hnone.
    cbn [List.find]. unfold isTarget. cbn [author_login isMinimized body created].
    rewrite Hlogin, bool_decide_eq_true_2 by reflexivity.
    unfold bodyWithHeader. by rewrite includes_prefix. }
  exists w1, created. repeat split.
  - exact Hrun.
  - unfold w1. rewrite creations_record. cbn [isCreate]. rewrite app_nil_r.
    match goal with
    | |- creations (withComments ?cs ?x) = _ =>
        change (creations (withComments cs x)) with (creations x)
    end.
    rewrite creations_recordAll, List.filter_app, (queries_no_creation qs Hqs).
    reflexivity.
  - exact Hsticky.
  - destruct (truthy b') eqn:Hb'.
    2:{ destruct b'; [|discriminate]. rewrite ensureComment_empty_body.
        destruct (ignoreEmpty inputs); [|reflexivity].
        cbn [snd]. rewrite creations_record. cbn [isCreate]. by rewrite app_nil_r. }
    destruct (ensureComment_found inputs gh b' options' w1 created Hsticky Hb')
      as (qs2 & Hqs2 & Hrun2).
    rewrite Hrun2. cbv zeta.
    assert (Hw2 :
      creations (record (CoreSetOutput (str "previous_comment_id") (Some (id created)))
                        (recordAll qs2 w1)) = creations w1).
    { rewrite creations_record. cbn [isCreate]. rewrite app_nil_r.
      by apply creations_queries. }
    destruct (skipUnchanged inputs
              && commentsEqual b' (Some (body created)) (header inputs));
      [exact Hw2|].
    destruct (truthy (id created)); cbn [negb]; [|exact Hw2].
    rewrite updateComment_run by exact Hb'. cbv zeta. cbn [snd].
    match goal with
    | |- creations (withComments ?cs ?x) = _ =>
        change (creations (withComments cs x)) with (creations x)
    end.
    rewrite creations_record, Hw2. cbn [isCreate]. by rewrite app_nil_r.
Qed.

Lemma ensureComment_creates_once_witness :
  exists w1 created,
    ensureComment stickyInputs botGitHub (str "B") None freshWorld = (Ok tt, w1)
    /\ creations w1
       = creations freshWorld
         ++ [CreateIssueComment (default 0 (pullRequestNumber stickyInputs))
               (bodyWithHeader (str "B") (header stickyInputs))]
    /\ stickyComment stickyInputs botGitHub (comments w1) = Some created
    /\ body created = bodyWithHeader (str "B") (header stickyInputs)
    /\ creations (snd (ensureComment stickyInputs botGitHub (str "C") appendOn w1))
       = creations w1.
Proof.
  apply (ensureComment_creates_once stickyInputs botGitHub (str "B") (str "C")
           None appendOn freshWorld); reflexivity.
Defined.

(** X14.  When the caller does not ask to append, an update replaces: the
    comment found by discovery gets the new body alone, wrapped in the
    markers, whatever it held before and whatever the hide-details option
    says. *)
Theorem ensureComment_replaces (inputs : Inputs) (gh : GitHub) (b : list N)
    (options : option EnsureOptions) (w : World) (prev : IssueComment) :
  stickyComment inputs gh (comments w) = Some prev ->
  truthy b = true ->
  truthy (id prev) = true ->
  skipUnchanged inputs && commentsEqual b (Some (body prev)) (header inputs) = false ->
  appendRequested inputs options = false ->
  let new_body := bodyWithHeader b (header inputs) in
  exists w',
    ensureComment inputs gh b options w = (Ok tt, w')
    /\ writes w' = writes w ++ [UpdateIssueComment (id prev) new_body]
    /\ comments w' = storeUpdate (id prev) new_body (comments w).
Proof.
  intros Hfound Hb Hid Hskip Happend new_body.
  destruct (ensureComment_found inputs gh b options w prev Hfound Hb)
    as (qs & Hqs & Hrun).
  rewrite Hrun. cbv zeta. rewrite Hskip, Hid, Happend. cbn [negb andb].
  rewrite updateComment_run by exact Hb. cbv zeta.
  change (truthyOpt (getBodyOf (Some (body prev)) false (hideRequested inputs options)))
    with false.
  cbv iota. fold new_body. eexists. split; [reflexivity|]. split.
  - match goal with
    | |- writes (withComments ?cs ?x) = _ =>
        change (writes (withComments cs x)) with (writes x)
    end.
    rewrite !writes_record, (writes_queries qs w Hqs). cbn [isWrite].
    by rewrite app_nil_r.
  - unfold withComments. cbn [comments record]. by rewrite comments_recordAll.
Qed.

Lemma ensureComment_replaces_witness :
  exists w',
    ensureComment stickyInputs botGitHub (str "B") None (worldWith previousAutoWrapped)
    = (Ok tt, w')
    /\ writes w'
       = writes (worldWith previousAutoWrapped)
         ++ [UpdateIssueComment (id previousAutoWrapped) (bodyWithHeader (str "B") [])]
    /\ comments w'
       = storeUpdate (id previousAutoWrapped) (bodyWithHeader (str "B") [])
           (comments (worldWith previousAutoWrapped)).
Proof.
  apply (ensureComment_replaces stickyInputs botGitHub (str "B") None
           (worldWith previousAutoWrapped) previousAutoWrapped);
    vm_compute; reflexivity.
Defined.

End StickyWrites.

(** ** The Vercel client: branch names, slugs, metadata and templates *)

Section BranchNames.
Import Js VercelClient JsFacts TrimFacts Samples.

(** X15.  [getBranch]: the head ref of a pull request comes first; else
    the name after [refs/heads/] or after [refs/tags/]; and [unknown] when
    neither variable is set. *)
Theorem getBranch_precedence (env : gmap string (list N)) (name : list N) :
  (truthyOpt (env !! "GITHUB_HEAD_REF"%string) = true ->
   Some (getBranch env) = env !! "GITHUB_HEAD_REF"%string)
  /\ (truthyOpt (env !! "GITHUB_HEAD_REF"%string) = false ->
      env !! "GITHUB_REF"%string = Some (str "refs/heads/" ++ name)
      \/ env !! "GITHUB_REF"%string = Some (str "refs/tags/" ++ name) ->
      getBranch env = name)
  /\ (truthyOpt (env !! "GITHUB_HEAD_REF"%string) = false ->
      truthyOpt (env !! "GITHUB_REF"%string) = false ->
      getBranch env = str "unknown").
Proof.
  unfold getBranch. repeat split.
  - destruct (env !! "GITHUB_HEAD_REF"%string) as [[|c h]|]; try discriminate.
    reflexivity.
  - intros Hhead Href.
    assert (Hh : truthy (orElse (env !! "GITHUB_HEAD_REF"%string) []) = false)
      by (destruct (env !! "GITHUB_HEAD_REF"%string) as [[|c h]|];
          try discriminate; reflexivity).
    rewrite Hh. destruct Href as [-> | ->].
    + change (orElse (Some (str "refs/heads/" ++ name)) [])
        with (str "refs/heads/" ++ name).
      by rewrite startsWith_app, replace_prefix.
    + change (orElse (Some (str "refs/tags/" ++ name)) [])
        with (str "refs/tags/" ++ name).
      change (startsWith (str "refs/tags/" ++ name) (str "refs/heads/")) with false.
      cbv iota. by rewrite startsWith_app, replace_prefix.
  - intros Hhead Href.
    destruct (env !! "GITHUB_HEAD_REF"%string) as [[|c h]|]; try discriminate;
      destruct (env !! "GITHUB_REF"%string) as [[|d r]|]; try discriminate;
      reflexivity.
Qed.

Lemma getBranch_precedence_witness :
  getBranch (<["GITHUB_REF"%string := str "refs/tags/" ++ str "v1.2.3"]> ∅)
  = str "v1.2.3".
Proof.
  apply (proj1 (proj2 (getBranch_precedence
                         (<["GITHUB_REF"%string := str "refs/tags/" ++ str "v1.2.3"]> ∅)
                         (str "v1.2.3")))).
  - reflexivity.
  - right. reflexivity.
Defined.

End BranchNames.

Section Slug.
Import Js VercelClient JsFacts TrimFacts MoreNotions.

Lemma replaceRuns_Forall (Q : N -> Prop) (f : N -> bool) (rep s : list N) :
  Forall Q rep ->
  Forall (fun c => f c = false -> Q c) s ->
  forall inRun, Forall Q (replaceRuns f rep s inRun).
Proof.
  intros Hrep Hs. induction Hs as [|c s Hc Hs IH]; intros inRun; simpl;
    [constructor|].
  destruct (f c) eqn:E.
  - destruct inRun; [apply IH|]. apply Forall_app. split; [exact Hrep | apply IH].
  - constructor; [by apply Hc | apply IH].
Qed.

Lemma dropWhile_Forall (Q : N -> Prop) (f : N -> bool) (s : list N) :
  Forall Q s -> Forall Q (dropWhile f s).
Proof.
  induction 1 as [|c s Hc Hs IH]; simpl; [constructor|].
  destruct (f c); [exact IH | by constructor].
Qed.

Lemma toLowerCase_no_upper (s : list N) :
  Forall (fun c => isUpper c = false) (toLowerCase s).
Proof.
  induction s as [|a s IH]; simpl; [constructor|].
  apply Forall_app. split; [|exact IH]. unfold lowerUnit.
  destruct ((65 <=? a) && (a <=? 90))%N eqn:E.
  - constructor; [|constructor]. unfold isUpper.
    apply andb_true_iff in E as [E1 E2].
    apply N.leb_le in E1, E2. apply andb_false_iff. right.
    apply N.leb_gt. lia.
  - destruct (a =? 8490)%N; [repeat constructor|].
    destruct (a =? 304)%N; [repeat constructor|].
    constructor; [exact E|constructor].
Qed.

Lemma slugChar_of_word (c : N) :
  isUpper c = false -> (c =? 95)%N = false ->
  negb (isWordChar c || isDash c) = false -> isSlugChar c = true.
Proof.
  unfold isUpper, isWordChar, isDash, isSlugChar. intros Hu Hn Hw.
  apply negb_false_iff in Hw. rewrite Hu, Hn in Hw. cbn [orb] in Hw.
  rewrite orb_false_r in Hw. exact Hw.
Qed.

Lemma noDoubleDash_cons (c d : N) (r : list N) :
  noDoubleDash (c :: d :: r)
  = negb (isDash c && isDash d) && noDoubleDash (d :: r).
Proof. reflexivity. Qed.

Lemma noDoubleDash_tail (c : N) (s : list N) :
  noDoubleDash (c :: s) = true -> noDoubleDash s = true.
Proof.
  destruct s as [|d s]; [reflexivity|]. rewrite noDoubleDash_cons.
  intros H. by apply andb_true_iff in H as [_ H].
Qed.

Lemma noDoubleDash_front (s : list N) (c : N) :
  noDoubleDash (s ++ [c]) = true -> noDoubleDash s = true.
Proof.
  induction s as [|a s IH]; [reflexivity|].
  destruct s as [|b s]; [reflexivity|].
  change ((a :: b :: s) ++ [c]) with (a :: b :: (s ++ [c])).
  change ((b :: s) ++ [c]) with (b :: (s ++ [c])) in IH.
  rewrite !noDoubleDash_cons. intros H.
  apply andb_true_iff in H as [H1 H2]. rewrite H1. by apply IH.
Qed.

Lemma dropWhile_noDoubleDash (f : N -> bool) (s : list N) :
  noDoubleDash s = true -> noDoubleDash (dropWhile f s) = true.
Proof.
  induction s as [|c s IH]; [reflexivity|]. intros H. cbn [dropWhile].
  destruct (f c); [|exact H]. apply IH. by eapply noDoubleDash_tail.
Qed.

Lemma stripEnd_noDoubleDash (f : N -> bool) (s : list N) :
  noDoubleDash s = true -> noDoubleDash (rev (dropWhile f (rev s))) = true.
Proof.
  induction s as [|x s IH] using rev_ind; [reflexivity|]. intros H.
  rewrite rev_app_distr. cbn [rev app dropWhile].
  destruct (f x).
  - apply IH. by eapply noDoubleDash_front.
  - cbn [rev]. by rewrite rev_involutive.
Qed.

(** After the replacement of [/--+/g] no two dashes are adjacent, and what
    follows a run of dashes does not start with a dash. *)
Lemma replaceRuns_dash (s : list N) :
  forall inRun,
    noDoubleDash (replaceRuns isDash (str "-") s inRun) = true
    /\ (inRun = true ->
        match replaceRuns isDash (str "-") s inRun with
        | d :: _ => isDash d = false
        | [] => True
        end).
Proof.
  induction s as [|c s IH]; intros inRun; [by split|].
  cbn [replaceRuns]. destruct (isDash c) eqn:E.
  - destruct inRun; [apply IH|]. split; [|discriminate].
    destruct (IH true) as [Hnd Hhead]. specialize (Hhead eq_refl).
    change (str "-" ++ replaceRuns isDash (str "-") s true)
      with (45%N :: replaceRuns isDash (str "-") s true).
    destruct (replaceRuns isDash (str "-") s true) as [|d r]; [reflexivity|].
    rewrite noDoubleDash_cons, Hhead, andb_false_r. exact Hnd.
  - split; [|intros _; exact E].
    destruct (IH false) as [Hnd _].
    destruct (replaceRuns isDash (str "-") s false) as [|d r]; [reflexivity|].
    rewrite noDoubleDash_cons, E. exact Hnd.
Qed.

Lemma noDoubleDash_includes (s : list N) :
  noDoubleDash s = true -> includes s (str "--") = false.
Proof.
  intros H. unfold includes, indexOf. apply negb_false_iff, Z.eqb_eq.
  generalize 0. induction s as [|c s IH]; intros i; [reflexivity|].
  cbn [indexOfFrom].
  assert (Hs : startsWith (c :: s) (str "--") = false).
  { destruct s as [|d s]; cbn [startsWith str List.map list_ascii_of_string].
    - apply andb_false_r.
    - rewrite noDoubleDash_cons in H. apply andb_true_iff in H as [H _].
      apply negb_true_iff in H. unfold isDash in H.
      change (N_of_ascii "-") with 45%N.
      rewrite (N.eqb_sym 45 c), (N.eqb_sym 45 d), andb_true_r. exact H. }
  rewrite Hs. apply IH. by eapply noDoubleDash_tail.
Qed.

(** X16.  A slug is made of lower-case ASCII letters, digits and dashes
    only; it has no two adjacent dashes and no dash at either end. *)
Theorem slugify_shape (input : list N) :
  Forall (fun c => isSlugChar c = true) (slugify input)
  /\ includes (slugify input) (str "--") = false
  /\ head (slugify input) <> Some 45%N
  /\ last (slugify input) <> Some 45%N.
Proof.
  unfold slugify.
  set (s1 := toLowerCase (trim input)).
  set (s2 := replaceRuns (fun c => N.eqb c 95 || isSpace c) (str "-") s1 false).
  set (s3 := replaceRuns (fun c => negb (isWordChar c || isDash c)) [] s2 false).
  set (s4 := replaceRuns isDash (str "-") s3 false).
  set (t := dropWhile isDash s4).
  assert (H2 : Forall (fun c => isUpper c = false /\ (c =? 95)%N = false) s2).
  { apply replaceRuns_Forall; [repeat constructor|].
    pose proof (toLowerCase_no_upper (trim input)) as H1. fold s1 in H1.
    eapply List.Forall_impl; [|exact H1]. intros c Hc Hf. cbv beta in *.
    apply orb_false_iff in Hf as [Hf _]. by split. }
  assert (H3 : Forall (fun c => isSlugChar c = true) s3).
  { apply replaceRuns_Forall; [constructor|].
    eapply List.Forall_impl; [|exact H2]. intros c [Hu Hn] Hw.
    by apply slugChar_of_word. }
  assert (H4 : Forall (fun c => isSlugChar c = true) s4)
    by (apply replaceRuns_Forall; [repeat constructor | eapply List.Forall_impl; [|exact H3]; auto]).
  assert (Hd : noDoubleDash s4 = true) by apply (replaceRuns_dash s3 false).
  assert (Hfix : dropWhile isDash t = t) by apply dropWhile_idem.
  repeat split.
  - apply Forall_rev, dropWhile_Forall, Forall_rev, dropWhile_Forall, H4.
  - apply noDoubleDash_includes, stripEnd_noDoubleDash, dropWhile_noDoubleDash, Hd.
  - pose proof (dropWhile_rev_dropWhile isDash t Hfix) as Hr.
    destruct (rev (dropWhile isDash (rev t))) as [|c r] eqn:Er; [discriminate|].
    cbn [head]. intros [= ->].
    by pose proof (dropWhile_head isDash _ _ _ Hr).
  - rewrite <- (rev_involutive (rev (dropWhile isDash (rev t)))).
    rewrite (rev_involutive (dropWhile isDash (rev t))).
    rewrite (rev_alt (dropWhile isDash (rev t))).
    change (rev_append (dropWhile isDash (rev t)) [])
      with (reverse (dropWhile isDash (rev t))).
    rewrite last_reverse.
    destruct (dropWhile isDash (rev t)) as [|c r] eqn:Er; [discriminate|].
    cbn [head]. intros [= ->].
    by pose proof (dropWhile_head isDash _ _ _ Er).
Qed.

End Slug.

Section MetaArgs.
Import Js VercelClient JsFacts TrimFacts Samples.

(** The first occurrence: [indexOf] gives a position where the pattern
    starts, and the pattern starts at no earlier position. *)
Lemma indexOfFrom_first (s p : list N) :
  forall i : Z,
    indexOfFrom s p i <> -1 -> 0 <= i ->
    exists k : nat,
      indexOfFrom s p i = i + Z.of_nat k
      /\ startsWith (drop k s) p = true
      /\ forall j, (j < k)%nat -> startsWith (drop j s) p = false.
Proof.
  induction s as [|c s IH]; intros i H Hi; cbn [indexOfFrom] in *.
  - destruct (startsWith [] p) eqn:E; [|done].
    exists 0%nat. rewrite Z.add_0_r. split; [done|]. split; [exact E | lia].
  - destruct (startsWith (c :: s) p) eqn:E.
    + exists 0%nat. rewrite Z.add_0_r. split; [done|]. split; [exact E | lia].
    + destruct (IH (i + 1) H ltac:(lia)) as (k & Hk & Hs & Hbefore).
      exists (S k). split; [lia|]. split; [exact Hs|].
      intros [|j] Hj; [exact E | apply Hbefore; lia].
Qed.

(** What precedes the first [=] of a token, when it is not empty. *)
Lemma key_before_equals (kv : list N) :
  (indexOf kv (str "=") >? 0) = true ->
  let k := slice kv 0 (Some (indexOf kv (str "="))) in
  k <> [] /\ 61%N ∉ k.
Proof.
  intros Hpos k. apply Z.gtb_lt in Hpos.
  destruct (indexOfFrom_first kv (str "=") 0 ltac:(unfold indexOf in Hpos; lia)
              ltac:(lia)) as (n & Hn & Hat & Hbefore).
  fold (indexOf kv (str "=")) in Hn. rewrite Z.add_0_l in Hn.
  assert (Hlt : (n < length kv)%nat).
  { destruct (decide (n < length kv)%nat) as [|Hge]; [done|].
    rewrite drop_ge in Hat by lia. discriminate Hat. }
  assert (Hk : k = take n kv).
  { subst k. unfold slice, sliceIndex, len. rewrite Hn.
    replace (0 <? 0) with false by reflexivity.
    replace (Z.of_nat n <? 0) with false by (symmetry; apply Z.ltb_ge; lia).
    replace (Z.min 0 (Z.of_nat (length kv))) with 0 by lia.
    replace (Z.min (Z.of_nat n) (Z.of_nat (length kv))) with (Z.of_nat n) by lia.
    rewrite Z.sub_0_r, Nat2Z.id. reflexivity. }
  rewrite Hk. split.
  - intros E. apply (f_equal (@length N)) in E.
    rewrite length_take in E. simpl in E. lia.
  - intros Hin. apply list_elem_of_lookup in Hin as [j Hj].
    pose proof (lookup_lt_Some _ _ _ Hj) as Hjn. rewrite length_take in Hjn.
    rewrite lookup_take_lt in Hj by lia.
    pose proof (Hbefore j ltac:(lia)) as Hno.
    rewrite (drop_S kv 61%N j Hj) in Hno. discriminate Hno.
Qed.

Lemma metaLoop_keys (good : list N -> Prop) (tokens : list (list N)) :
  (forall kv, (indexOf kv (str "=") >? 0) = true ->
     slice kv 0 (Some (indexOf kv (str "="))) <> str "__proto__" ->
     good (slice kv 0 (Some (indexOf kv (str "="))))) ->
  forall (skipNext : bool) (meta : gmap (list N) (list N)),
    (forall k v, meta !! k = Some v -> good k) ->
    forall k v, metaLoop tokens skipNext meta !! k = Some v -> good k.
Proof.
  intros Hgood. induction tokens as [|token rest IH]; intros skipNext meta Hmeta;
    cbn [metaLoop]; [exact Hmeta|].
  destruct skipNext; [by apply IH|].
  destruct (bool_decide (token = str "-m") || bool_decide (token = str "--meta"));
    [|by apply IH].
  apply IH. destruct (_ >? 0) eqn:Hpos; [|exact Hmeta].
  unfold objSet. destruct (bool_decide _) eqn:Hproto; [exact Hmeta|].
  apply bool_decide_eq_false in Hproto.
  intros k v. rewrite lookup_insert_Some. intros [[<- _] | [_ Hk]].
  - by apply Hgood.
  - by eapply Hmeta.
Qed.

(** X17.  Every key of the parsed [-m]/[--meta] pairs is non-empty, holds
    no [=] and is not [__proto__]: a pair without [=], with an empty key or
    with the key [__proto__] adds nothing to the metadata. *)
Theorem parseMetaArgs_keys (raw : option (list N)) (k v : list N) :
  parseMetaArgs raw !! k = Some v ->
  k <> [] /\ (61%N ∉ k) /\ k <> str "__proto__".
Proof.
  unfold parseMetaArgs. destruct (negb (truthyOpt raw)); [by rewrite lookup_empty|].
  apply (metaLoop_keys (fun k => k <> [] /\ (61%N ∉ k) /\ k <> str "__proto__")).
  - intros kv Hpos Hproto.
    destruct (key_before_equals kv Hpos) as [Hne Heq]. by repeat split.
  - intros k0 v0. by rewrite lookup_empty.
Qed.

Lemma parseMetaArgs_keys_witness :
  str "team" <> [] /\ (61%N ∉ str "team") /\ str "team" <> str "__proto__".
Proof.
  apply (parseMetaArgs_keys (Some (str "-m githubCommitSha=override --meta team=docs"))
           (str "team") (str "docs")).
  vm_compute. reflexivity.
Defined.

End MetaArgs.

Section Templates.
Import Js VercelClient JsFacts TrimFacts Samples.

Lemma no_template_anywhere (d : list N) (k : nat) :
  includes d (str "{{") = false -> startsWith (drop k d) (str "{{") = false.
Proof.
  intros H. apply not_true_is_false. intros Hs.
  apply startsWith_prefix in Hs.
  exact (includes_false_no_occurrence d (str "{{") k H Hs).
Qed.

Lemma replaceTemplateFrom_plain (name rep s : list N) :
  (forall k, startsWith (drop k s) (str "{{") = false) ->
  forall before, replaceTemplateFrom name rep s before 0 = s.
Proof.
  induction s as [|c s IH]; intros Hs before; [reflexivity|].
  cbn [replaceTemplateFrom]. unfold templateAt.
  rewrite (Hs 0%nat : startsWith (c :: s) (str "{{") = false).
  f_equal. apply IH. intros k. exact (Hs (S k)).
Qed.

Lemma replaceTemplate_plain (name rep d : list N) :
  includes d (str "{{") = false -> replaceTemplate name rep d = d.
Proof.
  intros H. apply replaceTemplateFrom_plain. intros k.
  by apply no_template_anywhere.
Qed.

(** X18.  No alias candidate that comes out of [templateAliasDomains]
    contains [{{]: a domain with a token that was not filled in is dropped.
    And domains without any [{{] are returned as they are, in order. *)
Theorem templateAliasDomains_resolved (env : gmap string (list N))
    (domains : list (list N)) :
  Forall (fun d => includes d (str "{{") = false)
         (templateAliasDomains env (Some domains))
  /\ (Forall (fun d => includes d (str "{{") = false) domains ->
      templateAliasDomains env (Some domains) = domains).
Proof.
  split.
  - unfold templateAliasDomains. destruct domains as [|d0 ds]; [constructor|].
    apply Forall_forall. intros d Hd. apply list_elem_of_In, filter_In in Hd as [_ Hd].
    by apply negb_true_iff.
  - intros Hplain. unfold templateAliasDomains.
    destruct domains as [|d0 ds]; [reflexivity|].
    set (all := d0 :: ds) in *. clearbody all.
    induction Hplain as [|d l Hd Hl IH]; [reflexivity|].
    cbn [List.map List.filter].
    rewrite (replaceTemplate_plain (str "BRANCH") _ d Hd).
    assert (Hsame :
      (if truthy (orElse (env !! "GITHUB_PR_NUMBER"%string) [])
       then replaceTemplate (str "PR_NUMBER")
              (orElse (env !! "GITHUB_PR_NUMBER"%string) []) d
       else d) = d).
    { destruct (truthy _); [by apply replaceTemplate_plain | reflexivity]. }
    rewrite Hsame, Hd. cbn [negb]. f_equal. exact IH.
Qed.

Lemma templateAliasDomains_resolved_witness :
  templateAliasDomains canaryEnv (Some [str "a.example.com"; str "b.example.com"])
  = [str "a.example.com"; str "b.example.com"].
Proof.
  apply (proj2 (templateAliasDomains_resolved canaryEnv
                  [str "a.example.com"; str "b.example.com"])).
  repeat constructor.
Defined.

End Templates.

(** ** Computations that stay silent, and computations that never throw *)

Section Silence.
Import Js Notions MoreNotions.
Context (P : Event -> bool).

Lemma silent_ret {A} (a : A) : silent P (ret a).
Proof. intros w. reflexivity. Qed.

Lemma silent_throw {A} (e : Thrown) : silent P (@throw A e).
Proof. intros w. reflexivity. Qed.

Lemma silent_lift {A} (r : Result A) : silent P (lift r).
Proof. intros w. reflexivity. Qed.

Lemma silent_emit (e : Event) : P e = false -> silent P (emit e).
Proof.
  intros He w. cbn [emit snd record trace]. rewrite List.filter_app.
  cbn [List.filter]. rewrite He. apply app_nil_r.
Qed.

Lemma silent_getEnv (name : string) : silent P (getEnv name).
Proof. intros w. reflexivity. Qed.

Lemma silent_setEnv (name : string) (v : list N) : silent P (setEnv name v).
Proof. intros w. reflexivity. Qed.

Lemma silent_bind {A B} (m : M A) (k : A -> M B) :
  silent P m -> (forall a, silent P (k a)) -> silent P (bind m k).
Proof.
  intros Hm Hk w. unfold bind. specialize (Hm w).
  destruct (m w) as [[a|e] w1]; cbn [snd] in *; [|exact Hm].
  by rewrite Hk.
Qed.

Lemma silent_tryCatch {A} (m : M A) (h : Thrown -> M A) :
  silent P m -> (forall e, silent P (h e)) -> silent P (tryCatch m h).
Proof.
  intros Hm Hh w. unfold tryCatch. specialize (Hm w).
  destruct (m w) as [[a|e] w1]; cbn [snd] in *; [exact Hm|].
  by rewrite Hh.
Qed.

Lemma silent_call {A} (e : Event) (r : Result A) :
  P e = false -> silent P (call e r).
Proof.
  intros He. unfold call.
  apply silent_bind; [by apply silent_emit | intros _; apply silent_lift].
Qed.

End Silence.

Section Safety.
Import Js Notions MoreNotions.

Lemma safe_ret {A} (a : A) : safe (ret a).
Proof. intros w. by exists a, w. Qed.

Lemma safe_emit (e : Event) : safe (emit e).
Proof. intros w. by exists tt, (record e w). Qed.

Lemma safe_bind {A B} (m : M A) (k : A -> M B) :
  safe m -> (forall a, safe (k a)) -> safe (bind m k).
Proof.
  intros Hm Hk w. unfold bind. destruct (Hm w) as (a & w1 & ->). apply Hk.
Qed.

Lemma safe_tryCatch {A} (m : M A) (h : Thrown -> M A) :
  (forall e, safe (h e)) -> safe (tryCatch m h).
Proof.
  intros Hh w. unfold tryCatch. destruct (m w) as [[a|e] w1].
  - by exists a, w1.
  - apply Hh.
Qed.

End Safety.

(** ** The Vercel client: what a deployment returns and sends *)

Section DeployOutcome.
Import Js VercelClient JsFacts TrimFacts Notions Samples MoreNotions MoreSamples.

Lemma bind_Ok_inv {A B} (m : M A) (k : A -> M B) (w w' : World) (b : B) :
  bind m k w = (Ok b, w') ->
  exists a w1, m w = (Ok a, w1) /\ k a w1 = (Ok b, w').
Proof.
  unfold bind. destruct (m w) as [[a|e] w1]; [|discriminate].
  intros H. by exists a, w1.
Qed.

(** The alias loop never throws, and the URL it returns starts with
    [https://] when the URL it was given does. *)
Lemma aliasLoop_https (pf : Platform) (options : VercelDeployOptions)
    (deploymentId : list N) (domains : list (list N)) :
  forall (url : list N) (canonicalSet : bool) (w : World),
    startsWith url (str "https://") = true ->
    exists url' w',
      aliasLoop pf options deploymentId domains url canonicalSet w = (Ok url', w')
      /\ startsWith url' (str "https://") = true.
Proof.
  induction domains as [|d ds IH]; intros url canonicalSet w Hurl;
    cbn [aliasLoop].
  - by exists url, w.
  - unfold bind at 1, tryCatch at 1.
    destruct ((assignAlias pf options deploymentId d;; ret true) w)
      as [[assigned|e] w1].
    + destruct (assigned && negb canonicalSet && includes d (str "."));
        [apply IH; apply startsWith_app | by apply IH].
    + cbn [ret andb]. by apply IH.
Qed.

(** X19.  Whenever [deployToVercel] returns, the URL of its result starts
    with [https://]; in particular it is never empty. *)
Theorem deployToVercel_url_https (pf : Platform) (options : VercelDeployOptions)
    (w w' : World) (result : VercelDeployResult) :
  deployToVercel pf options w = (Ok result, w') ->
  startsWith (url result) (str "https://") = true.
Proof.
  unfold deployToVercel. intros H.
  apply bind_Ok_inv in H as (env0 & w1 & _ & H).
  apply bind_Ok_inv in H as (files & w2 & _ & H).
  apply bind_Ok_inv in H as (teamPart & w3 & _ & H).
  apply bind_Ok_inv in H as (reply & w4 & _ & H).
  apply bind_Ok_inv in H as (resText & w5 & _ & H).
  apply bind_Ok_inv in H as (json & w6 & _ & H).
  destruct (truthyOpt (json_url json)); [|discriminate H].
  set (url0 := str "https://" ++ orElse (json_url json) []) in H.
  assert (Hurl0 : startsWith url0 (str "https://") = true) by apply startsWith_app.
  assert (Htruthy : truthy url0 = true) by reflexivity.
  rewrite Htruthy in H. cbn [negb] in H. clearbody url0.
  apply bind_Ok_inv in H as (url1 & w7 & Hloop & H).
  apply bind_Ok_inv in H as (u & w8 & _ & H).
  assert (Hres : url result = url1) by (by injection H as <- _).
  rewrite Hres.
  destruct (_ && _) in Hloop.
  - destruct (aliasLoop_https pf options (orElse (json_id json) [])
                (allAliases options env0) url0 false w6 Hurl0)
      as (url' & w'' & Hrun & Hok).
    rewrite Hrun in Hloop. by injection Hloop as <- _.
  - by injection Hloop as <- _.
Qed.

Lemma deployToVercel_url_https_witness :
  startsWith (str "https://canary.example.com") (str "https://") = true.
Proof.
  apply (deployToVercel_url_https samplePlatform canaryOptions canaryWorld
           (snd (deployToVercel samplePlatform canaryOptions canaryWorld))
           {| url := str "https://canary.example.com"; id := Some (str "dpl_1") |}).
  vm_compute. reflexivity.
Defined.

(** X20.  When the deployment request is not answered with a 2xx status,
    [deployToVercel] throws at once: the network error itself, or an error
    that carries the status and the text of the reply.  The deployment
    request is the only request of the run: no alias is assigned and no
    output is written. *)
Theorem deployToVercel_request_fails
    (pf : Platform) (options : VercelDeployOptions) (w : World)
    (files : list (list N * list N)) (teamPart : list N) (reply : HttpsReply) :
  collectFiles pf (orElse (Some (workingDirectory options)) (str ".")) = Ok files ->
  encodeURIComponent pf (orgId options) = Ok teamPart ->
  https_reply pf (requestsSent w) (deployRequest pf options (env w) files teamPart)
  = reply ->
  match reply with
  | Response statusCode _ => is2xx statusCode = false
  | NetworkError _ => True
  end ->
  deployToVercel pf options w
  = (Throw (match reply with
            | NetworkError e => e
            | Response statusCode txt =>
                JsError (str "Vercel API error: " ++ statusText statusCode
                         ++ [10%N] ++ txt)
            end),
     record (Https (deployRequest pf options (env w) files teamPart)) w).
Proof.
  intros Hfiles Hteam Hreply Hbad.
  unfold deployToVercel.
  unfold bind at 1. unfold bind at 1, lift at 1. rewrite Hfiles.
  unfold bind at 1, lift at 1. rewrite Hteam.
  unfold bind at 1, httpsRequest at 1, bind at 1, emit at 1, ret at 1.
  rewrite Hreply. destruct reply as [e | statusCode txt].
  - reflexivity.
  - rewrite Hbad. reflexivity.
Qed.

Lemma deployToVercel_request_fails_witness :
  deployToVercel rejectingPlatform canaryOptions canaryWorld
  = (Throw (JsError (str "Vercel API error: " ++ statusText (Some 403)
                     ++ [10%N] ++ str "forbidden")),
     record (Https (deployRequest rejectingPlatform canaryOptions
                      (env canaryWorld) [(str "package.json", str "e30=")]
                      (str "team_1")))
            canaryWorld).
Proof.
  apply (deployToVercel_request_fails rejectingPlatform canaryOptions canaryWorld
           [(str "package.json", str "e30=")] (str "team_1")
           (Response (Some 403) (str "forbidden")));
    reflexivity.
Defined.

Lemma requestsSent_record_other (e : Event) (w : World) :
  isHttps e = false -> requestsSent (record e w) = requestsSent w.
Proof.
  intros He. unfold requestsSent, record. cbn [trace].
  rewrite List.filter_app, length_app. cbn [List.filter]. rewrite He.
  simpl. lia.
Qed.

(** X21.  Off the alias branch no alias is requested.  For a deployment
    that Vercel accepted, when the alias branch is not the current branch
    (or is not given), the deployment request is the only request of the run
    and the URL returned is the URL of the deployment, whatever alias
    candidates are configured. *)
Theorem deployToVercel_no_alias_off_branch
    (pf : Platform) (options : VercelDeployOptions) (w : World)
    (files : list (list N * list N)) (teamPart : list N)
    (statusCode : option Z) (txt : list N) (json : DeployJson) (u : list N) :
  collectFiles pf (orElse (Some (workingDirectory options)) (str ".")) = Ok files ->
  encodeURIComponent pf (orgId options) = Ok teamPart ->
  https_reply pf (requestsSent w) (deployRequest pf options (env w) files teamPart)
  = Response statusCode txt ->
  is2xx statusCode = true ->
  JSON_parse pf txt = Ok json ->
  json_url json = Some u -> truthy u = true ->
  aliasBranch options <> Some (getBranch (env w)) ->
  (forall path line, appendFileSync pf path line = Ok tt) ->
  exists w',
    deployToVercel pf options w
    = (Ok {| url := str "https://" ++ u; id := json_id json |}, w')
    /\ requestsSent w' = S (requestsSent w).
Proof.
  intros Hfiles Hteam Hreply H2xx Hjson Hurl Hu Hbranch Happend.
  unfold deployToVercel.
  unfold bind at 1. unfold bind at 1, lift at 1. rewrite Hfiles.
  unfold bind at 1, lift at 1. rewrite Hteam.
  unfold bind at 1, httpsRequest at 1, bind at 1, emit at 1, ret at 1.
  rewrite Hreply, H2xx.
  unfold bind at 1, ret at 1. unfold bind at 1, lift at 1. rewrite Hjson.
  rewrite Hurl. cbn [truthyOpt orElse]. rewrite Hu.
  assert (Htruthy : truthy (str "https://" ++ u) = true) by reflexivity.
  rewrite Htruthy. cbn [negb].
  rewrite (bool_decide_eq_false_2 (Some (getBranch (env w)) = aliasBranch options))
    by (intros E; by apply Hbranch).
  rewrite andb_false_r. cbn [andb].
  unfold bind at 1, ret at 1.
  set (request := deployRequest pf options (env w) files teamPart).
  pose proof (requestsSent_record_https request w) as Hsent.
  unfold bind, call, emit, lift, ret.
  destruct (env w !! "GITHUB_OUTPUT"%string) as [out|];
    [|eexists; split; [reflexivity | exact Hsent]].
  destruct (truthy out); [|eexists; split; [reflexivity | exact Hsent]].
  rewrite !Happend. eexists. split; [reflexivity|].
  rewrite !requestsSent_record_other by reflexivity. exact Hsent.
Qed.

Lemma deployToVercel_no_alias_off_branch_witness :
  exists w',
    deployToVercel samplePlatform mainOnlyOptions canaryWorld
    = (Ok {| url := str "https://" ++ str "c15t-abc.vercel.app";
             id := Some (str "dpl_1") |}, w')
    /\ requestsSent w' = S (requestsSent canaryWorld).
Proof.
  apply (deployToVercel_no_alias_off_branch samplePlatform mainOnlyOptions canaryWorld
           [(str "package.json", str "e30=")] (str "team_1")
           (Some 200) (str "{...}")
           {| json_url := Some (str "c15t-abc.vercel.app");
              json_id := Some (str "dpl_1") |}
           (str "c15t-abc.vercel.app"));
    try reflexivity.
  vm_compute. discriminate.
Defined.

End DeployOutcome.

(** ** The deployment step: environment, gate and statuses *)

Section DeploymentRecords.
Import Js VercelClient Errors Deployment JsFacts TrimFacts Notions Samples.
Import MoreNotions MoreSamples.

Lemma setEnvIfFalsy_run (n : string) (x : list N) (w : World) :
  exists w',
    setEnvIfFalsy n x w = (Ok tt, w')
    /\ trace w' = trace w
    /\ forall name v, env w !! name = Some v -> truthy v = true ->
                      env w' !! name = Some v.
Proof.
  unfold setEnvIfFalsy, bind, getEnv.
  destruct (truthyOpt (env w !! n)) eqn:Hn; cbn [negb].
  - exists w. by repeat split.
  - eexists. split; [reflexivity|]. split; [reflexivity|].
    intros name v Hv Ht. cbn [env].
    destruct (decide (n = name)) as [->|Hne].
    + rewrite Hv in Hn. cbn [truthyOpt] in Hn. congruence.
    + by rewrite lookup_insert_ne.
Qed.

(** X22.  [ensureGitMetaEnv] never throws and only fills in what is
    missing: a variable of the environment that holds a non-empty value keeps
    it, whatever the commit lookup returns. *)
Theorem ensureGitMetaEnv_keeps_values (octokit : Octokit) (ctx : Context)
    (w : World) (name : string) (v : list N) :
  env w !! name = Some v -> truthy v = true ->
  exists w',
    ensureGitMetaEnv octokit ctx w = (Ok tt, w')
    /\ env w' !! name = Some v.
Proof.
  intros Hv Ht. unfold ensureGitMetaEnv.
  unfold bind at 1, getEnv at 1. unfold bind at 1, getEnv at 1.
  unfold bind at 1, getEnv at 1.
  destruct (_ && _); [by exists w|].
  unfold tryCatch, bind at 1, call, bind at 1, emit, lift.
  destruct (repos_getCommit octokit (sha ctx)) as [commit|e];
    [|eexists; split; [reflexivity | exact Hv]].
  set (w0 := record (GetCommit (sha ctx)) w).
  assert (Hv0 : forall name0 v0, env w !! name0 = Some v0 -> truthy v0 = true ->
                                 env w0 !! name0 = Some v0) by (intros; assumption).
  destruct (setEnvIfFalsy_run "GITHUB_COMMIT_MESSAGE"
              (orElse (commit_message commit) []) w0) as (w1 & R1 & _ & K1).
  destruct (setEnvIfFalsy_run "GITHUB_COMMIT_AUTHOR_NAME"
              (orElse (commit_author_name commit) []) w1) as (w2 & R2 & _ & K2).
  destruct (setEnvIfFalsy_run "GITHUB_COMMIT_AUTHOR_LOGIN"
              (orElse (actor ctx) []) w2) as (w3 & R3 & _ & K3).
  unfold bind at 1. rewrite R1. unfold bind at 1. rewrite R2.
  unfold bind at 1. rewrite R3.
  assert (Hv3 : env w3 !! name = Some v).
  { apply K3; [|exact Ht]. apply K2; [|exact Ht]. apply K1; [|exact Ht].
    by apply Hv0. }
  unfold bind, getEnv.
  destruct (truthyOpt (env w3 !! "GITHUB_PR_NUMBER"%string)) eqn:Hpr; cbn [negb];
    [by exists w3|].
  destruct (pull_request (payload ctx)) as [[[prNum|] base]|];
    try (by exists w3).
  eexists. split; [reflexivity|]. cbn [env].
  destruct (decide ("GITHUB_PR_NUMBER"%string = name)) as [<-|Hne].
  - rewrite Hv3 in Hpr. cbn [truthyOpt] in Hpr. congruence.
  - by rewrite lookup_insert_ne.
Qed.

Lemma ensureGitMetaEnv_keeps_values_witness :
  exists w',
    ensureGitMetaEnv sampleOctokit (prContext (str "main")) canaryWorld = (Ok tt, w')
    /\ env w' !! "GITHUB_SHA"%string = Some (str "abc123").
Proof.
  apply (ensureGitMetaEnv_keeps_values sampleOctokit (prContext (str "main"))
           canaryWorld "GITHUB_SHA"%string (str "abc123")); reflexivity.
Defined.

Lemma deployEvents_record (e : Event) (w : World) :
  isDeployEvent e = false -> deployEvents (record e w) = deployEvents w.
Proof.
  intros He. unfold deployEvents, record. cbn [trace].
  rewrite List.filter_app. cbn [List.filter]. rewrite He. apply app_nil_r.
Qed.

(** X23.  When the policy gate is closed, [performVercelDeployment]
    returns [undefined] without touching GitHub deployments or Vercel: no
    deployment record is created, no status is set and no request is sent,
    whatever the other inputs are. *)
Theorem performVercelDeployment_policy_closed
    (inputs : Inputs) (pf : Platform) (octokit : Octokit) (ctx : Context)
    (w : World) :
  Changes.shouldDeployByPolicy ctx (Some (deployOnPushBranches inputs))
                               (Some (deployOnPrBaseBranches inputs)) = false ->
  exists w',
    performVercelDeployment inputs pf octokit ctx w = (Ok None, w')
    /\ deployEvents w' = deployEvents w.
Proof.
  intros Hpolicy. unfold performVercelDeployment.
  destruct (_ || _); [by exists w|].
  rewrite Hpolicy. cbn [negb].
  destruct (setupDocs inputs).
  - unfold bind at 1, tryCatch, bind at 1, call, bind at 1, emit at 1, lift.
    destruct (setupDocsWithScript pf (consentGitToken inputs)) as [[]|e].
    + cbn [ret negb]. unfold bind, emit, ret. eexists. split; [reflexivity|].
      by rewrite !deployEvents_record.
    + unfold bind, emit, ret. cbn [negb]. eexists. split; [reflexivity|].
      by rewrite !deployEvents_record.
  - unfold bind, ret, emit. cbn [negb]. eexists. split; [reflexivity|].
    by rewrite !deployEvents_record.
Qed.

Lemma performVercelDeployment_policy_closed_witness :
  exists w',
    performVercelDeployment stickyInputs samplePlatform sampleOctokit
      (pushContext (str "feature/x")) emptyWorld = (Ok None, w')
    /\ deployEvents w' = deployEvents emptyWorld.
Proof.
  apply (performVercelDeployment_policy_closed stickyInputs samplePlatform
           sampleOctokit (pushContext (str "feature/x")) emptyWorld).
  reflexivity.
Defined.

End DeploymentRecords.

Section StatusBracket.
Import Js VercelClient Errors Deployment JsFacts TrimFacts Notions Samples.
Import MoreNotions MoreSamples.

Ltac silence :=
  repeat first
    [ apply silent_ret | apply silent_throw | apply silent_lift
    | apply silent_getEnv | apply silent_setEnv
    | apply silent_emit; reflexivity
    | apply silent_call; reflexivity
    | apply silent_bind; [|intros ?]
    | apply silent_tryCatch; [|intros ?]
    | solve [intros ?; reflexivity]
    | match goal with |- silent _ (if ?b then _ else _) => destruct b end
    | match goal with |- silent _ (match ?x with _ => _ end) => destruct x end ].

Lemma flat_map_statusOf_filter (l : list Event) :
  flat_map statusOf (List.filter isStatus l) = flat_map statusOf l.
Proof.
  induction l as [|e l IH]; [reflexivity|].
  destruct e; cbn [List.filter isStatus flat_map statusOf app]; try exact IH.
  by rewrite IH.
Qed.

Lemma silent_statusLog {A} (m : M A) (w : World) :
  silent isStatus m -> statusLog (snd (m w)) = statusLog w.
Proof.
  intros H. unfold statusLog.
  by rewrite <- flat_map_statusOf_filter, H, flat_map_statusOf_filter.
Qed.

Lemma statusLog_record (e : Event) (w : World) :
  statusLog (record e w) = statusLog w ++ statusOf e.
Proof.
  unfold statusLog, record. cbn [trace]. rewrite flat_map_app.
  cbn [flat_map]. by rewrite app_nil_r.
Qed.

Lemma calm {A} (m : M A) :
  safe m -> silent isStatus m ->
  forall w, exists a w', m w = (Ok a, w') /\ statusLog w' = statusLog w.
Proof.
  intros Hsafe Hsilent w. destruct (Hsafe w) as (a & w' & Hrun).
  exists a, w'. split; [exact Hrun|].
  pose proof (silent_statusLog m w Hsilent) as H. by rewrite Hrun in H.
Qed.

Lemma silent_httpsRequest (pf : Platform) (request : HttpsRequest) :
  silent isStatus (httpsRequest pf request).
Proof.
  intros w. unfold httpsRequest, bind, emit, ret. cbn [snd record trace].
  rewrite List.filter_app. apply app_nil_r.
Qed.

Lemma silent_aliasLoop (pf : Platform) (options : VercelDeployOptions)
    (deploymentId : list N) (domains : list (list N)) :
  forall url canonicalSet,
    silent isStatus (aliasLoop pf options deploymentId domains url canonicalSet).
Proof.
  induction domains as [|d ds IH]; intros url canonicalSet; cbn [aliasLoop].
  - apply silent_ret.
  - apply silent_bind.
    + apply silent_tryCatch; [|intros _; apply silent_ret].
      apply silent_bind; [|intros _; apply silent_ret].
      unfold assignAlias.
      apply silent_bind; [apply silent_lift | intros idPart].
      apply silent_bind; [apply silent_lift | intros teamPart].
      apply silent_bind; [apply silent_httpsRequest | intros [e | statusCode txt]].
      * apply silent_throw.
      * destruct (is2xx statusCode); [apply silent_ret | apply silent_throw].
    + intros assigned.
      destruct (assigned && negb canonicalSet && includes d (str ".")); apply IH.
Qed.

Lemma silent_deployToVercel (pf : Platform) (options : VercelDeployOptions) :
  silent isStatus (deployToVercel pf options).
Proof.
  unfold deployToVercel.
  apply silent_bind; [intros w; reflexivity | intros env0].
  apply silent_bind; [apply silent_lift | intros files].
  apply silent_bind; [apply silent_lift | intros teamPart].
  apply silent_bind; [apply silent_httpsRequest | intros reply].
  apply silent_bind.
  { destruct reply as [e | statusCode txt]; [apply silent_throw|].
    destruct (is2xx statusCode); [apply silent_ret | apply silent_throw]. }
  intros resText. apply silent_bind; [apply silent_lift | intros json].
  match goal with |- silent _ (if ?b then _ else _) => destruct b end;
    [apply silent_throw|].
  apply silent_bind.
  { match goal with |- silent _ (if ?b then _ else _) => destruct b end;
      [apply silent_aliasLoop | apply silent_ret]. }
  intros url1. apply silent_bind; [|intros _; apply silent_ret].
  destruct (env0 !! "GITHUB_OUTPUT"%string) as [out|]; [|apply silent_ret].
  destruct (truthy out); [|apply silent_ret].
  apply silent_bind; [by apply silent_call | intros _; by apply silent_call].
Qed.

Lemma silent_errorItems (items : list (list N)) : silent isStatus (errorItems items).
Proof.
  induction items as [|item items IH]; cbn [errorItems]; [apply silent_ret|].
  apply silent_bind; [by apply silent_emit | intros _; exact IH].
Qed.

Lemma silent_retryLoop {R : Type} (operation : M R)
    (mapError : Thrown -> ActionableError) (maxR base maxDelay : Z) :
  silent isStatus operation ->
  forall remaining attempt last,
    silent isStatus
      (retryLoop operation mapError maxR base maxDelay timerSleep
         remaining attempt last).
Proof.
  intros Hop. induction remaining as [|r IH]; intros attempt last;
    cbn [retryLoop]; [apply silent_throw|].
  apply silent_tryCatch; [exact Hop | intros e].
  destruct (negb (retryable (mapError e)) || (attempt =? maxR)).
  - apply silent_bind; [by apply silent_emit | intros _].
    apply silent_bind; [by apply silent_emit | intros _].
    apply silent_bind; [apply silent_errorItems | intros _; apply silent_throw].
  - apply silent_bind; [by apply silent_emit | intros _].
    apply silent_bind; [by apply silent_emit | intros _; apply IH].
Qed.

Lemma silent_detectRelevantChanges (octokit : Changes.Octokit) (ctx : Context)
    (globs : list (list N)) :
  silent isStatus (Changes.detectRelevantChanges octokit ctx globs).
Proof. unfold Changes.detectRelevantChanges. silence. Qed.

Lemma safe_detectRelevantChanges (octokit : Changes.Octokit) (ctx : Context)
    (globs : list (list N)) :
  safe (Changes.detectRelevantChanges octokit ctx globs).
Proof.
  unfold Changes.detectRelevantChanges. apply safe_tryCatch. intros e.
  apply safe_bind; [apply safe_emit | intros _; apply safe_ret].
Qed.

Lemma silent_createGitHubDeployment (octokit : Octokit) (name : list N)
    (template_sha : option (list N)) :
  silent isStatus (createGitHubDeployment octokit name template_sha).
Proof. unfold createGitHubDeployment. silence. Qed.

Lemma safe_createGitHubDeployment (octokit : Octokit) (name : list N)
    (template_sha : option (list N)) :
  safe (createGitHubDeployment octokit name template_sha).
Proof.
  unfold createGitHubDeployment. apply safe_tryCatch. intros e.
  apply safe_bind; [apply safe_emit | intros _; apply safe_ret].
Qed.

Lemma silent_ensureGitMetaEnv (octokit : Octokit) (ctx : Context) :
  silent isStatus (ensureGitMetaEnv octokit ctx).
Proof. unfold ensureGitMetaEnv, setEnvIfFalsy. silence. Qed.

Lemma safe_ensureGitMetaEnv (octokit : Octokit) (ctx : Context) :
  safe (ensureGitMetaEnv octokit ctx).
Proof.
  unfold ensureGitMetaEnv.
  apply safe_bind; [intros w; by eexists _, _ | intros msg].
  apply safe_bind; [intros w; by eexists _, _ | intros name].
  apply safe_bind; [intros w; by eexists _, _ | intros login].
  destruct (_ && _); [apply safe_ret|].
  apply safe_tryCatch. intros e. apply safe_emit.
Qed.

(** Setting a status never throws, and logs the state once. *)
Lemma setGitHubDeploymentStatus_run (octokit : Octokit) (d : Z)
    (state : DeploymentState) (description : list N)
    (environmentUrl : option (list N)) (w : World) :
  exists w',
    setGitHubDeploymentStatus octokit d state description environmentUrl w
    = (Ok tt, w')
    /\ statusLog w' = statusLog w ++ [(d, state)].
Proof.
  unfold setGitHubDeploymentStatus, tryCatch, call, bind, emit, lift.
  destruct (repos_createDeploymentStatus octokit d state) as [[]|e].
  - eexists. split; [reflexivity|]. by rewrite statusLog_record.
  - eexists. split; [reflexivity|]. rewrite !statusLog_record.
    cbn [statusOf]. by rewrite app_nil_r.
Qed.

(** What follows the creation of the deployment record. *)
Lemma deployment_tail (octokit : Octokit) (ctx : Context)
    (operation : M VercelDeployResult) (deploymentId : option Z)
    (description : list N) :
  silent isStatus operation ->
  forall w, exists r w',
    (match deploymentId with
     | Some d =>
         setGitHubDeploymentStatus octokit d in_progress
           (str "Starting Vercel deploy") None
     | None => ret tt
     end ;;
     ensureGitMetaEnv octokit ctx ;;
     tryCatch
       (let* result := executeWithRetry operation handleVercel (Some (inl 3)) in
        let url := url result in
        emit (CoreSetOutput (str "deployment_url") (Some url)) ;;
        match deploymentId with
        | Some d =>
            setGitHubDeploymentStatus octokit d success description (Some url)
        | None => ret tt
        end ;;
        ret (Some url))
       (fun e =>
          emit (CoreSetFailed (str "vercel deployment failed: " ++ errorText e)) ;;
          match deploymentId with
          | Some d =>
              setGitHubDeploymentStatus octokit d failure
                (str "Vercel deployment failed") None
          | None => ret tt
          end ;;
          ret None)) w
    = (Ok r, w')
    /\ statusLog w'
       = statusLog w
         ++ match deploymentId with
            | Some d =>
                [(d, in_progress);
                 (d, match r with Some _ => success | None => failure end)]
            | None => []
            end.
Proof.
  intros Hop w.
  (* the status in_progress *)
  assert (H1 : exists w1,
    (match deploymentId with
     | Some d =>
         setGitHubDeploymentStatus octokit d in_progress
           (str "Starting Vercel deploy") None
     | None => ret tt
     end) w = (Ok tt, w1)
    /\ statusLog w1
       = statusLog w
         ++ match deploymentId with Some d => [(d, in_progress)] | None => [] end).
  { destruct deploymentId as [d|].
    - apply setGitHubDeploymentStatus_run.
    - exists w. by rewrite app_nil_r. }
  destruct H1 as (w1 & R1 & L1).
  unfold bind at 1. rewrite R1.
  destruct (calm _ (safe_ensureGitMetaEnv octokit ctx)
                 (silent_ensureGitMetaEnv octokit ctx) w1) as ([] & w2 & R2 & L2).
  unfold bind at 1. rewrite R2.
  unfold tryCatch, bind at 1.
  pose proof (silent_statusLog
                (executeWithRetry operation handleVercel (Some (inl 3))) w2
                (silent_retryLoop operation handleVercel 3 1000 30000 Hop 3%nat 1 None))
    as L3.
  destruct (executeWithRetry operation handleVercel (Some (inl 3)) w2)
    as [[result|e] w3]; cbn [snd] in L3.
  - cbv zeta. unfold bind at 1, emit at 1.
    set (w4 := record (CoreSetOutput (str "deployment_url") (Some (url result))) w3).
    assert (L4 : statusLog w4 = statusLog w3)
      by (unfold w4; rewrite statusLog_record; apply app_nil_r).
    destruct deploymentId as [d|].
    + destruct (setGitHubDeploymentStatus_run octokit d success description
                  (Some (url result)) w4) as (w5 & R5 & L5).
      unfold bind at 1. rewrite R5. cbn [ret].
      exists (Some (url result)), w5. split; [reflexivity|].
      rewrite L5, L4, L3, L2, L1, <- app_assoc. reflexivity.
    + exists (Some (url result)), w4. split; [reflexivity|].
      by rewrite L4, L3, L2, L1.
  - unfold bind at 1, emit at 1.
    set (w4 := record (CoreSetFailed (str "vercel deployment failed: " ++ errorText e)) w3).
    assert (L4 : statusLog w4 = statusLog w3)
      by (unfold w4; rewrite statusLog_record; apply app_nil_r).
    destruct deploymentId as [d|].
    + destruct (setGitHubDeploymentStatus_run octokit d failure
                  (str "Vercel deployment failed") None w4) as (w5 & R5 & L5).
      unfold bind at 1. rewrite R5. cbn [ret].
      exists None, w5. split; [reflexivity|].
      rewrite L5, L4, L3, L2, L1, <- app_assoc. reflexivity.
    + exists None, w4. split; [reflexivity|].
      by rewrite L4, L3, L2, L1.
Qed.

(** Creating the deployment record never throws and sets no status; an
    id it returns is the id that GitHub gave to the record. *)
Lemma createGitHubDeployment_run (octokit : Octokit) (name : list N)
    (template_sha : option (list N)) (w : World) :
  exists deploymentId w',
    createGitHubDeployment octokit name template_sha w = (Ok deploymentId, w')
    /\ statusLog w' = statusLog w
    /\ forall d, deploymentId = Some d ->
                 repos_createDeployment octokit name = Ok (Some d).
Proof.
  unfold createGitHubDeployment, tryCatch, call, bind, emit, lift, ret.
  destruct (repos_createDeployment octokit name) as [deploymentId|e].
  - eexists _, _. split; [reflexivity|]. split.
    + rewrite statusLog_record. apply app_nil_r.
    + by intros d ->.
  - eexists _, _. split; [reflexivity|]. split.
    + rewrite !statusLog_record. cbn [statusOf]. by rewrite !app_nil_r.
    + intros d [=].
Qed.

(** X24.  [performVercelDeployment] never throws, and the statuses it sets
    form a bracket: either it sets none (the step was skipped, or no
    deployment record could be created), or it sets [in_progress] and then
    exactly one final status on the record it created: [success] when it
    returns a URL, [failure] when it returns [undefined]. *)
Theorem performVercelDeployment_status_bracket
    (inputs : Inputs) (pf : Platform) (octokit : Octokit) (ctx : Context)
    (w : World) :
  exists r w',
    performVercelDeployment inputs pf octokit ctx w = (Ok r, w')
    /\ (statusLog w' = statusLog w
        \/ exists d environment,
             repos_createDeployment octokit environment = Ok (Some d)
             /\ statusLog w'
                = statusLog w
                  ++ [(d, in_progress);
                      (d, match r with Some _ => success | None => failure end)]).
Proof.
  unfold performVercelDeployment.
  destruct (_ || _); [exists None, w; split; [reflexivity | by left]|].
  (* the docs setup *)
  assert (Hdocs : exists docsOk w1,
    (if setupDocs inputs
     then tryCatch
            (call (SetupDocs (consentGitToken inputs))
                  (setupDocsWithScript pf (consentGitToken inputs)) ;;
             ret true)
            (fun e =>
               emit (CoreSetFailed (str "docs setup failed: " ++ errorText e)) ;;
               ret false)
     else ret true) w = (Ok docsOk, w1)
    /\ statusLog w1 = statusLog w).
  { apply calm.
    - destruct (setupDocs inputs); [|apply safe_ret].
      apply safe_tryCatch. intros e.
      apply safe_bind; [apply safe_emit | intros _; apply safe_ret].
    - silence. }
  destruct Hdocs as (docsOk & w1 & R1 & L1).
  unfold bind at 1. rewrite R1.
  destruct docsOk; cbn [negb];
    [|exists None, w1; split; [reflexivity | by left]].
  destruct (Changes.shouldDeployByPolicy _ _ _); cbn [negb].
  2:{ unfold bind, emit, ret. eexists _, _. split; [reflexivity|]. left.
      rewrite statusLog_record, L1. apply app_nil_r. }
  (* the change detection *)
  match goal with
  | |- context [bind ?m _ w1] =>
      assert (Hgate : exists proceed w2,
                m w1 = (Ok proceed, w2) /\ statusLog w2 = statusLog w1)
  end.
  { apply calm.
    - destruct (onlyIfChanged inputs); [|apply safe_ret].
      apply safe_bind; [apply safe_detectRelevantChanges | intros relevant].
      destruct (_ && _); [|apply safe_ret].
      apply safe_bind; [apply safe_emit | intros _; apply safe_ret].
    - destruct (onlyIfChanged inputs); [|apply silent_ret].
      apply silent_bind; [apply silent_detectRelevantChanges | intros relevant].
      silence. }
  destruct Hgate as (proceed & w2 & R2 & L2).
  unfold bind at 1. rewrite R2.
  destruct proceed; cbn [negb];
    [|exists None, w2; split; [reflexivity | left; by rewrite L2]].
  (* the deployment record *)
  cbv zeta.
  match goal with
  | |- context [createGitHubDeployment octokit ?name None] =>
      destruct (createGitHubDeployment_run octokit name None w2)
        as (deploymentId & w3 & R3 & L3 & Hid);
      set (environment := name) in *
  end.
  unfold bind at 1. rewrite R3.
  match goal with
  | |- context [executeWithRetry ?op handleVercel (Some (inl 3))] =>
      match goal with
      | |- context [setGitHubDeploymentStatus octokit _ success ?desc _] =>
          destruct (deployment_tail octokit ctx op deploymentId desc
                      (silent_deployToVercel pf _) w3) as (r & w' & Rt & Lt)
      end
  end.
  exists r, w'. split; [exact Rt|].
  rewrite Lt, L3, L2, L1.
  destruct deploymentId as [d|]; [|left; apply app_nil_r].
  right. exists d, environment. split; [by apply Hid | reflexivity].
Qed.

End StatusBracket.

(** ** The meaning of a glob *)

Section GlobSemantics.
Import Js Changes JsFacts TrimFacts MoreNotions.

Lemma replaceAllFrom_skip (x s pat rep : list N) :
  replaceAllFrom (x ++ s) pat rep (length x) = replaceAllFrom s pat rep 0.
Proof.
  induction x as [|c x IH]; [reflexivity|]. exact IH.
Qed.

Lemma replaceAllFrom_match (c : N) (x s rep : list N) :
  replaceAllFrom ((c :: x) ++ s) (c :: x) rep 0
  = rep ++ replaceAllFrom s (c :: x) rep 0.
Proof.
  change ((c :: x) ++ s) with (c :: (x ++ s)).
  cbn [replaceAllFrom].
  change (c :: (x ++ s)) with ((c :: x) ++ s). rewrite startsWith_app.
  replace (length (c :: x) - 1)%nat with (length x) by (simpl; lia).
  by rewrite replaceAllFrom_skip.
Qed.

Lemma replaceAllFrom_keep (c : N) (s pat rep : list N) :
  startsWith (c :: s) pat = false ->
  replaceAllFrom (c :: s) pat rep 0 = c :: replaceAllFrom s pat rep 0.
Proof. intros H. cbn [replaceAllFrom]. by rewrite H. Qed.

Lemma special_star : isRegexSpecial 42 = true.
Proof. reflexivity. Qed.

Lemma escapeRegex_cons (c : N) (g : list N) :
  escapeRegex (c :: g)
  = (if isRegexSpecial c then [92%N; c] else [c]) ++ escapeRegex g.
Proof. reflexivity. Qed.

(** No escaped source, and no source after the first replacement, starts
    with a star. *)
Lemma escapeRegex_head (g p : list N) :
  startsWith (escapeRegex g) (42%N :: p) = false.
Proof.
  destruct g as [|c g]; [reflexivity|]. rewrite escapeRegex_cons.
  destruct (isRegexSpecial c) eqn:E; [reflexivity|].
  cbn [app startsWith]. destruct (N.eqb_spec 42 c) as [<-|]; [|reflexivity].
  discriminate E.
Qed.

Lemma afterDoubleStars_head (g p : list N) :
  startsWith (afterDoubleStars g) (42%N :: p) = false.
Proof.
  destruct g as [|c g]; [reflexivity|]. cbn [afterDoubleStars].
  destruct (N.eqb_spec c 42) as [->|Hc].
  - destruct g as [|d g]; [reflexivity|]. destruct (N.eqb d 42); reflexivity.
  - destruct (isRegexSpecial c) eqn:E; [reflexivity|].
    cbn [app startsWith]. destruct (N.eqb_spec 42 c) as [<-|]; [done|reflexivity].
Qed.

Lemma startsWith_after_backslash (c : N) (s p : list N) :
  startsWith s (42%N :: p) = false ->
  startsWith (c :: s) (92%N :: 42%N :: p) = false.
Proof. intros H. cbn [startsWith] in *. rewrite H. apply andb_false_r. Qed.

Lemma length_ind_list {A} (Q : list A -> Prop) :
  (forall l, (forall k, (length k < length l)%nat -> Q k) -> Q l) ->
  forall l, Q l.
Proof.
  intros H l. remember (length l) as n eqn:Hn. revert l Hn.
  induction n as [n IH] using lt_wf_ind. intros l ->.
  apply H. intros k Hk. by apply (IH (length k)).
Qed.

Lemma replaceAll_doubleStars (g : list N) :
  replaceAll (escapeRegex g) (str "\*\*") (str ".*") = afterDoubleStars g.
Proof.
  unfold replaceAll. induction g as [g IH] using length_ind_list.
  destruct g as [|c rest]; [reflexivity|].
  rewrite escapeRegex_cons. cbn [afterDoubleStars].
  destruct (N.eqb_spec c 42) as [->|Hc].
  - rewrite special_star. destruct rest as [|d rest'].
    + reflexivity.
    + destruct (N.eqb_spec d 42) as [->|Hd].
      * rewrite escapeRegex_cons, special_star.
        change ([92%N; 42%N] ++ [92%N; 42%N] ++ escapeRegex rest')
          with ((92%N :: [42%N; 92%N; 42%N]) ++ escapeRegex rest').
        change (str "\*\*") with (92%N :: [42%N; 92%N; 42%N]).
        rewrite replaceAllFrom_match. f_equal. apply IH. simpl. lia.
      * change ([92%N; 42%N] ++ escapeRegex (d :: rest'))
          with (92%N :: 42%N :: escapeRegex (d :: rest')).
        rewrite replaceAllFrom_keep.
        2:{ change (str "\*\*") with (92%N :: 42%N :: [92%N; 42%N]).
            cbn [startsWith]. rewrite escapeRegex_cons.
            destruct (isRegexSpecial d) eqn:E; cbn [app startsWith].
            - destruct (N.eqb_spec 42 d) as [<-|]; [done|].
              by rewrite !andb_false_r.
            - destruct (N.eqb_spec 92 d) as [<-|]; [discriminate E|].
              by rewrite !andb_false_r. }
        rewrite replaceAllFrom_keep by reflexivity.
        change (str "\*" ++ afterDoubleStars (d :: rest'))
          with (92%N :: 42%N :: afterDoubleStars (d :: rest')).
        do 2 f_equal. apply IH. simpl. lia.
  - assert (Hrest : replaceAllFrom (escapeRegex rest) (str "\*\*") (str ".*") 0
                    = afterDoubleStars rest) by (apply IH; simpl; lia).
    destruct (isRegexSpecial c) eqn:E.
    + change ([92%N; c] ++ escapeRegex rest) with (92%N :: c :: escapeRegex rest).
      rewrite replaceAllFrom_keep.
      2:{ change (str "\*\*") with (92%N :: 42%N :: [92%N; 42%N]).
          cbn [startsWith]. destruct (N.eqb_spec 42 c) as [<-|]; [done|].
          by rewrite andb_false_r. }
      rewrite replaceAllFrom_keep
        by (apply startsWith_after_backslash, escapeRegex_head).
      by rewrite Hrest.
    + change ([c] ++ escapeRegex rest) with (c :: escapeRegex rest).
      rewrite replaceAllFrom_keep
        by (apply startsWith_after_backslash, escapeRegex_head).
      by rewrite Hrest.
Qed.

Lemma replaceAll_stars (g : list N) :
  replaceAll (afterDoubleStars g) (str "\*") (str "[^/]*") = afterStars g.
Proof.
  unfold replaceAll. induction g as [g IH] using length_ind_list.
  destruct g as [|c rest]; [reflexivity|].
  cbn [afterDoubleStars afterStars].
  destruct (N.eqb_spec c 42) as [->|Hc].
  - destruct rest as [|d rest'].
    + reflexivity.
    + destruct (N.eqb_spec d 42) as [->|Hd].
      * change (str ".*" ++ afterDoubleStars rest')
          with (46%N :: 42%N :: afterDoubleStars rest').
        rewrite replaceAllFrom_keep by reflexivity.
        rewrite replaceAllFrom_keep by reflexivity.
        change (str ".*" ++ afterStars rest') with (46%N :: 42%N :: afterStars rest').
        do 2 f_equal. apply IH. simpl. lia.
      * change (str "\*" ++ afterDoubleStars (d :: rest'))
          with ((92%N :: [42%N]) ++ afterDoubleStars (d :: rest')).
        change (str "\*") with (92%N :: [42%N]).
        rewrite replaceAllFrom_match. f_equal. apply IH. simpl. lia.
  - assert (Hrest : replaceAllFrom (afterDoubleStars rest) (str "\*") (str "[^/]*") 0
                    = afterStars rest) by (apply IH; simpl; lia).
    destruct (isRegexSpecial c) eqn:E.
    + change ([92%N; c] ++ afterDoubleStars rest)
        with (92%N :: c :: afterDoubleStars rest).
      rewrite replaceAllFrom_keep.
      2:{ change (str "\*") with (92%N :: [42%N]).
          cbn [startsWith]. destruct (N.eqb_spec 42 c) as [<-|]; [done|].
          by rewrite andb_false_r. }
      rewrite replaceAllFrom_keep.
      2:{ change (str "\*") with (92%N :: [42%N]).
          apply startsWith_after_backslash, afterDoubleStars_head. }
      by rewrite Hrest.
    + change ([c] ++ afterDoubleStars rest) with (c :: afterDoubleStars rest).
      rewrite replaceAllFrom_keep.
      2:{ change (str "\*") with (92%N :: [42%N]).
          apply startsWith_after_backslash, afterDoubleStars_head. }
      by rewrite Hrest.
Qed.

Lemma parseRegex_plain (c : N) (src : list N) :
  isRegexSpecial c = false ->
  parseRegex (c :: src) = cons (RChar c) <$> parseRegex src.
Proof.
  intros E.
  assert (Hne : forall x, isRegexSpecial x = true -> N.eqb c x = false).
  { intros x Hx. apply N.eqb_neq. intros ->. congruence. }
  cbn [parseRegex]. rewrite (Hne 92%N eq_refl).
  change (startsWith (c :: src) (str ".*"))
    with (N.eqb 46 c && startsWith src [42%N]).
  rewrite (N.eqb_sym 46 c), (Hne 46%N eq_refl). cbn [andb].
  change (startsWith (c :: src) (str "[^/]*"))
    with (N.eqb 91 c && startsWith src (str "^/]*")).
  rewrite (N.eqb_sym 91 c), (Hne 91%N eq_refl). cbn [andb].
  by rewrite (Hne 94%N eq_refl), (Hne 36%N eq_refl), E.
Qed.

Lemma parseRegex_afterStars (g : list N) :
  parseRegex (afterStars g ++ str "$") = Some (globItems g ++ [REnd]).
Proof.
  induction g as [g IH] using length_ind_list.
  destruct g as [|c rest]; [reflexivity|].
  cbn [afterStars globItems].
  destruct (N.eqb_spec c 42) as [->|Hc].
  - destruct rest as [|d rest']; [reflexivity|].
    destruct (N.eqb_spec d 42) as [->|Hd].
    + change (parseRegex ((str ".*" ++ afterStars rest') ++ str "$"))
        with (cons RAnyStar <$> parseRegex (afterStars rest' ++ str "$")).
      rewrite IH by (simpl; lia). reflexivity.
    + change (parseRegex ((str "[^/]*" ++ afterStars (d :: rest')) ++ str "$"))
        with (cons RNotSlashStar <$> parseRegex (afterStars (d :: rest') ++ str "$")).
      rewrite IH by (simpl; lia). reflexivity.
  - destruct (isRegexSpecial c) eqn:E.
    + change (parseRegex (([92%N; c] ++ afterStars rest) ++ str "$"))
        with (if isRegexSpecial c
              then cons (RChar c) <$> parseRegex (afterStars rest ++ str "$")
              else None).
      rewrite E, IH by (simpl; lia). reflexivity.
    + change (([c] ++ afterStars rest) ++ str "$")
        with (c :: (afterStars rest ++ str "$")).
      rewrite (parseRegex_plain c _ E), IH by (simpl; lia). reflexivity.
Qed.

Lemma codePoints_plain (s : list N) :
  noHighSurrogate s = true -> codePoints s = s.
Proof.
  induction s as [|hi tl IH]; [reflexivity|]. intros H.
  apply andb_true_iff in H as [Hhi Htl]. apply negb_true_iff in Hhi.
  cbn [codePoints]. destruct tl as [|lo rest]; [reflexivity|].
  rewrite Hhi. cbn [andb]. f_equal. by apply IH.
Qed.

Lemma afterStars_noHighSurrogate (g : list N) :
  noHighSurrogate g = true -> noHighSurrogate (afterStars g) = true.
Proof.
  unfold noHighSurrogate.
  induction g as [g IH] using length_ind_list.
  destruct g as [|c rest]; [reflexivity|]. intros H.
  apply andb_true_iff in H as [Hc Hrest].
  cbn [afterStars]. destruct (N.eqb_spec c 42) as [->|Hne].
  - destruct rest as [|d rest']; [reflexivity|].
    destruct (N.eqb d 42).
    + apply andb_true_iff in Hrest as [_ Hrest'].
      rewrite forallb_app, IH by (simpl; lia || exact Hrest'). reflexivity.
    + rewrite forallb_app, IH by (simpl; lia || exact Hrest). reflexivity.
  - rewrite forallb_app, IH by (simpl; lia || exact Hrest).
    destruct (isRegexSpecial c); cbn [forallb]; rewrite Hc; reflexivity.
Qed.

(** The regular expression that [globToRegex] builds for a glob within
    the bounds: the items of the glob between the two anchors. *)
Lemma globToRegex_items (glob : list N) :
  len glob <= 1000 -> countStars glob <= 20 -> noHighSurrogate glob = true ->
  globToRegex glob = Ok (RStart :: globItems glob ++ [REnd]).
Proof.
  intros Hlen Hstars Hplain. unfold globToRegex.
  replace (len glob >? 1000) with false
    by (symmetry; rewrite Z.gtb_ltb; apply Z.ltb_ge; lia).
  replace (countStars glob >? 20) with false
    by (symmetry; rewrite Z.gtb_ltb; apply Z.ltb_ge; lia).
  rewrite replaceAll_doubleStars, replaceAll_stars.
  rewrite codePoints_plain.
  2:{ unfold noHighSurrogate. rewrite !forallb_app.
      fold (noHighSurrogate (afterStars glob)).
      by rewrite afterStars_noHighSurrogate. }
  change (parseRegex (str "^" ++ afterStars glob ++ str "$"))
    with (cons RStart <$> parseRegex (afterStars glob ++ str "$")).
  by rewrite parseRegex_afterStars.
Qed.

Lemma globItems_plain (g : list N) : forallb isGlobItem (globItems g) = true.
Proof.
  induction g as [g IH] using length_ind_list.
  destruct g as [|c rest]; [reflexivity|]. cbn [globItems].
  destruct (N.eqb c 42).
  - destruct rest as [|d rest']; [reflexivity|].
    destruct (N.eqb d 42); cbn [forallb isGlobItem andb]; apply IH; simpl; lia.
  - cbn [forallb isGlobItem andb]. apply IH. simpl. lia.
Qed.

(** One step of the matcher at a star. *)
Lemma matchHere_star (it : RegexItem) (re : list RegexItem) (s : list N) (b : bool) :
  it = RAnyStar \/ it = RNotSlashStar ->
  matchHere (it :: re) s b
  = matchHere re s b
    || match s with
       | x :: s' => starClass it x && matchHere (it :: re) s' false
       | [] => false
       end.
Proof. intros [-> | ->]; destruct s; reflexivity. Qed.

Lemma matchHere_atStart (re : list RegexItem) :
  forallb isGlobItem re = true ->
  forall s b, matchHere (re ++ [REnd]) s b = matchHere (re ++ [REnd]) s false.
Proof.
  induction re as [|it re IH]; intros Hplain s b.
  - destruct s; reflexivity.
  - cbn [forallb] in Hplain. apply andb_true_iff in Hplain as [Hit Hre].
    destruct it; try discriminate Hit.
    + reflexivity.
    + change ((RAnyStar :: re) ++ [REnd]) with (RAnyStar :: (re ++ [REnd])).
      rewrite !(matchHere_star RAnyStar) by (by left).
      by rewrite (IH Hre s b).
    + change ((RNotSlashStar :: re) ++ [REnd])
        with (RNotSlashStar :: (re ++ [REnd])).
      rewrite !(matchHere_star RNotSlashStar) by (by right).
      by rewrite (IH Hre s b).
Qed.

(** A star followed by [re]: some run of the class, then [re]. *)
Lemma matchHere_star_run (it : RegexItem) (re : list RegexItem) :
  it = RAnyStar \/ it = RNotSlashStar ->
  (forall s b, matchHere re s b = matchHere re s false) ->
  forall s b,
    matchHere (it :: re) s b = true
    <-> exists seg rest,
          s = seg ++ rest /\ forallb (starClass it) seg = true
          /\ matchHere re rest false = true.
Proof.
  intros Hit Hb s. induction s as [|x s IH]; intros b.
  - rewrite (matchHere_star it re [] b Hit), orb_false_r, Hb. split.
    + intros H. by exists [], [].
    + intros (seg & rest & Hs & _ & Hm).
      symmetry in Hs. apply app_eq_nil in Hs as [_ ->]. exact Hm.
  - rewrite (matchHere_star it re (x :: s) b Hit), Hb. split.
    + intros H. apply orb_true_iff in H as [H | H].
      * by exists [], (x :: s).
      * apply andb_true_iff in H as [Hx H].
        apply IH in H as (seg & rest & -> & Hseg & Hm).
        exists (x :: seg), rest. repeat split; [|exact Hm].
        cbn [forallb]. by rewrite Hx, Hseg.
    + intros (seg & rest & Hs & Hseg & Hm).
      destruct seg as [|y seg].
      * cbn [app] in Hs. subst rest. by rewrite Hm.
      * cbn [app] in Hs. injection Hs as <- ->.
        cbn [forallb] in Hseg. apply andb_true_iff in Hseg as [Hx Hseg].
        rewrite Hx. cbn [andb]. apply orb_true_iff. right.
        apply IH. by exists seg, rest.
Qed.

(** The matcher decides [GlobMatch]. *)
Lemma matchHere_GlobMatch (items : list RegexItem) :
  forallb isGlobItem items = true ->
  forall s, matchHere (items ++ [REnd]) s false = true <-> GlobMatch items s.
Proof.
  induction items as [|it items IH]; intros Hplain s.
  - destruct s; cbn [app matchHere]; split; intros H;
      try constructor; try discriminate H; inversion H.
  - cbn [forallb] in Hplain. apply andb_true_iff in Hplain as [Hit Hre].
    specialize (IH Hre).
    destruct it; try discriminate Hit.
    + (* a literal *)
      destruct s as [|x s]; cbn [app matchHere].
      * split; [discriminate | intros H; inversion H].
      * split.
        -- intros H. apply andb_true_iff in H as [Hx H].
           apply N.eqb_eq in Hx as ->. constructor. by apply IH.
        -- intros H. inversion H; subst. rewrite N.eqb_refl. by apply IH.
    + (* [**] *)
      change ((RAnyStar :: items) ++ [REnd]) with (RAnyStar :: (items ++ [REnd])).
      rewrite (matchHere_star_run RAnyStar (items ++ [REnd]) (or_introl eq_refl)
                 (matchHere_atStart items Hre)).
      split.
      * intros (seg & rest & -> & Hseg & Hm). constructor; [exact Hseg|].
        by apply IH.
      * intros H. inversion H; subst. eexists _, _.
        split; [reflexivity|]. split; [assumption|]. by apply IH.
    + (* [*] *)
      change ((RNotSlashStar :: items) ++ [REnd])
        with (RNotSlashStar :: (items ++ [REnd])).
      rewrite (matchHere_star_run RNotSlashStar (items ++ [REnd]) (or_intror eq_refl)
                 (matchHere_atStart items Hre)).
      split.
      * intros (seg & rest & -> & Hseg & Hm). constructor; [exact Hseg|].
        by apply IH.
      * intros H. inversion H; subst. eexists _, _.
        split; [reflexivity|]. split; [assumption|]. by apply IH.
Qed.

Lemma searchFrom_anchored_later (re : list RegexItem) (s : list N) :
  searchFrom (RStart :: re) s false = false.
Proof. induction s as [|x s IH]; [reflexivity|]. cbn [searchFrom matchHere andb orb]. exact IH. Qed.

Lemma test_anchored (re : list RegexItem) (path : list N) :
  test (RStart :: re) path = matchHere re (codePoints path) true.
Proof.
  unfold test. destruct (codePoints path) as [|x s].
  - cbn [searchFrom matchHere andb]. apply orb_false_r.
  - cbn [searchFrom]. rewrite searchFrom_anchored_later.
    cbn [matchHere andb]. apply orb_false_r.
Qed.

(** X25.  What a glob means.  For a glob within the bounds (at most 1000
    code units, at most twenty [*]) and without surrogates, [minimatch]
    answers [true] exactly when the code points of the path match the items
    of the glob from the first to the last: [**] stands for any run without
    line terminators, a single [*] for any run without a slash, and every
    other code unit, regular-expression operators included, for itself. *)
Theorem minimatch_glob_semantics (path glob : list N) :
  len glob <= 1000 -> countStars glob <= 20 -> noHighSurrogate glob = true ->
  exists b,
    minimatch path glob = Ok b
    /\ (b = true <-> GlobMatch (globItems glob) (codePoints path)).
Proof.
  intros Hlen Hstars Hplain. unfold minimatch.
  rewrite (globToRegex_items glob Hlen Hstars Hplain). cbn [rbind rcatch].
  eexists. split; [reflexivity|].
  rewrite test_anchored, (matchHere_atStart _ (globItems_plain glob)).
  apply matchHere_GlobMatch, globItems_plain.
Qed.

Lemma minimatch_glob_semantics_witness :
  exists b,
    minimatch (str "packages/core/src/index.ts") (str "packages/*/src/**") = Ok b
    /\ (b = true
        <-> GlobMatch (globItems (str "packages/*/src/**"))
                      (codePoints (str "packages/core/src/index.ts"))).
Proof.
  apply (minimatch_glob_semantics (str "packages/core/src/index.ts")
           (str "packages/*/src/**")).
  - vm_compute. discriminate.
  - vm_compute. discriminate.
  - reflexivity.
Defined.

Lemma countStars_starFree (s : list N) : starFree s = true -> countStars s = 0.
Proof.
  unfold countStars, len. induction s as [|c s IH]; [reflexivity|].
  intros H. apply andb_true_iff in H as [Hc Hs]. cbn [List.filter].
  apply negb_true_iff in Hc. rewrite (N.eqb_sym 42 c), Hc. by apply IH.
Qed.

Lemma countStars_app (a b : list N) : countStars (a ++ b) = countStars a + countStars b.
Proof. unfold countStars, len. rewrite List.filter_app, length_app. lia. Qed.

Lemma globItems_literal (pre g : list N) :
  starFree pre = true -> globItems (pre ++ g) = List.map RChar pre ++ globItems g.
Proof.
  induction pre as [|c pre IH]; [reflexivity|]. intros H.
  apply andb_true_iff in H as [Hc Hpre]. apply negb_true_iff in Hc.
  cbn [app globItems List.map]. rewrite Hc. f_equal. by apply IH.
Qed.

Lemma GlobMatch_literal (pre : list N) (items : list RegexItem) (s : list N) :
  GlobMatch (List.map RChar pre ++ items) s
  <-> exists rest, s = pre ++ rest /\ GlobMatch items rest.
Proof.
  revert s. induction pre as [|c pre IH]; intros s; cbn [List.map app].
  - split; [intros H; by exists s | by intros (rest & -> & H)].
  - split.
    + intros H. inversion H; subst.
      match goal with Hm : GlobMatch _ _ |- _ => apply IH in Hm as (rest & -> & Hm) end.
      by exists rest.
    + intros (rest & -> & H). constructor. apply IH. by exists rest.
Qed.

Lemma GlobMatch_nil_iff (s : list N) : GlobMatch [] s <-> s = [].
Proof. split; [intros H; by inversion H | intros ->; constructor]. Qed.

Lemma GlobMatch_last_star (it : RegexItem) (cls : N -> bool) (s : list N) :
  (it = RAnyStar /\ cls = (fun c => negb (isLineTerminator c)))
  \/ (it = RNotSlashStar /\ cls = (fun c => negb (N.eqb c 47))) ->
  GlobMatch [it] s <-> forallb cls s = true.
Proof.
  intros [[-> ->] | [-> ->]]; split.
  - intros H. inversion H; subst.
    match goal with Hm : GlobMatch [] _ |- _ => apply GlobMatch_nil_iff in Hm as -> end.
    by rewrite app_nil_r.
  - intros H. rewrite <- (app_nil_r s). constructor; [exact H | constructor].
  - intros H. inversion H; subst.
    match goal with Hm : GlobMatch [] _ |- _ => apply GlobMatch_nil_iff in Hm as -> end.
    by rewrite app_nil_r.
  - intros H. rewrite <- (app_nil_r s). constructor; [exact H | constructor].
Qed.

Lemma noHighSurrogate_app (a b : list N) :
  noHighSurrogate (a ++ b) = noHighSurrogate a && noHighSurrogate b.
Proof. apply forallb_app. Qed.

(** What [minimatch] answers for a glob within the bounds. *)
Lemma minimatch_within_bounds (path glob : list N) :
  len glob <= 1000 -> countStars glob <= 20 -> noHighSurrogate glob = true ->
  minimatch path glob
  = Ok (matchHere (globItems glob ++ [REnd]) (codePoints path) false).
Proof.
  intros Hlen Hstars Hplain. unfold minimatch.
  rewrite (globToRegex_items glob Hlen Hstars Hplain). cbn [rbind rcatch].
  by rewrite test_anchored, (matchHere_atStart _ (globItems_plain glob)).
Qed.

(** X26.  Three common globs.  For a text [dir] without [*]: the glob
    [dir] matches the path [dir] only; [dir/**] matches exactly the paths
    that continue [dir/] in any way, across directories; [dir/*] matches
    exactly the paths that continue [dir/] with a name without a slash. *)
Theorem minimatch_literal_and_directory (path dir : list N) :
  starFree dir = true -> noHighSurrogate dir = true -> len dir <= 997 ->
  (minimatch path dir = Ok true <-> codePoints path = dir)
  /\ (minimatch path (dir ++ str "/**") = Ok true
      <-> exists rest,
            codePoints path = dir ++ str "/" ++ rest
            /\ forallb (fun c => negb (isLineTerminator c)) rest = true)
  /\ (minimatch path (dir ++ str "/*") = Ok true
      <-> exists name,
            codePoints path = dir ++ str "/" ++ name
            /\ forallb (fun c => negb (N.eqb c 47)) name = true).
Proof.
  intros Hfree Hplain Hlen.
  pose proof (countStars_starFree dir Hfree) as Hstars.
  assert (Hok : forall b, Ok b = Ok true <-> b = true :> bool)
    by (intros b; split; [by intros [= ->] | by intros ->]).
  repeat split.
  - rewrite minimatch_within_bounds by (lia || assumption). intros H.
    apply Hok, matchHere_GlobMatch in H; [|apply globItems_plain].
    rewrite <- (app_nil_r dir), globItems_literal in H by exact Hfree.
    apply GlobMatch_literal in H as (rest & -> & H).
    apply GlobMatch_nil_iff in H as ->. by rewrite !app_nil_r.
  - intros Hp. rewrite minimatch_within_bounds by (lia || assumption).
    apply Hok, matchHere_GlobMatch; [apply globItems_plain|].
    rewrite <- (app_nil_r dir), globItems_literal by exact Hfree.
    apply GlobMatch_literal. exists []. rewrite Hp, !app_nil_r.
    split; [reflexivity | constructor].
  - rewrite minimatch_within_bounds.
    2:{ unfold len in *. rewrite length_app. simpl. lia. }
    2:{ rewrite countStars_app, Hstars. vm_compute. discriminate. }
    2:{ by rewrite noHighSurrogate_app, Hplain. }
    intros H. apply Hok, matchHere_GlobMatch in H; [|apply globItems_plain].
    rewrite globItems_literal in H by exact Hfree.
    apply GlobMatch_literal in H as (rest & -> & H).
    change (globItems (str "/**")) with (List.map RChar (str "/") ++ [RAnyStar]) in H.
    apply GlobMatch_literal in H as (rest' & -> & H).
    exists rest'. split; [reflexivity|].
    by apply (GlobMatch_last_star RAnyStar _ rest' (or_introl (conj eq_refl eq_refl))).
  - intros (rest & Hp & Hrest). rewrite minimatch_within_bounds.
    2:{ unfold len in *. rewrite length_app. simpl. lia. }
    2:{ rewrite countStars_app, Hstars. vm_compute. discriminate. }
    2:{ by rewrite noHighSurrogate_app, Hplain. }
    apply Hok, matchHere_GlobMatch; [apply globItems_plain|].
    rewrite globItems_literal by exact Hfree. rewrite Hp.
    apply GlobMatch_literal. eexists. split; [reflexivity|].
    change (globItems (str "/**")) with (List.map RChar (str "/") ++ [RAnyStar]).
    apply GlobMatch_literal. eexists. split; [reflexivity|].
    by apply (GlobMatch_last_star RAnyStar _ rest (or_introl (conj eq_refl eq_refl))).
  - rewrite minimatch_within_bounds.
    2:{ unfold len in *. rewrite length_app. simpl. lia. }
    2:{ rewrite countStars_app, Hstars. vm_compute. discriminate. }
    2:{ by rewrite noHighSurrogate_app, Hplain. }
    intros H. apply Hok, matchHere_GlobMatch in H; [|apply globItems_plain].
    rewrite globItems_literal in H by exact Hfree.
    apply GlobMatch_literal in H as (rest & -> & H).
    change (globItems (str "/*")) with (List.map RChar (str "/") ++ [RNotSlashStar]) in H.
    apply GlobMatch_literal in H as (rest' & -> & H).
    exists rest'. split; [reflexivity|].
    by apply (GlobMatch_last_star RNotSlashStar _ rest'
                (or_intror (conj eq_refl eq_refl))).
  - intros (rest & Hp & Hrest). rewrite minimatch_within_bounds.
    2:{ unfold len in *. rewrite length_app. simpl. lia. }
    2:{ rewrite countStars_app, Hstars. vm_compute. discriminate. }
    2:{ by rewrite noHighSurrogate_app, Hplain. }
    apply Hok, matchHere_GlobMatch; [apply globItems_plain|].
    rewrite globItems_literal by exact Hfree. rewrite Hp.
    apply GlobMatch_literal. eexists. split; [reflexivity|].
    change (globItems (str "/*")) with (List.map RChar (str "/") ++ [RNotSlashStar]).
    apply GlobMatch_literal. eexists. split; [reflexivity|].
    by apply (GlobMatch_last_star RNotSlashStar _ rest
                (or_intror (conj eq_refl eq_refl))).
Qed.

Lemma minimatch_literal_and_directory_witness :
  minimatch (str "docs/a/b.md") (str "docs" ++ str "/**") = Ok true
  <-> exists rest,
        codePoints (str "docs/a/b.md") = str "docs" ++ str "/" ++ rest
        /\ forallb (fun c => negb (isLineTerminator c)) rest = true.
Proof.
  apply (proj1 (proj2 (minimatch_literal_and_directory (str "docs/a/b.md")
                         (str "docs") eq_refl eq_refl
                         ltac:(vm_compute; discriminate)))).
Defined.

End GlobSemantics.

(** ** The retry around the deployment step *)

Section OuterRetry.
Import Js VercelClient Errors Deployment JsFacts Notions Samples MoreNotions.

Lemma safe_setGitHubDeploymentStatus (octokit : Octokit) (d : Z)
    (state : DeploymentState) (description : list N)
    (environmentUrl : option (list N)) :
  safe (setGitHubDeploymentStatus octokit d state description environmentUrl).
Proof.
  unfold setGitHubDeploymentStatus. apply safe_tryCatch. intros e. apply safe_emit.
Qed.

Lemma safe_performVercelDeployment (inputs : Inputs) (pf : Platform)
    (octokit : Octokit) (ctx : Context) :
  safe (performVercelDeployment inputs pf octokit ctx).
Proof.
  unfold performVercelDeployment.
  destruct (_ || _); [apply safe_ret|].
  apply safe_bind.
  { destruct (setupDocs inputs); [|apply safe_ret].
    apply safe_tryCatch. intros e.
    apply safe_bind; [apply safe_emit | intros _; apply safe_ret]. }
  intros docsOk. destruct (negb docsOk); [apply safe_ret|].
  destruct (negb _).
  { apply safe_bind; [apply safe_emit | intros _; apply safe_ret]. }
  apply safe_bind.
  { destruct (onlyIfChanged inputs); [|apply safe_ret].
    apply safe_bind; [apply safe_detectRelevantChanges | intros relevant].
    destruct (_ && _); [|apply safe_ret].
    apply safe_bind; [apply safe_emit | intros _; apply safe_ret]. }
  intros proceed. destruct (negb proceed); [apply safe_ret|].
  cbv zeta.
  apply safe_bind; [apply safe_createGitHubDeployment | intros deploymentId].
  apply safe_bind.
  { destruct deploymentId; [apply safe_setGitHubDeploymentStatus | apply safe_ret]. }
  intros _. apply safe_bind; [apply safe_ensureGitMetaEnv | intros _].
  apply safe_tryCatch. intros e.
  apply safe_bind; [apply safe_emit | intros _].
  apply safe_bind; [|intros _; apply safe_ret].
  destruct deploymentId; [apply safe_setGitHubDeploymentStatus | apply safe_ret].
Qed.

Lemma executeWithRetry_safe_operation {R : Type} (operation : M R)
    (mapError : Thrown -> ActionableError) (n : Z) (w : World) :
  safe operation -> 1 <= n ->
  executeWithRetry operation mapError (Some (inl n)) w = operation w.
Proof.
  intros Hsafe Hn.
  change (executeWithRetry operation mapError (Some (inl n)))
    with (retryLoop operation mapError n 1000 30000 timerSleep (Z.to_nat n) 1 None).
  destruct (Z.to_nat n) as [|r] eqn:E; [lia|].
  cbn [retryLoop]. unfold tryCatch.
  destruct (Hsafe w) as (a & w' & ->). reflexivity.
Qed.

(** X27.  The retry that the entry point puts around the deployment step
    never retries: [performVercelDeployment] reports every failure itself and
    does not throw, so under [executeWithRetry] it runs exactly once and
    nothing is added to what it does. *)
Theorem executeWithRetry_performVercelDeployment
    (inputs : Inputs) (pf : Platform) (octokit : Octokit) (ctx : Context)
    (w : World) :
  executeWithRetry (performVercelDeployment inputs pf octokit ctx)
                   handleVercel (Some (inl 3)) w
  = performVercelDeployment inputs pf octokit ctx w.
Proof.
  apply executeWithRetry_safe_operation; [apply safe_performVercelDeployment | lia].
Qed.

End OuterRetry.

(** ** Closing open [details] blocks *)

Section HideDetails.
Import Js PrComment JsFacts TrimFacts Samples.

Lemma closeDetailsFrom_plain (s : list N) :
  (forall k, startsWith (drop k s) detailsTag = false) ->
  closeDetailsFrom s 0 = s.
Proof.
  induction s as [|c s IH]; intros Hs; [reflexivity|].
  cbn [closeDetailsFrom].
  rewrite (Hs 0%nat : startsWith (c :: s) detailsTag = false).
  f_equal. apply IH. intros k. exact (Hs (S k)).
Qed.

(** X28.  Hiding details changes nothing in a body without a [details]
    tag: [getBodyOf] with both options set returns such a body as it is (and
    it returns [undefined] whenever appending is off). *)
Theorem getBodyOf_without_details (previous : list N) (hideDetails : bool) :
  includes previous detailsTag = false ->
  getBodyOf (Some previous) true hideDetails = Some previous
  /\ getBodyOf (Some previous) false hideDetails = None.
Proof.
  intros H. split; [|reflexivity]. unfold getBodyOf. cbn [negb].
  destruct (negb hideDetails || negb (truthyOpt (Some previous))); [reflexivity|].
  cbn [option_map]. f_equal. apply closeDetailsFrom_plain. intros k.
  apply not_true_is_false. intros Hs. apply startsWith_prefix in Hs.
  exact (includes_false_no_occurrence previous detailsTag k H Hs).
Qed.

Lemma getBodyOf_without_details_witness :
  getBodyOf (Some (str "### Docs Preview <b>open</b>")) true true
  = Some (str "### Docs Preview <b>open</b>")
  /\ getBodyOf (Some (str "### Docs Preview <b>open</b>")) false true = None.
Proof.
  apply (getBodyOf_without_details (str "### Docs Preview <b>open</b>") true).
  vm_compute. reflexivity.
Defined.

End HideDetails.

(** ** The hash of the seed *)

Section SeedHash.
Import Js RenderComment MoreNotions.

Lemma toInt32_mod (z : Z) : toInt32 z mod 2 ^ 32 = z mod 2 ^ 32.
Proof.
  unfold toInt32. rewrite Zminus_mod_idemp_l. f_equal. lia.
Qed.

Lemma lxor_mod_pow2 (a b n : Z) :
  0 <= n -> Z.lxor a b mod 2 ^ n = Z.lxor (a mod 2 ^ n) (b mod 2 ^ n).
Proof.
  intros Hn. apply Z.bits_inj'. intros i Hi.
  rewrite Z.lxor_spec, !Z.testbit_mod_pow2, Z.lxor_spec by exact Hn.
  destruct (i <? n); reflexivity.
Qed.

Lemma xor32_mod (a b : Z) :
  xor32 a b mod 2 ^ 32 = Z.lxor a b mod 2 ^ 32.
Proof.
  unfold xor32. rewrite !(lxor_mod_pow2 _ _ 32), !toInt32_mod by lia.
  reflexivity.
Qed.

Lemma shl32_mod (a k : Z) :
  0 <= k -> shl32 a k mod 2 ^ 32 = (a * 2 ^ k) mod 2 ^ 32.
Proof.
  intros Hk. unfold shl32. rewrite toInt32_mod, Z.shiftl_mul_pow2 by exact Hk.
  rewrite <- Zmult_mod_idemp_l, toInt32_mod, Zmult_mod_idemp_l. reflexivity.
Qed.

Lemma add_mod_congr (a a' b b' m : Z) :
  a mod m = a' mod m -> b mod m = b' mod m -> (a + b) mod m = (a' + b') mod m.
Proof. intros Ha Hb. by rewrite Zplus_mod, Ha, Hb, <- Zplus_mod. Qed.

Lemma hashStep_fnv (h : Z) (unit : N) :
  hashStep h unit = (Z.lxor h (Z.of_N unit) * 16777619) mod 2 ^ 32.
Proof.
  unfold hashStep, toUint32. set (x := xor32 h (Z.of_N unit)).
  transitivity ((x + x * 2 ^ 1 + x * 2 ^ 4 + x * 2 ^ 7 + x * 2 ^ 8 + x * 2 ^ 24)
                mod 2 ^ 32).
  - repeat apply add_mod_congr; try reflexivity; apply shl32_mod; lia.
  - replace (x + x * 2 ^ 1 + x * 2 ^ 4 + x * 2 ^ 7 + x * 2 ^ 8 + x * 2 ^ 24)
      with (x * 16777619) by lia.
    rewrite <- Zmult_mod_idemp_l. unfold x. rewrite xor32_mod.
    by rewrite Zmult_mod_idemp_l.
Qed.

(** X29.  The hash of the seed is the 32-bit FNV-1a hash of its code
    units: the sum of shifts in the loop is the multiplication by the prime
    16777619 modulo [2^32], as the comment in the source says, and the hash
    stays within the unsigned 32-bit range. *)
Theorem seedHash_is_fnv1a (seed : list N) :
  seedHash seed = fnv1a seed /\ 0 <= seedHash seed < 2 ^ 32.
Proof.
  unfold seedHash, fnv1a.
  change (toUint32 2166136261) with 2166136261.
  assert (Hrange : 0 <= 2166136261 < 2 ^ 32) by lia.
  revert Hrange. generalize 2166136261.
  induction seed as [|unit seed IH]; intros h Hh; cbn [fold_left].
  - split; [reflexivity | exact Hh].
  - rewrite hashStep_fnv. apply IH. apply Z.mod_pos_bound. lia.
Qed.
End SeedHash.

(** ** The collection of the files *)

Section FileSelection.
Import Js FileCollection JsFacts MoreNotions MoreSamples.

(** Every path that the walk of an entry lists continues the prefix. *)
Lemma walkEntry_prefix (chosen : option (list N)) :
  forall (e : Entry) (pre p : list N),
    In p (walkEntry chosen pre e) -> exists r, p = pre ++ r.
Proof.
  fix IH 1. intros [name node] pre p. cbn [walkEntry].
  destruct (startsWith name (str ".git")); [intros []|].
  destruct node as [|entries|resolves].
  - destruct (fileShouldBeIgnored name chosen ignoreFiles); [intros []|].
    intros [<- | []]. by exists name.
  - destruct (arrayIncludes ignoreDirs name); [intros []|].
    induction entries as [|e entries IHentries]; [intros []|].
    cbn [flat_map]. intros H. apply in_app_or in H as [H | H].
    + apply IH in H as [r ->]. exists (name ++ str "/" ++ r).
      by rewrite <- !app_assoc.
    + by apply IHentries.
  - intros [].
Qed.

Lemma walk_root_file (chosen : option (list N)) (root : list Entry) (f : list N) :
  47%N ∉ f -> In f (walk chosen [] root) ->
  fileShouldBeIgnored f chosen ignoreFiles = false.
Proof.
  intros Hslash. unfold walk. induction root as [|[name node] root IH];
    [intros []|].
  cbn [flat_map]. intros H. apply in_app_or in H as [H | H]; [|by apply IH].
  cbn [walkEntry] in H.
  destruct (startsWith name (str ".git")); [destruct H|].
  destruct node as [|entries|resolves]; [| |destruct H].
  - destruct (fileShouldBeIgnored name chosen ignoreFiles) eqn:E; [destruct H|].
    destruct H as [<- | []]. exact E.
  - destruct (arrayIncludes ignoreDirs name); [destruct H|].
    exfalso. apply Hslash. apply in_flat_map in H as (e & _ & H).
    apply walkEntry_prefix in H as [r ->].
    rewrite !elem_of_app. left. right. by apply list_elem_of_In; left.
Qed.

Lemma same_first_segment (a b x y : list N) :
  47%N ∉ a -> 47%N ∉ b -> a ++ 47%N :: x = b ++ 47%N :: y -> a = b.
Proof.
  revert b. induction a as [|c a IH]; intros [|d b] Ha Hb H; cbn [app] in H.
  - reflexivity.
  - injection H as <- _. exfalso. apply Hb. constructor.
  - injection H as -> _. exfalso. apply Ha. constructor.
  - injection H as -> H. f_equal. apply (IH b); [| |exact H].
    + intros Hin. apply Ha. by constructor.
    + intros Hin. apply Hb. by constructor.
Qed.

Lemma walk_root_directory (chosen : option (list N)) (root : list Entry)
    (d p : list N) :
  Forall (fun e => 47%N ∉ entryName e) root ->
  d ∈ ignoreDirs -> In p (walk chosen [] root) ->
  ~ (d ++ str "/") `prefix_of` p.
Proof.
  intros Hnames Hd. assert (Hds : 47%N ∉ d).
  { revert d Hd. apply Forall_forall. apply (bool_decide_unpack _).
    vm_compute. exact I. }
  unfold walk. induction Hnames as [|[name node] root Hname _ IH]; [intros []|].
  cbn [flat_map]. intros H. apply in_app_or in H as [H | H]; [|by apply IH].
  cbn [walkEntry entryName] in *.
  destruct (startsWith name (str ".git")); [destruct H|].
  destruct node as [|entries|resolves]; [| |destruct H].
  - destruct (fileShouldBeIgnored name chosen ignoreFiles); [destruct H|].
    destruct H as [<- | []]. intros [r Hr]. apply Hname.
    cbn [app] in Hr. rewrite Hr, <- !app_assoc, !elem_of_app.
    right. left. by apply list_elem_of_In; left.
  - destruct (arrayIncludes ignoreDirs name) eqn:Hskip; [destruct H|].
    apply in_flat_map in H as (e & _ & H).
    apply walkEntry_prefix in H as [r ->]. intros [t Ht].
    cbn [app] in Ht. rewrite <- !app_assoc in Ht.
    change (str "/" ++ r) with (47%N :: r) in Ht.
    change (str "/" ++ t) with (47%N :: t) in Ht.
    apply same_first_segment in Ht; [|exact Hname | exact Hds]. subst name.
    apply not_true_iff_false in Hskip. apply Hskip.
    by apply arrayIncludes_spec.
Qed.

Lemma pushed_keeps (l : list (list N)) (b : bool) (x p : list N) :
  p ∈ l -> p ∈ (if b then l ++ [x] else l).
Proof. intros H. destruct b; [|exact H]. apply elem_of_app. by left. Qed.

Lemma pushed_elem (l : list (list N)) (b : bool) (x p : list N) :
  p ∈ (if b then l ++ [x] else l) -> p ∈ l \/ p = x.
Proof.
  destruct b; [|by left]. rewrite elem_of_app, list_elem_of_singleton. tauto.
Qed.

(** X30.  What [walkFiles] selects at the top of the working directory.
    [package.json] is listed whenever it exists, and so is the chosen
    lockfile; of the three lockfile names only the chosen one is ever
    listed; and, when no name at the top holds a slash, no listed path lies
    under one of the ignored directories. *)
Theorem walkFiles_selection (root : list Entry) :
  (existsSync root (str "package.json") = true ->
   str "package.json" ∈ walkFiles root)
  /\ (forall c, chooseLockfile root = Some c -> c ∈ walkFiles root)
  /\ (forall f, f ∈ ignoreFiles -> f ∈ walkFiles root ->
                chooseLockfile root = Some f)
  /\ (Forall (fun e => 47%N ∉ entryName e) root ->
      forall d p, d ∈ ignoreDirs -> p ∈ walkFiles root ->
                  ~ (d ++ str "/") `prefix_of` p).
Proof.
  unfold walkFiles.
  set (chosen := chooseLockfile root).
  set (l0 := walk chosen [] root).
  set (l1 := if negb (arrayIncludes l0 (str "package.json"))
                && existsSync root (str "package.json")
             then l0 ++ [str "package.json"] else l0).
  set (l2 := match chosen with
             | Some c => if truthy c && negb (arrayIncludes l1 c) && existsSync root c
                         then l1 ++ [c] else l1
             | None => l1
             end).
  assert (H12 : forall p, p ∈ l1 -> p ∈ l2).
  { intros p Hp. unfold l2. destruct chosen as [c|]; [|exact Hp].
    by apply pushed_keeps. }
  assert (Hl2 : forall p, p ∈ l2 ->
            p ∈ l0 \/ p = str "package.json" \/ chosen = Some p).
  { intros p Hp. unfold l2 in Hp.
    assert (Hl1 : p ∈ l1 -> p ∈ l0 \/ p = str "package.json" \/ chosen = Some p).
    { unfold l1. intros H. apply pushed_elem in H as [H | H]; [by left|by right; left]. }
    destruct chosen as [c|]; [|by apply Hl1].
    apply pushed_elem in Hp as [Hp | ->]; [by apply Hl1|]. by right; right. }
  repeat split.
  - intros Hpkg. apply H12. unfold l1. rewrite Hpkg, andb_true_r.
    destruct (arrayIncludes l0 (str "package.json")) eqn:E; cbn [negb].
    + by apply arrayIncludes_spec.
    + apply elem_of_app. right. by apply list_elem_of_singleton.
  - intros c Hc. unfold l2. fold chosen in Hc. rewrite Hc.
    apply find_some in Hc as [Hcand Hexists]. rewrite Hexists, andb_true_r.
    assert (Htruthy : truthy c = true).
    { destruct Hcand as [<- | [<- | [<- | []]]]; reflexivity. }
    rewrite Htruthy. cbn [andb].
    destruct (arrayIncludes l1 c) eqn:E; cbn [negb].
    + by apply arrayIncludes_spec.
    + apply elem_of_app. right. by apply list_elem_of_singleton.
  - intros f Hf Hin. apply Hl2 in Hin as [Hin | [-> | Hin]].
    + assert (Hslash : 47%N ∉ f).
      { clear Hin. revert f Hf. apply Forall_forall.
        apply (bool_decide_unpack _). vm_compute. exact I. }
      apply list_elem_of_In in Hin.
      pose proof (walk_root_file chosen root f Hslash Hin) as Hkeep.
      unfold fileShouldBeIgnored in Hkeep.
      destruct (truthyOpt chosen && bool_decide (Some f = chosen)) eqn:E.
      * apply andb_true_iff in E as [_ E]. apply bool_decide_eq_true in E.
        by symmetry.
      * apply arrayIncludes_spec in Hf. congruence.
    + exfalso. revert Hf. apply (bool_decide_unpack _). vm_compute. exact I.
    + exact Hin.
  - intros Hnames d p Hd Hp. apply Hl2 in Hp as [Hp | [-> | Hp]].
    + apply list_elem_of_In in Hp.
      by apply (walk_root_directory chosen root d p Hnames Hd).
    + revert d Hd. apply Forall_forall. apply (bool_decide_unpack _).
      vm_compute. exact I.
    + apply find_some in Hp as [Hcand _]. revert d Hd. apply Forall_forall.
      destruct Hcand as [<- | [<- | [<- | []]]];
        apply (bool_decide_unpack _); vm_compute; exact I.
Qed.

Lemma walkFiles_selection_witness :
  str "package.json" ∈ walkFiles sampleTree.
Proof.
  apply (proj1 (walkFiles_selection sampleTree)). reflexivity.
Defined.

(** The sample directory: [yarn.lock] is chosen, the other lockfiles,
    [.gitignore], [node_modules] and [app/dist] are left out, and the
    symbolic link [package.json] is added at the end. *)
Example walkFiles_sample :
  chooseLockfile sampleTree = Some (str "yarn.lock")
  /\ walkFiles sampleTree = [str "yarn.lock"; str "app/page.mdx"; str "package.json"].
Proof. split; vm_compute; reflexivity. Qed.

End FileSelection.

(* ===================================================================== *)
(** * The gate, the client and the sticky comment against the inputs      *)
(* ===================================================================== *)

(** ** The policy gate and the entries of its allowlists *)

Section PolicyGateAllowlists.
Import Js Changes JsFacts TrimFacts Samples Wording RunSamples.

Lemma split_app_free (p rest : list N) (sep : N) :
  sep ∉ p ->
  split (p ++ sep :: rest) sep = p :: split rest sep.
Proof.
  induction p as [|c p IH]; intros Hp.
  - simpl. by rewrite N.eqb_refl.
  - cbn [app split].
    assert (Hc : N.eqb c sep = false).
    { apply N.eqb_neq. intros ->. apply Hp. constructor. }
    rewrite Hc, IH; [reflexivity|].
    intros Hin. apply Hp. by constructor.
Qed.

Lemma split_free (p : list N) (sep : N) : sep ∉ p -> split p sep = [p].
Proof.
  induction p as [|c p IH]; intros Hp; [reflexivity|].
  cbn [split].
  assert (Hc : N.eqb c sep = false).
  { apply N.eqb_neq. intros ->. apply Hp. constructor. }
  rewrite Hc, IH; [reflexivity|].
  intros Hin. apply Hp. by constructor.
Qed.

Lemma split_commaSeparated (pieces : list (list N)) :
  pieces <> [] ->
  Forall (fun piece => 44%N ∉ piece) pieces ->
  split (commaSeparated pieces) 44 = pieces.
Proof.
  intros Hne Hfree. induction Hfree as [|p ps Hp Hps IH]; [done|].
  destruct ps as [|q ps].
  - cbn [commaSeparated]. by apply split_free.
  - change (commaSeparated (p :: q :: ps)) with (p ++ 44%N :: commaSeparated (q :: ps)).
    rewrite split_app_free by exact Hp. f_equal. by apply IH.
Qed.

(** Every text is the comma-separated text of its pieces, none of which
    holds a comma. *)
Lemma commaSeparated_split (s : list N) :
  commaSeparated (split s 44) = s
  /\ Forall (fun piece => 44%N ∉ piece) (split s 44).
Proof.
  split.
  - induction s as [|c s IH]; [reflexivity|]. cbn [split].
    destruct (split s 44) as [|w ws] eqn:Hsplit.
    + destruct s as [|d s]; [discriminate Hsplit|]. cbn [split] in Hsplit.
      destruct (N.eqb d 44); [discriminate Hsplit|].
      destruct (split s 44); discriminate Hsplit.
    + destruct (N.eqb c 44) eqn:Hc.
      * apply N.eqb_eq in Hc. subst c.
        change (commaSeparated ([] :: w :: ws))
          with (44%N :: commaSeparated (w :: ws)).
        by rewrite IH.
      * rewrite <- IH. by destruct ws.
  - apply Forall_forall. intros piece Hpiece Hin.
    pose proof (split_no_sep s 44) as Hfree.
    rewrite List.Forall_forall in Hfree.
    apply (Hfree piece); by apply list_elem_of_In.
Qed.

Lemma parseCsv_commaSeparated (pieces fallback : list (list N)) :
  truthy (commaSeparated pieces) = true ->
  Forall (fun piece => 44%N ∉ piece) pieces ->
  parseCsv (Some (commaSeparated pieces)) fallback
  = List.filter truthy (List.map trim pieces).
Proof.
  intros Htruthy Hfree. unfold parseCsv. cbn [truthyOpt]. rewrite Htruthy.
  cbn [negb]. rewrite orElse_Some_truthy by exact Htruthy.
  rewrite split_commaSeparated; [reflexivity| |exact Hfree].
  intros ->. discriminate Htruthy.
Qed.

Lemma listed_entries (pieces : list (list N)) (name : list N) :
  arrayIncludes (List.filter truthy (List.map trim pieces)) name = true
  <-> listed pieces name.
Proof.
  rewrite arrayIncludes_spec. unfold listed. split.
  - intros Hin. apply list_elem_of_In, filter_In in Hin as [Hin Hname].
    apply in_map_iff in Hin as (piece & Htrim & Hpiece).
    split; [by destruct name|].
    exists piece. split; [by apply list_elem_of_In | exact Htrim].
  - intros (Hname & piece & Hpiece & Htrim).
    apply list_elem_of_In, filter_In. split.
    + apply in_map_iff. exists piece. split; [exact Htrim | by apply list_elem_of_In].
    + by destruct name.
Qed.

(** Where the first [refs/heads/] of a ref is its prefix, or the ref has
    none, removing it strips the prefix. *)
Lemma replace_withoutHeadsPrefix (r : list N) :
  startsWith r (str "refs/heads/") = true \/ includes r (str "refs/heads/") = false ->
  replace r (str "refs/heads/") [] = withoutHeadsPrefix r.
Proof.
  unfold withoutHeadsPrefix. intros [Hstart | Hnone].
  - rewrite Hstart. apply startsWith_prefix in Hstart as [rest ->].
    rewrite replace_prefix. by rewrite (drop_app_length (str "refs/heads/")).
  - assert (Hstart : startsWith r (str "refs/heads/") = false).
    { apply not_true_is_false. intros Hs. apply startsWith_prefix in Hs.
      exact (includes_false_no_occurrence r _ 0 Hnone Hs). }
    rewrite Hstart. unfold replace.
    unfold includes in Hnone. apply negb_false_iff in Hnone. by rewrite Hnone.
Qed.

(** C4.  Let an allowlist input be the comma-separated text of pieces
    (none of which holds a comma, as every text is) and not be empty; a name
    is listed when it is not empty and equals one of the pieces without the
    white space around it.  On every event that is not a pull-request event
    (a push in particular) the gate is open exactly when the event has a ref
    and the ref with the first [refs/heads/] removed is listed.  That name
    is the ref with the prefix [refs/heads/] stripped whenever the ref
    starts with [refs/heads/] or does not hold it at all; for a ref that
    holds it further in, it is another name.  On every pull-request event
    the gate is open exactly when the pull request has a base branch that is
    listed by the input of the base branches. *)
Theorem shouldDeployByPolicy_allowlist
    (ctx : Context) (pieces : list (list N)) (other : option (list N)) :
  truthy (commaSeparated pieces) = true ->
  Forall (fun piece => 44%N ∉ piece) pieces ->
  (isPullRequestEvent ctx = false ->
   (shouldDeployByPolicy ctx (Some (commaSeparated pieces)) other = true
    <-> exists r, ref ctx = Some r
                  /\ listed pieces (replace r (str "refs/heads/") [])))
  /\
  (forall r,
     startsWith r (str "refs/heads/") = true \/ includes r (str "refs/heads/") = false ->
     replace r (str "refs/heads/") [] = withoutHeadsPrefix r)
  /\
  (isPullRequestEvent ctx = true ->
   (shouldDeployByPolicy ctx other (Some (commaSeparated pieces)) = true
    <-> exists pr base,
          pull_request (payload ctx) = Some pr /\ pr_base_ref pr = Some base
          /\ listed pieces base)).
Proof.
  intros Htruthy Hfree.
  pose proof (parseCsv_commaSeparated pieces defaultBranches Htruthy Hfree) as Hparse.
  assert (Hempty : ~ listed pieces []) by (intros [H _]; by apply H).
  split; [|split; [exact replace_withoutHeadsPrefix|]];
    intros Hev; unfold shouldDeployByPolicy; rewrite Hev, Hparse; cbn [negb].
  - destruct (ref ctx) as [r|]; cbn [option_map].
    + replace (orElse (Some (replace r (str "refs/heads/") [])) [])
        with (replace r (str "refs/heads/") [])
        by (by destruct (replace r (str "refs/heads/") [])).
      rewrite listed_entries. split.
      * intros H. by exists r.
      * by intros (r' & [= <-] & H).
    + cbn [orElse truthyOpt]. rewrite listed_entries. split; [done|].
      by intros (r & Hr & _).
  - destruct (pull_request (payload ctx)) as [pr|].
    + destruct (pr_base_ref pr) as [base|] eqn:Hbase.
      * replace (orElse (Some base) []) with base by (by destruct base).
        rewrite listed_entries. split.
        -- intros H. by exists pr, base.
        -- intros (pr' & base' & [= <-] & Hb & H). rewrite Hbase in Hb.
           by injection Hb as <-.
      * cbn [orElse truthyOpt]. rewrite listed_entries. split; [done|].
        intros (pr' & base' & [= <-] & Hb & _). by rewrite Hbase in Hb.
    + cbn [orElse truthyOpt]. rewrite listed_entries. split; [done|].
      by intros (pr & base & Hpr & _).
Qed.

(** The gate at three events.  A push to [release] with the input
    [main, release] and a pull request against [canary] with the input
    [main,canary] pass.  The push of the tag [refs/heads/main] passes with
    the input [refs/tags/main], although the ref has no prefix
    [refs/heads/] to strip and is not listed. *)
Lemma shouldDeployByPolicy_allowlist_witness :
  shouldDeployByPolicy (pushContext (str "release"))
    (Some (str "main, release")) None = true
  /\ shouldDeployByPolicy (prContext (str "canary"))
       None (Some (str "main,canary")) = true
  /\ (shouldDeployByPolicy tagContext (Some (str "refs/tags/main")) None = true
      /\ ref tagContext = Some (str "refs/tags/refs/heads/main")
      /\ withoutHeadsPrefix (str "refs/tags/refs/heads/main")
         = str "refs/tags/refs/heads/main"
      /\ ~ listed [str "refs/tags/main"] (str "refs/tags/refs/heads/main")).
Proof.
  split; [|split; [|split; [|split; [|split]]]].
  - apply (proj1 (shouldDeployByPolicy_allowlist (pushContext (str "release"))
                    [str "main"; str " release"] None eq_refl
                    ltac:(apply (bool_decide_unpack _); vm_compute; exact I))
             eq_refl).
    exists (str "refs/heads/release"). split; [reflexivity|].
    split; [discriminate|]. exists (str " release").
    split; [apply (bool_decide_unpack _); vm_compute; exact I | reflexivity].
  - apply (proj2 (proj2 (shouldDeployByPolicy_allowlist (prContext (str "canary"))
                    [str "main"; str "canary"] None eq_refl
                    ltac:(apply (bool_decide_unpack _); vm_compute; exact I)))
             eq_refl).
    exists {| pr_number := Some 7; pr_base_ref := Some (str "canary") |},
           (str "canary").
    split; [reflexivity|]. split; [reflexivity|].
    split; [discriminate|]. exists (str "canary").
    split; [apply (bool_decide_unpack _); vm_compute; exact I | reflexivity].
  - apply (proj1 (shouldDeployByPolicy_allowlist tagContext
                    [str "refs/tags/main"] None eq_refl
                    ltac:(apply (bool_decide_unpack _); vm_compute; exact I))
             eq_refl).
    exists (str "refs/tags/refs/heads/main"). split; [reflexivity|].
    split; [discriminate|]. exists (str "refs/tags/main").
    split; [apply (bool_decide_unpack _); vm_compute; exact I | reflexivity].
  - reflexivity.
  - reflexivity.
  - intros (_ & piece & Hpiece & Htrim).
    apply list_elem_of_singleton in Hpiece. subst piece. discriminate Htrim.
Defined.

End PolicyGateAllowlists.

(** ** The extra metadata of the deployment request *)

Section ExtraMetadata.
Import Js VercelClient JsFacts TrimFacts Notions Samples Wording RunSamples.















End ExtraMetadata.

(** ** The alias candidates *)

Section AliasCandidates.
Import Js VercelClient JsFacts TrimFacts Notions Samples Wording RunSamples.

Lemma templateAliasDomains_plain (env : gmap string (list N))
    (domains : list (list N)) :
  forallb plainDomain domains = true ->
  templateAliasDomains env (Some domains) = domains.
Proof.
  intros Hplain. unfold templateAliasDomains.
  destruct domains as [|d0 ds]; [reflexivity|].
  set (all := d0 :: ds) in *. clearbody all.
  induction all as [|d l IH]; [reflexivity|].
  simpl in Hplain. apply andb_true_iff in Hplain as [Hd Hl].
  unfold plainDomain in Hd. apply negb_true_iff in Hd.
  cbn [List.map List.filter].
  rewrite (replaceTemplate_plain (str "BRANCH") _ d Hd).
  assert (Hsame :
    (if truthy (orElse (env !! "GITHUB_PR_NUMBER"%string) [])
     then replaceTemplate (str "PR_NUMBER")
            (orElse (env !! "GITHUB_PR_NUMBER"%string) []) d
     else d) = d).
  { destruct (truthy _); [by apply replaceTemplate_plain | reflexivity]. }
  rewrite Hsame, Hd. cbn [negb]. f_equal. by apply IH.
Qed.

Lemma allAliases_candidates (options : VercelDeployOptions)
    (env : gmap string (list N)) :
  allAliases options env
  = aliasCandidates (aliasDomain options)
      (templateAliasDomains env (aliasDomains options)).
Proof.
  unfold allAliases, aliasCandidates.
  destruct (aliasDomain options) as [a|]; cbn [truthyOpt]; [|reflexivity].
  destruct (truthy a) eqn:Ha; [|reflexivity].
  by rewrite orElse_Some_truthy.
Qed.

Lemma templateAliasDomains_listed (env : gmap string (list N))
    (domains : option (list (list N))) :
  forallb plainDomain (default [] domains) = true ->
  templateAliasDomains env domains = default [] domains.
Proof.
  destruct domains as [ds|]; [apply templateAliasDomains_plain | reflexivity].
Qed.

(** The alias loop with its effects: one request for each candidate,
    whatever the replies. *)
Lemma aliasLoop_run (pf : Platform) (options : VercelDeployOptions)
    (i idPart teamPart : list N) (domains : list (list N)) :
  truthy i = true ->
  encodeURIComponent pf i = Ok idPart ->
  encodeURIComponent pf (orgId options) = Ok teamPart ->
  forall (url : list N) (canonicalSet : bool) (w : World),
    aliasLoop pf options i domains url canonicalSet w
    = (Ok (if canonicalSet then url
           else match firstCanonical pf options (Some i) (requestsSent w) domains with
                | Some d => str "https://" ++ d
                | None => url
                end),
       recordAll (aliasRequests pf options (Some i) domains) w).
Proof.
  intros Hi E1 E2. unfold aliasRequests. rewrite Hi, E1, E2.
  induction domains as [|d ds IH]; intros url canonicalSet w;
    cbn [aliasLoop firstCanonical List.map].
  - destruct canonicalSet; reflexivity.
  - unfold bind at 1, tryCatch at 1, bind at 1, assignAlias at 1.
    unfold bind at 1, lift at 1. rewrite E1.
    unfold bind at 1, lift at 1. rewrite E2.
    unfold bind at 1, httpsRequest at 1, bind at 1, emit at 1, ret at 1.
    set (request := {| req_path := _; req_authorization := _; req_body := _ |}).
    assert (Hassigned :
      aliasAssigned pf options (Some i) (requestsSent w) d
      = match https_reply pf (requestsSent w) request with
        | Response statusCode _ => is2xx statusCode
        | NetworkError _ => false
        end).
    { unfold aliasAssigned. rewrite Hi, E1, E2. reflexivity. }
    rewrite Hassigned.
    change (recordAll (Https request :: ?es) w)
      with (recordAll es (record (Https request) w)).
    destruct (https_reply pf (requestsSent w) request) as [e | statusCode txt].
    + cbn [throw ret andb]. rewrite andb_false_r.
      rewrite IH, requestsSent_record_https. reflexivity.
    + destruct (is2xx statusCode).
      * cbn [ret andb].
        destruct canonicalSet; cbn [negb andb].
        -- rewrite IH. reflexivity.
        -- destruct (includes d (str ".")); cbn [andb].
           ++ rewrite IH. reflexivity.
           ++ rewrite IH, requestsSent_record_https. reflexivity.
      * cbn [throw ret andb]. rewrite andb_false_r.
        rewrite IH, requestsSent_record_https. reflexivity.
Qed.

(** C7.  For a deployment that Vercel accepted (a 2xx reply with a URL)
    and whose alias branch is the current branch, the candidates are the
    alias domain, when there is one, followed by the domains of the list as
    the templates resolve them; a list without template tokens is taken as it
    is, in its order.  The run sends the deployment request and then one
    alias request for every candidate, in order, whatever the replies to the
    earlier ones, and writes the outputs.  The URL that is returned and
    written is [https://] followed by the first candidate that contains a dot
    and whose request was answered with a 2xx status; when there is none it
    is the URL of the deployment.  A candidate whose assignment fails is
    passed over and the later candidates are still requested. *)
Theorem deployToVercel_canonical_alias
    (pf : Platform) (options : VercelDeployOptions) (w : World)
    (files : list (list N * list N)) (teamPart : list N)
    (statusCode : option Z) (txt : list N) (json : DeployJson)
    (u b : list N) :
  collectFiles pf (orElse (Some (workingDirectory options)) (str ".")) = Ok files ->
  encodeURIComponent pf (orgId options) = Ok teamPart ->
  https_reply pf (requestsSent w) (deployRequest pf options (env w) files teamPart)
  = Response statusCode txt ->
  is2xx statusCode = true ->
  JSON_parse pf txt = Ok json ->
  json_url json = Some u -> truthy u = true ->
  aliasBranch options = Some b -> truthy b = true -> getBranch (env w) = b ->
  (forall path line, appendFileSync pf path line = Ok tt) ->
  let domains := templateAliasDomains (env w) (aliasDomains options) in
  let candidates := aliasCandidates (aliasDomain options) domains in
  let canonical :=
    match firstCanonical pf options (json_id json) (S (requestsSent w)) candidates with
    | Some d => str "https://" ++ d
    | None => str "https://" ++ u
    end in
  (forallb plainDomain (default [] (aliasDomains options)) = true ->
   domains = default [] (aliasDomains options))
  /\ deployToVercel pf options w
     = (Ok {| url := canonical; id := json_id json |},
        recordAll
          (Https (deployRequest pf options (env w) files teamPart)
           :: aliasRequests pf options (json_id json) candidates
           ++ outputLines (env w) canonical) w).
Proof.
  intros Hfiles Hteam Hreply H2xx Hjson Hurl Hu Hbranch Hb Hcur Happend
         domains candidates canonical.
  split; [apply templateAliasDomains_listed|].
  unfold deployToVercel.
  unfold bind at 1. unfold bind at 1, lift at 1. rewrite Hfiles.
  unfold bind at 1, lift at 1. rewrite Hteam.
  unfold bind at 1, httpsRequest at 1, bind at 1, emit at 1, ret at 1.
  rewrite Hreply, H2xx.
  unfold bind at 1, ret at 1. unfold bind at 1, lift at 1. rewrite Hjson.
  rewrite Hurl. cbn [truthyOpt orElse]. rewrite Hu.
  assert (Htruthy : truthy (str "https://" ++ u) = true) by reflexivity.
  rewrite Htruthy. cbn [negb].
  rewrite (allAliases_candidates options (env w)).
  fold domains. fold candidates.
  set (request := deployRequest pf options (env w) files teamPart).
  set (w1 := record (Https request) w).
  assert (Hsent : requestsSent w1 = S (requestsSent w))
    by apply requestsSent_record_https.
  (* the outputs and the result, once the URL is known *)
  assert (Hfinish : forall url0 w2,
    ((match env w !! "GITHUB_OUTPUT"%string with
      | Some out =>
          if truthy out then
            call (AppendFile out (str "url=" ++ url0 ++ [10%N]))
                 (appendFileSync pf out (str "url=" ++ url0 ++ [10%N])) ;;
            call (AppendFile out (str "deployment_url=" ++ url0 ++ [10%N]))
                 (appendFileSync pf out (str "deployment_url=" ++ url0 ++ [10%N]))
          else ret tt
      | None => ret tt
      end) ;;
     ret {| url := url0; id := json_id json |}) w2
    = (Ok {| url := url0; id := json_id json |},
       recordAll (outputLines (env w) url0) w2)).
  { intros url0 w2. unfold outputLines, bind, call, emit, lift.
    destruct (env w !! "GITHUB_OUTPUT"%string) as [out|]; [|reflexivity].
    destruct (truthy out); [|reflexivity].
    rewrite !Happend. reflexivity. }
  change (recordAll (Https request :: ?es) w) with (recordAll es w1).
  rewrite recordAll_app.
  rewrite Hbranch, Hcur. cbn [truthyOpt]. rewrite Hb.
  rewrite bool_decide_eq_true_2 by reflexivity. rewrite !andb_true_r.
  subst canonical.
  destruct candidates as [|a aliases] eqn:Hal.
  { cbn [length Nat.eqb negb andb firstCanonical].
    unfold bind at 1, ret at 1.
    replace (aliasRequests pf options (json_id json) []) with (@nil Event).
    - apply Hfinish.
    - unfold aliasRequests. destruct (json_id json) as [i|]; [|reflexivity].
      destruct (truthy i); [|reflexivity].
      destruct (encodeURIComponent pf i); [|reflexivity].
      by rewrite Hteam. }
  cbn [length Nat.eqb negb andb].
  destruct (json_id json) as [i|] eqn:Hid; cbn [truthyOpt].
  2:{ rewrite firstCanonical_none_unassigned by reflexivity.
      unfold bind at 1, ret at 1. apply Hfinish. }
  destruct (truthy i) eqn:Hi.
  2:{ rewrite firstCanonical_none_unassigned
        by (intros; unfold aliasAssigned; rewrite Hi; reflexivity).
      unfold bind at 1, ret at 1.
      unfold aliasRequests at 1. rewrite Hi. apply Hfinish. }
  cbn [orElse]. rewrite Hi.
  destruct (encodeURIComponent pf i) as [idPart|e] eqn:Eid.
  - unfold bind at 1.
    rewrite (aliasLoop_run pf options i idPart teamPart (a :: aliases) Hi Eid Hteam).
    rewrite Hsent. apply Hfinish.
  - destruct (aliasLoop_unencodable pf options i (a :: aliases)
                (str "https://" ++ u) false w1) as [Hloop Hno].
    { intros idPart teamPart0 [Habs _]. rewrite Eid in Habs. discriminate. }
    unfold bind at 1. rewrite Hloop.
    rewrite firstCanonical_none_unassigned by exact Hno.
    unfold aliasRequests at 1. rewrite Hi, Eid. apply Hfinish.
Qed.

(** The canary run with an output file.  The candidates are [localhost],
    [x.example.com], [canary.example.com] (the template with the branch
    filled in) and [z.example.com].  [localhost] is assigned but has no dot,
    the assignment of [x.example.com] is refused, [canary.example.com]
    becomes the URL, and [z.example.com] is still requested after it. *)
Lemma deployToVercel_canonical_alias_witness :
  let aliasTo d :=
    Https {| req_path := str "/v2/deployments/dpl_1/aliases?teamId=team_1";
             req_authorization := str "Bearer tok";
             req_body := AliasBody d |} in
  deployToVercel samplePlatform canaryOptions outputWorld
  = (Ok {| url := str "https://canary.example.com"; id := Some (str "dpl_1") |},
     recordAll
       [Https (deployRequest samplePlatform canaryOptions (env outputWorld)
                 [(str "package.json", str "e30=")] (str "team_1"));
        aliasTo (str "localhost");
        aliasTo (str "x.example.com");
        aliasTo (str "canary.example.com");
        aliasTo (str "z.example.com");
        AppendFile (str "/tmp/out") (str "url=https://canary.example.com" ++ [10%N]);
        AppendFile (str "/tmp/out")
          (str "deployment_url=https://canary.example.com" ++ [10%N])]
       outputWorld).
Proof.
  exact (proj2 (deployToVercel_canonical_alias samplePlatform canaryOptions
                  outputWorld [(str "package.json", str "e30=")] (str "team_1")
                  (Some 200) (str "{...}")
                  {| json_url := Some (str "c15t-abc.vercel.app");
                     json_id := Some (str "dpl_1") |}
                  (str "c15t-abc.vercel.app") (str "canary")
                  eq_refl eq_refl eq_refl eq_refl eq_refl eq_refl eq_refl
                  eq_refl eq_refl eq_refl (fun _ _ => eq_refl))).
Defined.

End AliasCandidates.

(** ** The same body twice *)

Section RepeatedUpdate.
Import Js PrComment Comments JsFacts TrimFacts Notions Samples.

(** After a replacing update the stored comment is compared through its
    trimmed inner content, and the body as it is. *)
Lemma commentsEqual_stored (b header : list N) :
  10%N ∉ headerKey header ->
  includes b (autoEnd header) = false ->
  commentsEqual b (Some (bodyWithHeader b header)) header
  = bool_decide (b = trim b).
Proof.
  intros Hkey Hb. unfold commentsEqual. rewrite orElse_Some.
  apply bool_decide_ext.
  assert (Hj : indexOf b (autoEnd header) = -1).
  { unfold includes in Hb. apply negb_false_iff in Hb. by apply Z.eqb_eq. }
  rewrite Hj. cbn [Z.eqb negb]. rewrite andb_false_r.
  rewrite (indexOf_autoEnd_wrapped b header Hkey Hb).
  unfold bodyWithHeader at 1. rewrite indexOf_prefix.
  assert (Hlen : (len (autoStart header ++ newline ++ b ++ newline) =? -1) = false)
    by (apply Z.eqb_neq; unfold len; lia).
  rewrite Hlen. cbn [Z.eqb negb andb].
  unfold bodyWithHeader.
  replace (autoStart header ++ newline ++ b ++ newline ++ autoEnd header)
    with (autoStart header ++ (newline ++ b ++ newline) ++ autoEnd header)
    by (by rewrite <- !app_assoc).
  rewrite indexOf_prefix, substring_middle. unfold newline.
  by rewrite trim_between_newlines.
Qed.

(** C2.  With skip-unchanged enabled and append not requested, let the
    body be non-empty and not contain the end marker (whose key has no line
    break), and let discovery find a comment with other content.  The first
    call of [ensureComment] updates the comment to the wrapped body.
    [commentsEqual] then compares the body as it is with the stored inner
    content after [trim]: it holds exactly when the body has no white space
    at its start or end.  So the second call with the same body changes
    nothing when the body is trimmed, and writes the same update once more
    when it is not, as for every body that ends with a line break. *)
Theorem ensureComment_twice_untrimmed_body
    (inputs : Inputs) (gh : GitHub) (b : list N)
    (options : option EnsureOptions) (w : World) (prev : IssueComment) :
  skipUnchanged inputs = true ->
  appendRequested inputs options = false ->
  stickyComment inputs gh (comments w) = Some prev ->
  truthy (id prev) = true ->
  truthy b = true ->
  10%N ∉ headerKey (header inputs) ->
  includes b (autoEnd (header inputs)) = false ->
  commentsEqual b (Some (body prev)) (header inputs) = false ->
  let stored := bodyWithHeader b (header inputs) in
  let update := UpdateIssueComment (id prev) stored in
  exists w1 w2,
    ensureComment inputs gh b options w = (Ok tt, w1)
    /\ writes w1 = writes w ++ [update]
    /\ commentsEqual b (Some stored) (header inputs) = bool_decide (b = trim b)
    /\ ensureComment inputs gh b options w1 = (Ok tt, w2)
    /\ writes w2 = writes w1 ++ (if bool_decide (b = trim b) then [] else [update]).
Proof.
  intros Hskip Happend Hfound Hid Hb Hkey Hend Hdiff stored update.
  set (new_body := bodyWithHeader b (header inputs)) in *.
  pose proof (commentsEqual_stored b (header inputs) Hkey Hend) as Hequal.
  fold new_body in Hequal.
  (* the first call *)
  destruct (ensureComment_found inputs gh b options w prev Hfound Hb)
    as (qs & Hqs & Hrun1).
  cbv zeta in Hrun1. rewrite Hskip, Hdiff, Hid, Happend in Hrun1.
  cbn [negb andb] in Hrun1.
  rewrite updateComment_run in Hrun1 by exact Hb. cbv zeta in Hrun1.
  change (truthyOpt (getBodyOf (Some (body prev)) false (hideRequested inputs options)))
    with false in Hrun1.
  cbv iota in Hrun1. fold new_body in Hrun1.
  match type of Hrun1 with _ = (_, ?x) => set (w1 := x) in * end.
  assert (Hw1 : writes w1 = writes w ++ [update]).
  { unfold w1, withComments, writes. cbn [trace record].
    rewrite !List.filter_app. cbn [List.filter isWrite]. rewrite !app_nil_r.
    f_equal. apply (writes_queries qs w Hqs). }
  assert (Hc1 : comments w1 = storeUpdate (id prev) new_body (comments w)).
  { unfold w1, withComments. cbn [comments record].
    by rewrite comments_recordAll. }
  (* the second call finds the updated comment *)
  destruct (find_storeUpdate
              (isTarget (expectedLogin inputs gh) (autoStart (header inputs)))
              prev new_body (comments w)) as (found & Hfound2 & Hbody & Hid2).
  { intros c Hc. unfold isTarget in *. cbn [author_login isMinimized body].
    apply andb_true_iff in Hc as [Hc _]. rewrite Hc.
    unfold new_body, bodyWithHeader. by rewrite includes_prefix. }
  { exact Hfound. }
  assert (Hsticky : stickyComment inputs gh (comments w1) = Some found)
    by (rewrite Hc1; exact Hfound2).
  destruct (ensureComment_found inputs gh b options w1 found Hsticky Hb)
    as (qs2 & Hqs2 & Hrun2).
  cbv zeta in Hrun2. rewrite Hskip, Hbody, Hequal, Hid2, Hid, Happend in Hrun2.
  cbn [negb andb] in Hrun2.
  subst stored. rewrite Hequal.
  destruct (bool_decide (b = trim b)).
  - eexists w1, _.
    repeat split; [exact Hrun1 | exact Hw1 | exact Hrun2 |].
    rewrite writes_record. cbn [isWrite]. rewrite !app_nil_r.
    by apply writes_queries.
  - rewrite updateComment_run in Hrun2 by exact Hb. cbv zeta in Hrun2.
    change (truthyOpt (getBodyOf (Some new_body) false (hideRequested inputs options)))
      with false in Hrun2.
    cbv iota in Hrun2. fold new_body in Hrun2.
    eexists w1, _.
    repeat split; [exact Hrun1 | exact Hw1 | exact Hrun2 |].
    unfold withComments, writes. cbn [trace record].
    rewrite !List.filter_app. cbn [List.filter isWrite]. rewrite !app_nil_r.
    f_equal. apply (writes_queries qs2 w1 Hqs2).
Qed.

(** The body [### Docs Preview] followed by a line break, as the one of
    [renderCommentMarkdown] ends, over the previous comment [A]: both calls
    write, and the comparison after the first write fails. *)
Lemma ensureComment_twice_untrimmed_body_witness :
  let stored := bodyWithHeader renderedBody [] in
  let update := UpdateIssueComment (id previousA) stored in
  exists w1 w2,
    ensureComment stickyInputs botGitHub renderedBody appendOff (worldWith previousA)
    = (Ok tt, w1)
    /\ writes w1 = writes (worldWith previousA) ++ [update]
    /\ commentsEqual renderedBody (Some stored) [] = false
    /\ ensureComment stickyInputs botGitHub renderedBody appendOff w1 = (Ok tt, w2)
    /\ writes w2 = writes w1 ++ [update].
Proof.
  apply (ensureComment_twice_untrimmed_body stickyInputs botGitHub renderedBody
           appendOff (worldWith previousA) previousA);
    try (vm_compute; reflexivity).
  apply (bool_decide_unpack _). vm_compute. exact I.
Defined.

(** The trimmed body [B] over the same comment: one write, and the second
    call changes nothing. *)
Example ensureComment_twice_trimmed_body :
  let w1 := snd (ensureComment stickyInputs botGitHub (str "B") appendOff
                   (worldWith previousA)) in
  let w2 := snd (ensureComment stickyInputs botGitHub (str "B") appendOff w1) in
  writes w1 = [UpdateIssueComment (str "IC_1") (bodyWithHeader (str "B") [])]
  /\ writes w2 = writes w1.
Proof. split; vm_compute; reflexivity. Qed.

(** When the update appends, a second call with the same body appends it
    once more: the stored content is then the previous content and the
    body, which the body alone does not equal. *)
Example ensureComment_twice_appends :
  let w1 := snd (ensureComment stickyInputs botGitHub (str "B") appendOn
                   (worldWith previousAutoWrapped)) in
  let w2 := snd (ensureComment stickyInputs botGitHub (str "B") appendOn w1) in
  let inner := AUTO_COMMENT_START ++ str "A" ++ AUTO_COMMENT_END in
  writes w2
  = [UpdateIssueComment (str "IC_1")
       (bodyWithHeader (inner ++ newline ++ str "B") []);
     UpdateIssueComment (str "IC_1")
       (bodyWithHeader (inner ++ newline ++ str "B" ++ newline ++ str "B") [])].
Proof. vm_compute. reflexivity. Qed.

End RepeatedUpdate.
